(** * KRPano tile acquisition engine

    A shallow embedding of [src/pix360_krpano/modules.py]: the URL
    classifier ([KRPanoDownloader.test_url]), the schema normaliser
    ([KRPanoConverter.url_normalize]), the zoom and grid probers
    ([get_max_zoom], [export]), the six-face downloader ([export_simple])
    and the coordinator ([export_full], [make_tiles], [to_equirectangular]).

    Python [str] values are [string]s of ASCII characters, Python [int]s are
    [Z].  Code that talks to the network, the database or the stitchers runs
    in a small state-and-exception monad whose state records every request,
    every created [File] row and every stitcher call; the unbounded
    [while True] loops take a fuel argument that bounds their iterations. *)

From Stdlib Require Import String Ascii List ZArith Lia Bool Arith DecimalString.
From Stdlib Require DecimalPos DecimalZ.
Import ListNotations.

Local Open Scope string_scope.
Local Open Scope Z_scope.

(* ===================================================================== *)
(** * Python string operations used by the module *)
(* ===================================================================== *)

Module PyStr.

(** [str(n)] for an [int], which is also what [%i], [%d] and an f-string
    field render. *)
Definition str_of_int (z : Z) : string := NilZero.string_of_int (Z.to_int z).

(** ['0' <= c <= '9']: the characters of Python's ["0123456789"]. *)
Definition is_digit (c : ascii) : bool :=
  let n := nat_of_ascii c in (48 <=? n)%nat && (n <=? 57)%nat.

(** [c in s] for a one-character [c]. *)
Fixpoint contains (c : ascii) (s : string) : bool :=
  match s with
  | EmptyString => false
  | String d s' => Ascii.eqb c d || contains c s'
  end.

(** [s.split(sep)] for a one-character separator: one more part than there
    are separators, empty parts kept. *)
Fixpoint split (sep : ascii) (s : string) : list string :=
  match s with
  | EmptyString => [EmptyString]
  | String c s' =>
      if Ascii.eqb c sep then EmptyString :: split sep s'
      else match split sep s' with
           | [] => [String c EmptyString]
           | p :: ps => String c p :: ps
           end
  end.

(** [sep.join(parts)]. *)
Fixpoint join (sep : string) (parts : list string) : string :=
  match parts with
  | [] => EmptyString
  | [p] => p
  | p :: ps => p ++ sep ++ join sep ps
  end.

(** [parts[0] + "/" + ... + parts[n-1] + "/" + rest] *)
Definition slash_prefix (pre : list string) (rest : string) : string :=
  fold_right (fun p acc => p ++ "/" ++ acc) rest pre.

(** [s.rstrip(chars)]: drop the longest suffix made of characters of
    [chars]. *)
Fixpoint rstrip (chars : string) (s : string) : string :=
  match s with
  | EmptyString => EmptyString
  | String c s' =>
      match rstrip chars s' with
      | EmptyString => if contains c chars then EmptyString
                       else String c EmptyString
      | r => String c r
      end
  end.

(** [s[:-k]] and [s[-k:]] for [k > 0]: Python clamps a start or stop that
    falls before the string. *)
Definition slice_until_last (k : nat) (s : string) : string :=
  substring 0 (String.length s - k) s.

Definition slice_last (k : nat) (s : string) : string :=
  substring (String.length s - k) k s.

(** ** The [%] operator on a [str] and a tuple of [int]s

    The directives the module writes itself are [%i]; [%d] renders the same
    and [%%] is a literal percent sign.  A directive that ends in a character
    that is no conversion type, or a format that ends inside a directive,
    raises [ValueError]; a missing or left-over argument raises [TypeError].
    Directives with flags, a width or a precision and the conversions other
    than [d] and [i] are outside the modelled fragment. *)

Inductive format_result :=
| Formatted (s : string)
| FormatError                 (* the operator raises *)
| FormatNotModelled.          (* outside the fragment: nothing is claimed *)

Definition prepend (c : ascii) (r : format_result) : format_result :=
  match r with
  | Formatted s => Formatted (String c s)
  | other => other
  end.

Definition prepend_str (p : string) (r : format_result) : format_result :=
  match r with
  | Formatted s => Formatted (p ++ s)
  | other => other
  end.

(** Characters that may stand between [%] and the conversion type: flags,
    width, precision and length modifier. *)
Definition is_modifier (c : ascii) : bool :=
  is_digit c || contains c "-+ #.*hlL".

(** The conversion types of printf-style formatting. *)
Definition is_conversion (c : ascii) : bool :=
  contains c "diouxXeEfFgGcrsa%".

Inductive format_mode :=
| InText            (* outside a directive *)
| InDirective       (* just after the [%] *)
| InModifiers.      (* after [%] and at least one modifier character *)

Fixpoint format_from (m : format_mode) (s : string) (args : list Z)
  : format_result :=
  match s with
  | EmptyString =>
      match m with
      | InText => match args with
                  | [] => Formatted EmptyString
                  | _ :: _ => FormatError
                  end
      | _ => FormatError
      end
  | String c s' =>
      match m with
      | InText =>
          if Ascii.eqb c "%" then format_from InDirective s' args
          else prepend c (format_from InText s' args)
      | InDirective =>
          if Ascii.eqb c "%" then prepend "%" (format_from InText s' args)
          else if Ascii.eqb c "i" || Ascii.eqb c "d" then
            match args with
            | a :: args' =>
                prepend_str (str_of_int a) (format_from InText s' args')
            | [] => FormatError
            end
          else if is_modifier c then format_from InModifiers s' args
          else if is_conversion c then FormatNotModelled
          else FormatError
      | InModifiers =>
          if is_modifier c then format_from InModifiers s' args
          else if is_conversion c then FormatNotModelled
          else FormatError
      end
  end.

(** [template % args]. *)
Definition percent_format (template : string) (args : list Z)
  : format_result :=
  format_from InText template args.

End PyStr.

(* ===================================================================== *)
(** * The fragment of [re.search] the patterns need *)
(* ===================================================================== *)

Module Regex.

(** Character classes: a literal, [\d], a bracket set, [.] (anything but a
    newline) and, for the unanchored search, any character at all. *)
Inductive cclass :=
| CLit (c : ascii)
| CDigit
| CSet (members : string)
| CDot
| CAny.

Definition newline : ascii := ascii_of_nat 10.

Definition cclass_mem (k : cclass) (c : ascii) : bool :=
  match k with
  | CLit d => Ascii.eqb c d
  | CDigit => PyStr.is_digit c
  | CSet members => PyStr.contains c members
  | CDot => negb (Ascii.eqb c newline)
  | CAny => true
  end.

Inductive regex :=
| Void
| Eps
| Sym (k : cclass)
| Cat (r1 r2 : regex)
| Alt (r1 r2 : regex)
| Star (r : regex).

(** [r+] *)
Definition Plus (r : regex) : regex := Cat r (Star r).

(** A run of literal characters. *)
Fixpoint Lits (s : string) : regex :=
  match s with
  | EmptyString => Eps
  | String c s' => Cat (Sym (CLit c)) (Lits s')
  end.

Fixpoint nullable (r : regex) : bool :=
  match r with
  | Void => false
  | Eps => true
  | Sym _ => false
  | Cat r1 r2 => nullable r1 && nullable r2
  | Alt r1 r2 => nullable r1 || nullable r2
  | Star _ => true
  end.

Fixpoint deriv (c : ascii) (r : regex) : regex :=
  match r with
  | Void => Void
  | Eps => Void
  | Sym k => if cclass_mem k c then Eps else Void
  | Cat r1 r2 =>
      if nullable r1 then Alt (Cat (deriv c r1) r2) (deriv c r2)
      else Cat (deriv c r1) r2
  | Alt r1 r2 => Alt (deriv c r1) (deriv c r2)
  | Star r1 => Cat (deriv c r1) (Star r1)
  end.

(** Whole-string match, by derivatives. *)
Fixpoint matches (r : regex) (s : string) : bool :=
  match s with
  | EmptyString => nullable r
  | String c s' => matches (deriv c r) s'
  end.

(** A compiled pattern: whether it starts with [^], and its body. *)
Record pattern := { anchored : bool; body : regex }.

(** [bool(re.search(p, s))]: the body matches some substring of [s], which
    starts at position 0 when the pattern is anchored. *)
Definition search (p : pattern) (s : string) : bool :=
  if anchored p then matches (Cat (body p) (Star (Sym CAny))) s
  else matches (Cat (Star (Sym CAny)) (Cat (body p) (Star (Sym CAny)))) s.

(** The strings a regex denotes. *)
Inductive lang : regex -> string -> Prop :=
| lang_eps : lang Eps EmptyString
| lang_sym k c : cclass_mem k c = true -> lang (Sym k) (String c EmptyString)
| lang_cat r1 r2 s1 s2 :
    lang r1 s1 -> lang r2 s2 -> lang (Cat r1 r2) (s1 ++ s2)
| lang_alt_l r1 r2 s : lang r1 s -> lang (Alt r1 r2) s
| lang_alt_r r1 r2 s : lang r2 s -> lang (Alt r1 r2) s
| lang_star_nil r : lang (Star r) EmptyString
| lang_star_app r s1 s2 :
    lang r s1 -> lang (Star r) s2 -> lang (Star r) (s1 ++ s2).

End Regex.

(* ===================================================================== *)
(** * The module [pix360_krpano/modules.py] *)
(* ===================================================================== *)

Module KRPano.

Import Regex.

(** ** [KRPanoDownloader] *)

(** Modelled from the spec: the constants [DownloaderModule.CERTAINTY_*] are
    declared in [pix360core], which is not part of this repository; the
    spec's ConfidenceLevel is the ordered enumeration
    UNSUPPORTED < POSSIBLE < PROBABLE. *)
Inductive certainty :=
| CERTAINTY_UNSUPPORTED
| CERTAINTY_POSSIBLE
| CERTAINTY_PROBABLE.

Definition kwargs := list (string * string).

Definition digits : regex := Plus (Sym CDigit).

(** [r"\d+/\d+/\d+_\d+\.jpg"] *)
Definition REGEX_FULL : list (pattern * certainty * kwargs) :=
  [ ({| anchored := false;
        body := Cat digits (Cat (Lits "/") (Cat digits (Cat (Lits "/")
                (Cat digits (Cat (Lits "_") (Cat digits (Lits ".jpg"))))))) |},
     CERTAINTY_PROBABLE, []) ].

(** [r"\_[frblud].jpg"] and [r"^\d.jpg"] (the dot is not escaped in either) *)
Definition REGEX_SIMPLE : list (pattern * certainty * kwargs) :=
  [ ({| anchored := false;
        body := Cat (Lits "_") (Cat (Sym (CSet "frblud"))
                (Cat (Sym CDot) (Lits "jpg"))) |},
     CERTAINTY_PROBABLE, []);
    ({| anchored := true;
        body := Cat (Sym CDigit) (Cat (Sym CDot) (Lits "jpg")) |},
     CERTAINTY_POSSIBLE, [("tiles", "012345")]) ].

(** [for regex, certainty, kwargs in table: if bool(re.search(regex, url)):]
    the first entry of the table whose pattern is found in [url]. *)
Fixpoint first_match (table : list (pattern * certainty * kwargs))
  (url : string) : option (certainty * kwargs) :=
  match table with
  | [] => None
  | (regex, cert, kw) :: rest =>
      if search regex url then Some (cert, kw) else first_match rest url
  end.

Definition test_url (url : string) : certainty :=
  match first_match REGEX_FULL url with
  | Some (cert, _) => cert
  | None =>
      match first_match REGEX_SIMPLE url with
      | Some (cert, _) => cert
      | None => CERTAINTY_UNSUPPORTED
      end
  end.

(** ** Values, records and the side-effect log *)

(** What [url_normalize] returns: a template, or Python's [False]. *)
Inductive schema :=
| SchemaFalse
| SchemaStr (template : string).

(** The values a conversion's [properties] mapping can hold. *)
Inductive pyvalue :=
| PyNone
| PyInt (z : Z)
| PyText (s : string)
| PyTuple (items : list Z).

Record Conversion := {
  conv_url : string;
  conv_properties : option (list (string * pyvalue))   (* [None] or a dict *)
}.

(** A row of the [File] model, as [File.objects.create] is called here. *)
Record File := {
  file_conversion : Conversion;
  file_name : option string;
  file_content : string;
  file_mime_type : string
}.

Definition face_grid := list (list File).

(** What [make_tiles] hands to the cubemap stitcher: the six files of
    [export_simple], or what [multistitch] returned. *)
Inductive tileset :=
| FaceFiles (faces : list File)
| Multistitched (stitched : File).

Inductive stitcher_call :=
| CallMultistitch (images : list face_grid)
| CallCubemapToEquirectangular (tiles : tileset) (rotation : pyvalue).

Inductive exn :=
| AssertionError
| TypeError
| IndexError
| ValueError (message : string)
| FetchError          (* raised by [HTTPRequest(url).open()] *)
| StitchError.        (* raised by a stitcher *)

(** What a request comes back with: [open()] raises, or there is a response
    with a status code and a body. *)
Inductive http_outcome :=
| OpenRaises
| Response (code : Z) (content : string).

Record state := {
  probes : list (Z * Z * Z * Z);   (* tuples substituted into a schema *)
  requests : list string;          (* URLs opened, oldest first *)
  files : list File;               (* [File] rows created *)
  calls : list stitcher_call       (* stitcher calls made *)
}.

Definition initial_state : state :=
  {| probes := []; requests := []; files := []; calls := [] |}.

Definition add_probe (p : Z * Z * Z * Z) (st : state) : state :=
  {| probes := (probes st ++ [p])%list; requests := requests st;
     files := files st; calls := calls st |}.

Definition add_request (url : string) (st : state) : state :=
  {| probes := probes st; requests := (requests st ++ [url])%list;
     files := files st; calls := calls st |}.

Definition add_file (f : File) (st : state) : state :=
  {| probes := probes st; requests := requests st;
     files := (files st ++ [f])%list; calls := calls st |}.

Definition add_call (c : stitcher_call) (st : state) : state :=
  {| probes := probes st; requests := requests st;
     files := files st; calls := (calls st ++ [c])%list |}.

Inductive outcome (A : Type) :=
| Returns (a : A) (st : state)
| Raises (e : exn) (st : state)
| OutOfFuel.

Arguments Returns {A} a st.
Arguments Raises {A} e st.
Arguments OutOfFuel {A}.

(** Computations that read and extend the log and may raise. *)
Definition M (A : Type) : Type := state -> outcome A.

Definition ret {A} (a : A) : M A := fun st => Returns a st.

Definition bind {A B} (m : M A) (k : A -> M B) : M B :=
  fun st =>
    match m st with
    | Returns a st' => k a st'
    | Raises e st' => Raises e st'
    | OutOfFuel => OutOfFuel
    end.

Definition raise {A} (e : exn) : M A := fun st => Raises e st.

(** [try: body / except: handler]; what the body did before it raised
    stays done. *)
Definition try_except {A} (body : M A) (handler : exn -> M A) : M A :=
  fun st =>
    match body st with
    | Raises e st' => handler e st'
    | other => other
    end.

Definition out_of_fuel {A} : M A := fun _ => OutOfFuel.

Notation "x <- m ;; k" := (bind m (fun x => k))
  (at level 61, m at next level, right associativity).
Notation "m ;;; k" := (bind m (fun _ => k))
  (at level 61, right associativity).

(** [assert cond] *)
Definition py_assert (cond : bool) : M unit :=
  if cond then ret tt else raise AssertionError.

(** [l[-k]] and [l[-k] = v] for [k >= 1]; [None] is [IndexError]. *)
Definition get_from_end {A} (k : nat) (l : list A) : option A :=
  if (k <=? length l)%nat then nth_error l (length l - k) else None.

Definition set_from_end {A} (k : nat) (v : A) (l : list A) : option (list A) :=
  if (k <=? length l)%nat
  then Some (firstn (length l - k) l ++ v :: skipn (S (length l - k)) l)%list
  else None.

Definition or_index_error {A} (o : option A) : M A :=
  match o with
  | Some a => ret a
  | None => raise IndexError
  end.

(** [properties.get(key, default)] *)
Fixpoint dict_get (key : string) (d : list (string * pyvalue))
  (default : pyvalue) : pyvalue :=
  match d with
  | [] => default
  | (k, v) :: rest => if String.eqb k key then v else dict_get key rest default
  end.

Definition zero_rotation : pyvalue := PyTuple [0; 0; 0].

(** The [rotation] that [to_equirectangular] computes: an absent or empty
    [properties] is falsy. *)
Definition rotation_of (conversion : Conversion) : pyvalue :=
  match conv_properties conversion with
  | None => zero_rotation
  | Some [] => zero_rotation
  | Some d => dict_get "rotation" d zero_rotation
  end.

(** [url[:-5] + i + url[-4:]] *)
Definition sibling_url (url : string) (i : ascii) : string :=
  PyStr.slice_until_last 5 url ++ String i (PyStr.slice_last 4 url).

(** [f"{tile}_{maxzoom}_{y}_{x}.jpg"] *)
Definition tile_name (tile maxzoom y x : Z) : string :=
  PyStr.str_of_int tile ++ "_" ++ PyStr.str_of_int maxzoom ++ "_"
  ++ PyStr.str_of_int y ++ "_" ++ PyStr.str_of_int x ++ ".jpg".

(** ** [KRPanoConverter] *)

Section Engine.

(** The collaborators the converter calls and does not define.

    [http_open history url] is what [HTTPRequest(url).open()] gives when the
    requests of [history] were made before it; [str_mod template a b c d] is
    [template % (a, b, c, d)] on a [str], [None] when it raises; the two
    stitchers return a value or raise. *)
Variable http_open : list string -> string -> http_outcome.
Variable str_mod : string -> Z -> Z -> Z -> Z -> option string.
Variable multistitch : list face_grid -> option File.
Variable cubemap_to_equirectangular : tileset -> pyvalue -> option File.

(** The converter's [self.conversion]. *)
Variable conversion : Conversion.

(** [schema % (a, b, c, d)]: [False % tuple] is a [TypeError]. *)
Definition schema_mod (sch : schema) (a b c d : Z) : option string :=
  match sch with
  | SchemaFalse => None
  | SchemaStr template => str_mod template a b c d
  end.

Definition substitute (sch : schema) (a b c d : Z) : M string :=
  fun st =>
    match schema_mod sch a b c d with
    | Some url => Returns url (add_probe (a, b, c, d) st)
    | None => Raises TypeError (add_probe (a, b, c, d) st)
    end.

(** [HTTPRequest(url).open()], giving [(res.getcode(), res.read())]. *)
Definition http_request (url : string) : M (Z * string) :=
  fun st =>
    match http_open (requests st) url with
    | OpenRaises => Raises FetchError (add_request url st)
    | Response code content => Returns (code, content) (add_request url st)
    end.

(** [File.objects.create(conversion=self.conversion, file=ContentFile(content,
    name=name), mime_type=mime)] *)
Definition create_file (name : option string) (content mime : string)
  : M File :=
  fun st =>
    let f := {| file_conversion := conversion; file_name := name;
                file_content := content; file_mime_type := mime |} in
    Returns f (add_file f st).

Definition log_call (c : stitcher_call) : M unit :=
  fun st => Returns tt (add_call c st).

Definition call_multistitch (images : list face_grid) : M File :=
  log_call (CallMultistitch images) ;;;
  match multistitch images with
  | Some f => ret f
  | None => raise StitchError
  end.

Definition call_cubemap_to_equirectangular (tiles : tileset)
  (rotation : pyvalue) : M File :=
  log_call (CallCubemapToEquirectangular tiles rotation) ;;;
  match cubemap_to_equirectangular tiles rotation with
  | Some f => ret f
  | None => raise StitchError
  end.

(** [url_normalize]: the whole body is inside [try]; any exception gives
    [False]. *)
Definition url_normalize (url : string) : M schema :=
  try_except
    (res <- http_request url ;;
     py_assert (fst res =? 200) ;;;
     let parts := PyStr.split "/" url in
     last <- or_index_error (get_from_end 1 parts) ;;
     py_assert (PyStr.contains "_" last) ;;;
     parts <- or_index_error (set_from_end 1 "%i_%i.jpg" parts) ;;
     parts <- or_index_error (set_from_end 2 "%i" parts) ;;
     third <- or_index_error (get_from_end 3 parts) ;;
     parts <- or_index_error
                (set_from_end 3 (PyStr.rstrip "0123456789" third ++ "%i") parts) ;;
     ret (SchemaStr (PyStr.join "/" parts)))
    (fun _ => ret SchemaFalse).

(** One turn of the [try] body of [get_max_zoom]. *)
Definition probe_zoom (sch : schema) (l : Z) : M Z :=
  url <- substitute sch 0 (l + 1) 0 0 ;;
  res <- http_request url ;;
  py_assert (fst res =? 200) ;;;
  ret (l + 1).

(** The [while True] of [get_max_zoom], from level [l]. *)
Fixpoint get_max_zoom_from (fuel : nat) (sch : schema) (l : Z) : M Z :=
  match fuel with
  | O => out_of_fuel
  | S fuel' =>
      next <- try_except (l' <- probe_zoom sch l ;; ret (Some l'))
                         (fun _ => ret None) ;;
      match next with
      | Some l' => get_max_zoom_from fuel' sch l'
      | None => ret l
      end
  end.

Definition get_max_zoom (fuel : nat) (sch : schema) : M Z :=
  get_max_zoom_from fuel sch 0.

(** The [try] body of the inner loop of [export]. *)
Definition fetch_tile (sch : schema) (tile maxzoom y x : Z) : M File :=
  url <- substitute sch tile maxzoom y x ;;
  res <- http_request url ;;
  py_assert (fst res =? 200) ;;;
  create_file (Some (tile_name tile maxzoom y x)) (snd res) "image/jpeg".

(** The inner [while True] of [export]: the columns of row [y], from [x]. *)
Fixpoint export_row (fuel : nat) (sch : schema) (tile maxzoom y x : Z)
  (r_array : list File) : M (list File) :=
  match fuel with
  | O => out_of_fuel
  | S fuel' =>
      got <- try_except (f <- fetch_tile sch tile maxzoom y x ;; ret (Some f))
                        (fun _ => ret None) ;;
      match got with
      | Some f =>
          export_row fuel' sch tile maxzoom y (x + 1) (r_array ++ [f])%list
      | None => ret r_array
      end
  end.

(** The outer [while True] of [export]: the rows of face [tile], from [y];
    every row gets [row_fuel] turns of the inner loop. *)
Fixpoint export_rows (row_fuel fuel : nat) (sch : schema) (tile maxzoom y : Z)
  (t_array : face_grid) : M face_grid :=
  match fuel with
  | O => out_of_fuel
  | S fuel' =>
      r_array <- export_row row_fuel sch tile maxzoom y 0 [] ;;
      match r_array with
      | [] => ret t_array
      | _ :: _ =>
          export_rows row_fuel fuel' sch tile maxzoom (y + 1)
            (t_array ++ [r_array])%list
      end
  end.

(** The body of [for tile in range(6)]. *)
Definition export_face (fuel : nat) (sch : schema) (tile maxzoom : Z)
  : M face_grid :=
  export_rows fuel fuel sch tile maxzoom 0 [].

Fixpoint export_faces (fuel : nat) (sch : schema) (maxzoom : Z)
  (tiles : list Z) (output : list face_grid) : M (list face_grid) :=
  match tiles with
  | [] => ret output
  | tile :: rest =>
      t_array <- export_face fuel sch tile maxzoom ;;
      export_faces fuel sch maxzoom rest (output ++ [t_array])%list
  end.

(** [range(6)] *)
Definition range6 : list Z := [0; 1; 2; 3; 4; 5].

Definition export (fuel : nat) (sch : schema) : M (list face_grid) :=
  maxzoom <- get_max_zoom fuel sch ;;
  export_faces fuel sch maxzoom range6 [].

(** The [for i in tiles] of [export_simple]. *)
Fixpoint export_simple_from (url : string) (tiles : string)
  (output : list File) : M (list File) :=
  match tiles with
  | EmptyString => ret output
  | String i rest =>
      let cur := sibling_url url i in
      res <- http_request cur ;;
      py_assert (fst res =? 200) ;;;
      file <- create_file None (snd res) "image/jpeg" ;;
      export_simple_from url rest (output ++ [file])%list
  end.

Definition export_simple (url : string) (tiles : string) : M (list File) :=
  export_simple_from url tiles [].

Definition export_full (fuel : nat) (url : string) : M File :=
  sch <- url_normalize url ;;
  images <- export fuel sch ;;
  call_multistitch images.

(** [self.export_full(url, **kwargs)]: [export_full] takes no keyword. *)
Definition apply_export_full (fuel : nat) (url : string) (kw : kwargs)
  : M tileset :=
  match kw with
  | [] => f <- export_full fuel url ;; ret (Multistitched f)
  | _ :: _ => raise TypeError
  end.

(** [self.export_simple(url, **kwargs)]: the only keyword is [tiles]. *)
Definition apply_export_simple (url : string) (kw : kwargs) : M tileset :=
  match kw with
  | [] => fs <- export_simple url "frblud" ;; ret (FaceFiles fs)
  | [(key, tiles)] =>
      if String.eqb key "tiles"
      then fs <- export_simple url tiles ;; ret (FaceFiles fs)
      else raise TypeError
  | _ => raise TypeError
  end.

Definition make_tiles (fuel : nat) (url : string) : M tileset :=
  match first_match REGEX_FULL url with
  | Some (_, kw) => apply_export_full fuel url kw
  | None =>
      match first_match REGEX_SIMPLE url with
      | Some (_, kw) => apply_export_simple url kw
      | None =>
          raise (ValueError (url ++ " does not seem to be a valid krpano URL."))
      end
  end.

Definition to_equirectangular (fuel : nat) : M File :=
  stitched <- make_tiles fuel (conv_url conversion) ;;
  call_cubemap_to_equirectangular stitched (rotation_of conversion).

End Engine.

(** ** Vocabulary of the specification *)

(** A non-empty run of decimal digits. *)
Fixpoint all_digits (s : string) : bool :=
  match s with
  | EmptyString => true
  | String c s' => PyStr.is_digit c && all_digits s'
  end.

Definition numeral (s : string) : Prop :=
  s <> EmptyString /\ all_digits s = true.

(** The three URL shapes of the classifier, written out on the string. *)
Definition full_pyramid_shape (url : string) : Prop :=
  exists pre face zoom row col post,
    numeral face /\ numeral zoom /\ numeral row /\ numeral col /\
    url = pre ++ face ++ "/" ++ zoom ++ "/" ++ row ++ "_" ++ col
              ++ ".jpg" ++ post.

Definition face_letter_shape (url : string) : Prop :=
  exists pre letter any post,
    PyStr.contains letter "frblud" = true /\ any <> newline /\
    url = pre ++ "_" ++ String letter (String any ("jpg" ++ post)).

Definition leading_digit_shape (url : string) : Prop :=
  exists digit any post,
    PyStr.is_digit digit = true /\ any <> newline /\
    url = String digit (String any ("jpg" ++ post)).

Section Providers.

Variable http_open : list string -> string -> http_outcome.
Variable str_mod : string -> Z -> Z -> Z -> Z -> option string.

(** A request for [url] after [history] is answered with status 200. *)
Definition fetch_ok (history : list string) (url : string) : bool :=
  match http_open history url with
  | Response code _ => code =? 200
  | OpenRaises => false
  end.

(** The probe of tile [(a, b, c, d)] succeeds after [history]: the schema
    substitutes and the request is answered with status 200. *)
Definition probe_ok (sch : schema) (history : list string) (a b c d : Z)
  : bool :=
  match schema_mod str_mod sch a b c d with
  | Some url => fetch_ok history url
  | None => false
  end.

(** The URLs requested by a sequence of probes: one for each tuple at which
    the schema substitutes. *)
Definition trace_urls (sch : schema) (trace : list (Z * Z * Z * Z))
  : list string :=
  flat_map (fun p => match p with
                     | (a, b, c, d) =>
                         match schema_mod str_mod sch a b c d with
                         | Some url => [url]
                         | None => []
                         end
                     end) trace.

(** The log after the probes of [trace] were made and the rows [created]
    were added to the [File] table. *)
Definition advance (sch : schema) (trace : list (Z * Z * Z * Z))
  (created : list File) (st : state) : state :=
  {| probes := (probes st ++ trace)%list;
     requests := (requests st ++ trace_urls sch trace)%list;
     files := (files st ++ created)%list;
     calls := calls st |}.

(** However many requests were made before, face [tile] has, at zoom [zoom],
    a tile at row [y] and column [x] exactly when [y < R] and [x < C].  Only
    rows [0 .. R] and columns [0 .. C] are constrained: the loops of
    [export] reach no other position of such a face. *)
Definition exposes (sch : schema) (tile zoom : Z) (R C : nat) : Prop :=
  forall history (y x : nat),
    (y <= R)%nat -> (x <= C)%nat ->
    (probe_ok sch history tile zoom (Z.of_nat y) (Z.of_nat x) = true
     <-> (y < R /\ x < C)%nat).

(** Zoom levels [1 .. k] answer and level [k + 1] does not. *)
Definition zoom_stops_at (sch : schema) (k : nat) : Prop :=
  (forall history (l : nat), (1 <= l <= k)%nat ->
     probe_ok sch history 0 (Z.of_nat l) 0 0 = true) /\
  (forall history, probe_ok sch history 0 (Z.of_nat (S k)) 0 0 = false).

(** No tile is served at a zoom level, row or column of [B] or more. *)
Definition bounded_provider (sch : schema) (B : nat) : Prop :=
  forall history (a b c d : Z),
    Z.of_nat B <= b \/ Z.of_nat B <= c \/ Z.of_nat B <= d ->
    probe_ok sch history a b c d = false.

(** The file recorded for letter [i] of the six-face download: the body of
    a 200 response to the sibling URL of [i], with no name. *)
Definition tile_of_letter (conversion : Conversion) (url : string)
  (i : ascii) (f : File) : Prop :=
  file_name f = None /\ file_mime_type f = "image/jpeg" /\
  file_conversion f = conversion /\
  exists history,
    http_open history (sibling_url url i) = Response 200 (file_content f).

End Providers.


(** The probes of a zoom search that returns [k]: levels [1 .. k + 1]. *)
Definition zoom_trace (k : nat) : list (Z * Z * Z * Z) :=
  map (fun l => (0, Z.of_nat (S l), 0, 0)) (seq 0 (S k)).

(** The probes of one row of [C] columns: columns [0 .. C]. *)
Definition row_trace (tile zoom : Z) (C y : nat) : list (Z * Z * Z * Z) :=
  map (fun x => (tile, zoom, Z.of_nat y, Z.of_nat x)) (seq 0 (S C)).

(** The probes of a face of [R] rows of [C] columns, in the order made. *)
Definition face_trace (tile zoom : Z) (R C : nat) : list (Z * Z * Z * Z) :=
  (flat_map (row_trace tile zoom C) (seq 0 R)
   ++ [(tile, zoom, Z.of_nat R, 0)])%list.

(** The names of the files of an [R] by [C] grid in row-major order. *)
Definition grid_names (tile zoom : Z) (R C : nat) : list (list (option string)) :=
  map (fun y => map (fun x => Some (tile_name tile zoom (Z.of_nat y) (Z.of_nat x)))
                    (seq 0 C))
      (seq 0 R).

(** The probes that leave the rows [rows] in the grid of a face, the first
    of them being row [y]: the columns of each row and the one after its
    last file, then the first column of the row after the last. *)
Fixpoint rows_trace (tile zoom : Z) (y : nat) (rows : face_grid)
  : list (Z * Z * Z * Z) :=
  match rows with
  | [] => [(tile, zoom, Z.of_nat y, 0)]
  | row :: rest =>
      (row_trace tile zoom (length row) y
       ++ rows_trace tile zoom (S y) rest)%list
  end.

(** The probes that leave the grids [grids] for the faces [tiles]. *)
Fixpoint faces_trace (zoom : Z) (tiles : list Z) (grids : list face_grid)
  : list (Z * Z * Z * Z) :=
  match tiles, grids with
  | tile :: tiles', grid :: grids' =>
      (rows_trace tile zoom 0 grid ++ faces_trace zoom tiles' grids')%list
  | _, _ => []
  end.

(** The first value stored under [key], if any. *)
Fixpoint dict_lookup (key : string) (d : list (string * pyvalue))
  : option pyvalue :=
  match d with
  | [] => None
  | (k, v) :: rest => if String.eqb k key then Some v else dict_lookup key rest
  end.

(** The computation made no stitcher call. *)
Definition keeps_calls {A} (st : state) (o : outcome A) : Prop :=
  match o with
  | Returns _ st' => calls st' = calls st
  | Raises _ st' => calls st' = calls st
  | OutOfFuel => True
  end.

Definition rows_nonempty (g : face_grid) : Prop :=
  Forall (fun row => row <> []) g.

(** The [File] row of tile [(tile, zoom, y, x)]: named
    [tile_zoom_y_x.jpg], of type [image/jpeg], attached to the
    conversion. *)
Definition tile_named (conversion : Conversion) (tile zoom y x : Z)
  (f : File) : Prop :=
  file_name f = Some (tile_name tile zoom y x) /\
  file_mime_type f = "image/jpeg" /\
  file_conversion f = conversion.

Definition cubemap_calls (cs : list stitcher_call) : list stitcher_call :=
  filter (fun c => match c with
                   | CallCubemapToEquirectangular _ _ => true
                   | CallMultistitch _ => false
                   end) cs.

(** ** Collaborators of the worked examples *)

(** Python's [%] as [PyStr.percent_format] has it; a template outside the
    modelled fragment is given no URL, and no example uses one. *)
Definition python_mod (template : string) (a b c d : Z) : option string :=
  match PyStr.percent_format template [a; b; c; d] with
  | PyStr.Formatted url => Some url
  | _ => None
  end.

(** A server that has the listed URLs and answers 404 for any other. *)
Definition static_site (available : list string)
  (history : list string) (url : string) : http_outcome :=
  if existsb (String.eqb url) available then Response 200 "jpeg"
  else Response 404 "".

(** No request gets through. *)
Definition unreachable_host (history : list string) (url : string)
  : http_outcome :=
  OpenRaises.

(** The first request is lost in transport; every later one is answered. *)
Definition flaky_host (history : list string) (url : string) : http_outcome :=
  match history with
  | [] => OpenRaises
  | _ :: _ => Response 200 "jpeg"
  end.

(** Every request is answered with status 200. *)
Definition catch_all_host (history : list string) (url : string)
  : http_outcome :=
  Response 200 "jpeg".

Definition demo_url : string := "http://x/pano0/1/0_0.jpg".

Definition demo_schema : schema := SchemaStr "http://x/pano%i/%i/%i_%i.jpg".

(** Face 0 has zoom level 1 and no level 2; at level 1 it has rows 0 and 1
    of columns 0, 1 and 2.  The other faces have nothing. *)
Definition demo_site : list string -> string -> http_outcome :=
  static_site [ "http://x/pano0/1/0_0.jpg"; "http://x/pano0/1/0_1.jpg";
                "http://x/pano0/1/0_2.jpg"; "http://x/pano0/1/1_0.jpg";
                "http://x/pano0/1/1_1.jpg"; "http://x/pano0/1/1_2.jpg" ].

(** The six faces of a panorama without tiles. *)
Definition six_faces : list string -> string -> http_outcome :=
  static_site [ "http://x/pano_f.jpg"; "http://x/pano_r.jpg";
                "http://x/pano_b.jpg"; "http://x/pano_l.jpg";
                "http://x/pano_u.jpg"; "http://x/pano_d.jpg" ].

Definition demo_conversion : Conversion :=
  {| conv_url := demo_url;
     conv_properties := Some [("rotation", PyTuple [10; 20; 30])] |}.

Definition demo_stitched (name : string) : File :=
  {| file_conversion := demo_conversion; file_name := Some name;
     file_content := "stitched"; file_mime_type := "image/jpeg" |}.

Definition demo_multistitch (images : list face_grid) : option File :=
  Some (demo_stitched "cubemap").

Definition demo_cubemap_to_equirectangular (tiles : tileset)
  (rotation : pyvalue) : option File :=
  Some (demo_stitched "result").

End KRPano.

(* ===================================================================== *)
(** * The module [pix360_youtube/modules.py] *)
(* ===================================================================== *)

Module YouTube.

Import Regex KRPano.

(** ** [YouTubeDownloader] *)

(** [r"^https://(www\.)?youtube.com"] (the dot before [com] is not
    escaped).  The entries are pairs, whatever the annotation of the table
    says. *)
Definition REGEX : list (pattern * certainty) :=
  [ ({| anchored := true;
        body := Cat (Lits "https://") (Cat (Alt (Lits "www.") Eps)
                (Cat (Lits "youtube") (Cat (Sym CDot) (Lits "com")))) |},
     CERTAINTY_PROBABLE) ].

(** [for regex, certainty in cls.REGEX: if bool(re.search(regex, url)):] *)
Fixpoint first_match (table : list (pattern * certainty)) (url : string)
  : option certainty :=
  match table with
  | [] => None
  | (regex, cert) :: rest =>
      if search regex url then Some cert else first_match rest url
  end.

Definition test_url (url : string) : certainty :=
  match first_match REGEX url with
  | Some cert => cert
  | None => CERTAINTY_UNSUPPORTED
  end.

(** ** Vocabulary of the statements *)

(** [url] starts with [https://], an optional [www.], [youtube], one
    character that is no newline, and [com]. *)
Definition youtube_shape (url : string) : Prop :=
  exists www any rest,
    (www = "www." \/ www = "") /\ any <> newline /\
    url = "https://" ++ www ++ "youtube" ++ String any ("com" ++ rest).

End YouTube.

(* ===================================================================== *)
(** * Facts about strings *)
(* ===================================================================== *)

Module PyStrFacts.

Import PyStr.

Lemma append_empty_r (s : string) : s ++ "" = s.
Proof. induction s as [|c s IH]; simpl; [reflexivity | now rewrite IH]. Qed.

Lemma append_assoc (s t u : string) : (s ++ t) ++ u = s ++ (t ++ u).
Proof. induction s as [|c s IH]; simpl; [reflexivity | now rewrite IH]. Qed.

Lemma append_empty_inv (s t : string) : s ++ t = "" -> s = "" /\ t = "".
Proof. destruct s; simpl; intros H; [now split | discriminate]. Qed.

Lemma length_append (s t : string) :
  String.length (s ++ t) = (String.length s + String.length t)%nat.
Proof. induction s as [|c s IH]; simpl; [reflexivity | now rewrite IH]. Qed.

End PyStrFacts.

(* ===================================================================== *)
(** * The derivative matcher decides the language of a regex *)
(* ===================================================================== *)

Module RegexFacts.

Import Regex PyStrFacts.

Lemma nullable_lang (r : regex) : nullable r = true <-> lang r "".
Proof.
  split.
  - induction r; simpl; intros H; try discriminate.
    + constructor.
    + apply andb_true_iff in H as [H1 H2].
      change "" with ("" ++ ""). constructor; auto.
    + apply orb_true_iff in H as [H | H];
        [apply lang_alt_l | apply lang_alt_r]; auto.
    + constructor.
  - intros H. remember "" as s eqn:E.
    induction H; simpl; try discriminate; auto.
    + apply append_empty_inv in E as [-> ->].
      rewrite IHlang1, IHlang2; auto.
    + rewrite IHlang; auto.
    + rewrite IHlang; auto using orb_true_r.
Qed.

Lemma deriv_sound (c : ascii) (r : regex) :
  forall s, lang (deriv c r) s -> lang r (String c s).
Proof.
  induction r; simpl; intros s H.
  - inversion H.
  - inversion H.
  - destruct (cclass_mem k c) eqn:E; inversion H; subst. now constructor.
  - destruct (nullable r1) eqn:N.
    + inversion H as [| | | ? ? ? H1 | ? ? ? H1 | |]; subst.
      * inversion H1; subst.
        change (String c (s1 ++ s2)) with (String c s1 ++ s2).
        constructor; auto.
      * change (String c s) with ("" ++ String c s).
        constructor; auto. now apply nullable_lang.
    + inversion H; subst.
      change (String c (s1 ++ s2)) with (String c s1 ++ s2).
      constructor; auto.
  - inversion H; subst; [apply lang_alt_l | apply lang_alt_r]; auto.
  - inversion H; subst.
    change (String c (s1 ++ s2)) with (String c s1 ++ s2).
    constructor; auto.
Qed.

Lemma deriv_complete (c : ascii) (r : regex) (s0 : string) :
  lang r s0 -> forall s, s0 = String c s -> lang (deriv c r) s.
Proof.
  induction 1 as [| k d Hd | r1 r2 s1 s2 H1 IH1 H2 IH2 | r1 r2 s1 H1 IH1
                  | r1 r2 s1 H1 IH1 | r1 | r1 s1 s2 H1 IH1 H2 IH2];
    intros s E; simpl.
  - discriminate.
  - injection E as -> <-. rewrite Hd. constructor.
  - destruct s1 as [|c1 s1]; simpl in E.
    + assert (N : nullable r1 = true) by now apply nullable_lang.
      rewrite N. apply lang_alt_r. auto.
    + injection E as -> <-.
      destruct (nullable r1); [apply lang_alt_l |]; constructor; auto.
  - apply lang_alt_l; auto.
  - apply lang_alt_r; auto.
  - discriminate.
  - destruct s1 as [|c1 s1]; simpl in E.
    + apply IH2 in E. exact E.
    + injection E as -> <-. constructor; auto.
Qed.

Lemma matches_lang (r : regex) (s : string) :
  matches r s = true <-> lang r s.
Proof.
  revert r. induction s as [|c s IH]; intros r; simpl.
  - apply nullable_lang.
  - rewrite IH. split.
    + apply deriv_sound.
    + intros H. now apply (deriv_complete c r (String c s)).
Qed.

Lemma lang_cat_iff (r1 r2 : regex) (s : string) :
  lang (Cat r1 r2) s <->
  exists s1 s2, s = s1 ++ s2 /\ lang r1 s1 /\ lang r2 s2.
Proof.
  split.
  - intros H. inversion H; subst. eauto.
  - intros (s1 & s2 & -> & H1 & H2). now constructor.
Qed.

Lemma lang_any_star (s : string) : lang (Star (Sym CAny)) s.
Proof.
  induction s as [|c s IH].
  - constructor.
  - change (String c s) with (String c "" ++ s).
    constructor; auto. now constructor.
Qed.

Lemma lang_sym_iff (k : cclass) (s : string) :
  lang (Sym k) s <-> exists c, s = String c "" /\ cclass_mem k c = true.
Proof.
  split.
  - intros H. inversion H; subst. eauto.
  - intros (c & -> & H). now constructor.
Qed.

Lemma lang_Lits (t s : string) : lang (Lits t) s <-> s = t.
Proof.
  revert s. induction t as [|c t IH]; intros s; simpl.
  - split; intros H; [now inversion H | subst; constructor].
  - rewrite lang_cat_iff. split.
    + intros (s1 & s2 & -> & H1 & H2).
      apply lang_sym_iff in H1 as (d & -> & Hd). simpl in Hd.
      apply Ascii.eqb_eq in Hd. subst d.
      apply IH in H2. now subst.
    + intros ->. exists (String c ""), t. repeat split.
      * constructor. simpl. apply Ascii.eqb_refl.
      * now apply IH.
Qed.

Lemma lang_star_digits (s : string) :
  lang (Star (Sym CDigit)) s <-> KRPano.all_digits s = true.
Proof.
  split.
  - intros H. remember (Star (Sym CDigit)) as r eqn:E.
    induction H; try discriminate.
    + reflexivity.
    + injection E as ->. specialize (IHlang2 eq_refl).
      apply lang_sym_iff in H as (c & -> & Hc). simpl in Hc |- *.
      now rewrite Hc, IHlang2.
  - induction s as [|c s IH]; simpl; intros H.
    + constructor.
    + apply andb_true_iff in H as [Hc Hs].
      change (String c s) with (String c "" ++ s).
      constructor; auto. now constructor.
Qed.

Lemma lang_digits (s : string) :
  lang KRPano.digits s <-> KRPano.numeral s.
Proof.
  unfold KRPano.digits, Plus, KRPano.numeral. rewrite lang_cat_iff. split.
  - intros (s1 & s2 & -> & H1 & H2).
    apply lang_sym_iff in H1 as (c & -> & Hc). simpl in Hc.
    apply lang_star_digits in H2. simpl. split; [discriminate |].
    now rewrite Hc, H2.
  - intros [Hne H]. destruct s as [|c s]; [congruence |].
    simpl in H. apply andb_true_iff in H as [Hc Hs].
    exists (String c ""), s. repeat split.
    + now constructor.
    + now apply lang_star_digits.
Qed.

(** An unanchored search finds the body somewhere in the string; an
    anchored one finds it at the start. *)
Lemma search_unanchored (r : regex) (s : string) :
  search {| anchored := false; body := r |} s = true <->
  exists pre m post, s = pre ++ m ++ post /\ lang r m.
Proof.
  unfold search; simpl. rewrite matches_lang, lang_cat_iff. split.
  - intros (pre & rest & -> & _ & H).
    apply lang_cat_iff in H as (m & post & -> & H & _). eauto.
  - intros (pre & m & post & -> & H).
    exists pre, (m ++ post). repeat split.
    + apply lang_any_star.
    + constructor; auto. apply lang_any_star.
Qed.

Lemma search_anchored (r : regex) (s : string) :
  search {| anchored := true; body := r |} s = true <->
  exists m post, s = m ++ post /\ lang r m.
Proof.
  unfold search; simpl. rewrite matches_lang, lang_cat_iff. split.
  - intros (m & post & -> & H & _). eauto.
  - intros (m & post & -> & H). exists m, post. repeat split; auto.
    apply lang_any_star.
Qed.

End RegexFacts.

(* ===================================================================== *)
(** * The URL classifier *)
(* ===================================================================== *)

Module ClassifierSpec.

Import Regex PyStrFacts RegexFacts KRPano.

Ltac split_cat H :=
  repeat match type of H with
         | lang (Cat _ _) _ =>
             let s1 := fresh "s" in
             let s2 := fresh "s" in
             let H1 := fresh "H" in
             apply lang_cat_iff in H as (s1 & s2 & -> & H1 & H)
         end.

Lemma full_pyramid_found (url : string) :
  first_match REGEX_FULL url <> None <-> full_pyramid_shape url.
Proof.
  unfold REGEX_FULL, first_match.
  match goal with |- context [search ?p url] =>
    destruct (search p url) eqn:E end.
  - split; [intros _ | discriminate].
    apply search_unanchored in E as (pre & m & post & -> & H).
    split_cat H.
    repeat match goal with
           | G : lang digits _ |- _ => apply lang_digits in G
           | G : lang (Lits _) _ |- _ => apply lang_Lits in G; subst
           end.
    match goal with
    | |- full_pyramid_shape
           (_ ++ (?a ++ "/" ++ ?b ++ "/" ++ ?c ++ "_" ++ ?d ++ ".jpg") ++ _) =>
        exists pre, a, b, c, d, post
    end.
    repeat (split; [assumption |]).
    repeat rewrite append_assoc. reflexivity.
  - split; [congruence |].
    intros (pre & face & zoom & row & col & post & Hf & Hz & Hr & Hc & ->).
    exfalso. apply not_true_iff_false in E. apply E.
    apply search_unanchored.
    exists pre, (face ++ "/" ++ zoom ++ "/" ++ row ++ "_" ++ col ++ ".jpg"), post.
    split.
    + repeat rewrite append_assoc. reflexivity.
    + repeat (first [ apply lang_cat | apply lang_digits; assumption
                    | apply lang_Lits; reflexivity ]).
Qed.

Ltac split_syms :=
  repeat match goal with
         | G : lang (Sym _) _ |- _ =>
             let c := fresh "c" in
             let Hc := fresh "Hc" in
             apply lang_sym_iff in G as (c & -> & Hc)
         | G : lang (Lits _) _ |- _ => apply lang_Lits in G; subst
         end.

Lemma dot_matches (c : ascii) :
  negb (Ascii.eqb c newline) = true <-> c <> newline.
Proof.
  rewrite negb_true_iff. split.
  - intros H ->. now rewrite Ascii.eqb_refl in H.
  - intros H. now apply Ascii.eqb_neq.
Qed.

Lemma face_letter_found (url : string) :
  search {| anchored := false;
            body := Cat (Lits "_") (Cat (Sym (CSet "frblud"))
                    (Cat (Sym CDot) (Lits "jpg"))) |} url = true
  <-> face_letter_shape url.
Proof.
  rewrite search_unanchored. split.
  - intros (pre & m & post & -> & H).
    split_cat H. split_syms.
    match goal with
    | Hl : cclass_mem (CSet _) ?l = true, Ha : cclass_mem CDot ?a = true |- _ =>
        exists pre, l, a, post; apply dot_matches in Ha; repeat split; auto
    end.
  - intros (pre & letter & any & post & Hl & Ha & ->).
    exists pre, ("_" ++ String letter (String any "jpg")), post. split.
    + reflexivity.
    + repeat (first [ apply lang_cat | apply lang_Lits; reflexivity ]).
      * change (String letter (String any "jpg"))
          with (String letter "" ++ (String any "" ++ "jpg")).
        repeat (first [ apply lang_cat | apply lang_Lits; reflexivity ]).
        -- now constructor.
        -- constructor. now apply dot_matches.
Qed.

Lemma leading_digit_found (url : string) :
  search {| anchored := true;
            body := Cat (Sym CDigit) (Cat (Sym CDot) (Lits "jpg")) |} url = true
  <-> leading_digit_shape url.
Proof.
  rewrite search_anchored. split.
  - intros (m & post & -> & H).
    split_cat H. split_syms.
    match goal with
    | Hd : cclass_mem CDigit ?d = true, Ha : cclass_mem CDot ?a = true |- _ =>
        exists d, a, post; apply dot_matches in Ha; repeat split; auto
    end.
  - intros (digit & any & post & Hd & Ha & ->).
    exists (String digit (String any "jpg")), post. split.
    + reflexivity.
    + change (String digit (String any "jpg"))
        with (String digit "" ++ (String any "" ++ "jpg")).
      repeat (first [ apply lang_cat | apply lang_Lits; reflexivity ]).
      * now constructor.
      * constructor. now apply dot_matches.
Qed.

(** C3: [test_url] classifies by the first pattern found, in the order
    full pyramid, face letter, leading digit: a URL of the full-pyramid shape
    is PROBABLE whatever else it matches; otherwise one with a face-letter
    suffix [_[frblud].jpg] is PROBABLE; otherwise one that starts with a
    digit, any character and [jpg] is POSSIBLE; otherwise the URL is
    UNSUPPORTED. *)
Theorem test_url_priority (url : string) :
  (full_pyramid_shape url -> test_url url = CERTAINTY_PROBABLE) /\
  (~ full_pyramid_shape url -> face_letter_shape url ->
     test_url url = CERTAINTY_PROBABLE) /\
  (~ full_pyramid_shape url -> ~ face_letter_shape url ->
     leading_digit_shape url -> test_url url = CERTAINTY_POSSIBLE) /\
  (~ full_pyramid_shape url -> ~ face_letter_shape url ->
     ~ leading_digit_shape url -> test_url url = CERTAINTY_UNSUPPORTED).
Proof.
  unfold test_url.
  pose proof (full_pyramid_found url) as Hfull.
  pose proof (face_letter_found url) as Hface.
  pose proof (leading_digit_found url) as Hdigit.
  assert (Hfull' : first_match REGEX_FULL url = None
                   \/ first_match REGEX_FULL url
                      = Some (CERTAINTY_PROBABLE, [])).
  { unfold REGEX_FULL, first_match.
    match goal with |- context [search ?p url] => destruct (search p url) end;
      auto. }
  set (full := first_match REGEX_FULL url) in *. clearbody full.
  unfold REGEX_SIMPLE, first_match.
  repeat split.
  - intros H. apply Hfull in H.
    destruct Hfull' as [E | E]; [congruence | now rewrite E].
  - intros Hn Hf. destruct Hfull' as [E | E].
    + rewrite E. apply Hface in Hf. now rewrite Hf.
    + exfalso. apply Hn, Hfull. congruence.
  - intros Hn Hnf Hd. destruct Hfull' as [E | E].
    + rewrite E. rewrite <- Hface in Hnf.
      apply not_true_iff_false in Hnf.
      rewrite Hnf. apply Hdigit in Hd. now rewrite Hd.
    + exfalso. apply Hn, Hfull. congruence.
  - intros Hn Hnf Hnd. destruct Hfull' as [E | E].
    + rewrite E.
      match goal with |- context [search ?p url] =>
        destruct (search p url) eqn:E1 end.
      { exfalso. now apply Hnf, Hface. }
      match goal with |- context [search ?p url] =>
        destruct (search p url) eqn:E2 end.
      { exfalso. now apply Hnd, Hdigit. }
      reflexivity.
    + exfalso. apply Hn, Hfull. congruence.
Qed.

Lemma full_pyramid_absent (url : string) :
  first_match REGEX_FULL url = None -> ~ full_pyramid_shape url.
Proof. intros E H. apply full_pyramid_found in H. congruence. Qed.

Lemma face_letter_absent (url : string) :
  search {| anchored := false;
            body := Cat (Lits "_") (Cat (Sym (CSet "frblud"))
                    (Cat (Sym CDot) (Lits "jpg"))) |} url = false ->
  ~ face_letter_shape url.
Proof. intros E H. apply face_letter_found in H. congruence. Qed.

Lemma leading_digit_absent (url : string) :
  search {| anchored := true;
            body := Cat (Sym CDigit) (Cat (Sym CDot) (Lits "jpg")) |} url
  = false ->
  ~ leading_digit_shape url.
Proof. intros E H. apply leading_digit_found in H. congruence. Qed.

Lemma test_url_priority_witness :
  test_url "http://x/001/1/0_0.jpg" = CERTAINTY_PROBABLE /\
  test_url "http://x/pano_f.jpg" = CERTAINTY_PROBABLE /\
  test_url "1.jpg" = CERTAINTY_POSSIBLE /\
  test_url "http://x/pano.png" = CERTAINTY_UNSUPPORTED.
Proof.
  split; [| split; [| split]].
  - apply (proj1 (test_url_priority "http://x/001/1/0_0.jpg")).
    apply full_pyramid_found. vm_compute. discriminate.
  - apply (proj1 (proj2 (test_url_priority "http://x/pano_f.jpg"))).
    + apply full_pyramid_absent. vm_compute. reflexivity.
    + apply face_letter_found. vm_compute. reflexivity.
  - apply (proj1 (proj2 (proj2 (test_url_priority "1.jpg")))).
    + apply full_pyramid_absent. vm_compute. reflexivity.
    + apply face_letter_absent. vm_compute. reflexivity.
    + apply leading_digit_found. vm_compute. reflexivity.
  - apply (proj2 (proj2 (proj2 (test_url_priority "http://x/pano.png")))).
    + apply full_pyramid_absent. vm_compute. reflexivity.
    + apply face_letter_absent. vm_compute. reflexivity.
    + apply leading_digit_absent. vm_compute. reflexivity.
Defined.

(** A URL that matches both a full-pyramid and a simple pattern, here the
    POSSIBLE one, is classified by the full-pyramid entry. *)
Example test_url_both_patterns :
  test_url "1xjpg/2/3/4_5.jpg" = CERTAINTY_PROBABLE
  /\ first_match REGEX_SIMPLE "1xjpg/2/3/4_5.jpg"
     = Some (CERTAINTY_POSSIBLE, [("tiles", "012345")]).
Proof. split; vm_compute; reflexivity. Qed.

End ClassifierSpec.

(* ===================================================================== *)
(** * The probe loops *)
(* ===================================================================== *)

Module ProbingSpec.

Import KRPano.

Local Open Scope list_scope.

Section Probing.

Variable http_open : list string -> string -> http_outcome.
Variable str_mod : string -> Z -> Z -> Z -> Z -> option string.
Variable conversion : Conversion.

Abbreviation ok := (probe_ok http_open str_mod).
Abbreviation adv := (advance str_mod).

Lemma advance_nil (sch : schema) (st : state) : adv sch [] [] st = st.
Proof.
  destruct st. unfold advance; simpl. now rewrite !app_nil_r.
Qed.

Lemma trace_urls_app (sch : schema) (t1 t2 : list (Z * Z * Z * Z)) :
  trace_urls str_mod sch (t1 ++ t2)
  = (trace_urls str_mod sch t1 ++ trace_urls str_mod sch t2)%list.
Proof. unfold trace_urls. apply flat_map_app. Qed.

Lemma advance_advance (sch : schema) t1 t2 f1 f2 (st : state) :
  adv sch t2 f2 (adv sch t1 f1 st) = adv sch (t1 ++ t2) (f1 ++ f2) st.
Proof.
  unfold advance; simpl. now rewrite trace_urls_app, !app_assoc.
Qed.

(** One turn of a probe loop leaves the same log whether the probe succeeds
    or not: the tuple is recorded, and the URL when there is one. *)
Lemma zoom_turn (sch : schema) (l : Z) (st : state) :
  try_except (l' <- probe_zoom http_open str_mod sch l ;; ret (Some l'))
             (fun _ => ret None) st
  = Returns (if ok sch (requests st) 0 (l + 1) 0 0 then Some (l + 1) else None)
            (adv sch [(0, l + 1, 0, 0)] [] st).
Proof.
  unfold try_except, probe_zoom, bind, substitute, http_request, py_assert,
    ret, raise, probe_ok, fetch_ok, advance, trace_urls, add_probe,
    add_request; simpl.
  destruct (schema_mod str_mod sch 0 (l + 1) 0 0) as [url|]; simpl.
  - destruct (http_open (requests st) url) as [|code content]; simpl.
    + now rewrite !app_nil_r.
    + destruct (code =? 200); simpl; now rewrite !app_nil_r.
  - now rewrite !app_nil_r.
Qed.

Lemma tile_turn_ok (sch : schema) (tile zoom y x : Z) (st : state) :
  ok sch (requests st) tile zoom y x = true ->
  exists f,
    try_except (f <- fetch_tile http_open str_mod conversion sch tile zoom y x ;;
                ret (Some f))
               (fun _ => ret None) st
    = Returns (Some f) (adv sch [(tile, zoom, y, x)] [f] st)
    /\ file_name f = Some (tile_name tile zoom y x).
Proof.
  unfold try_except, fetch_tile, bind, substitute, http_request, py_assert,
    create_file, ret, raise, probe_ok, fetch_ok, advance, trace_urls,
    add_probe, add_request, add_file; simpl.
  destruct (schema_mod str_mod sch tile zoom y x) as [url|]; simpl;
    [| discriminate].
  destruct (http_open (requests st) url) as [|code content]; simpl;
    [discriminate |].
  intros ->. simpl. eexists. split.
  - rewrite ?app_nil_r. reflexivity.
  - reflexivity.
Qed.

Lemma tile_turn_fail (sch : schema) (tile zoom y x : Z) (st : state) :
  ok sch (requests st) tile zoom y x = false ->
  try_except (f <- fetch_tile http_open str_mod conversion sch tile zoom y x ;;
              ret (Some f))
             (fun _ => ret None) st
  = Returns None (adv sch [(tile, zoom, y, x)] [] st).
Proof.
  unfold try_except, fetch_tile, bind, substitute, http_request, py_assert,
    create_file, ret, raise, probe_ok, fetch_ok, advance, trace_urls,
    add_probe, add_request, add_file; simpl.
  destruct (schema_mod str_mod sch tile zoom y x) as [url|]; simpl.
  - destruct (http_open (requests st) url) as [|code content]; simpl.
    + intros _. now rewrite !app_nil_r.
    + intros ->. simpl. now rewrite !app_nil_r.
  - intros _. now rewrite !app_nil_r.
Qed.

Lemma tuple4_eq (a b c d a' b' c' d' : Z) :
  a = a' -> b = b' -> c = c' -> d = d' -> (a, b, c, d) = (a', b', c', d').
Proof. now intros -> -> -> ->. Qed.

Lemma shift_trace {A} (f g : nat -> A) (a : A) (n : nat) :
  a = f 0%nat -> (forall j, g j = f (S j)) ->
  a :: map g (seq 0 n) = map f (seq 0 (S n)).
Proof.
  intros -> Hg. simpl. f_equal.
  rewrite <- seq_shift, map_map. apply map_ext. exact Hg.
Qed.

(** The zoom loop, started at level [l0], when the next [n] levels answer
    and the one after does not. *)
Lemma get_max_zoom_from_levels (sch : schema) :
  forall (n : nat) (l0 : Z) (fuel : nat) (st : state),
    (forall history (j : nat), (j < n)%nat ->
       ok sch history 0 (l0 + 1 + Z.of_nat j) 0 0 = true) ->
    (forall history, ok sch history 0 (l0 + 1 + Z.of_nat n) 0 0 = false) ->
    (n < fuel)%nat ->
    get_max_zoom_from http_open str_mod fuel sch l0 st
    = Returns (l0 + Z.of_nat n)
        (adv sch (map (fun j => (0, l0 + 1 + Z.of_nat j, 0, 0)) (seq 0 (S n)))
             [] st).
Proof.
  induction n as [|n IH]; intros l0 fuel st Hok Hstop Hfuel;
    (destruct fuel as [|fuel]; [lia |]); simpl get_max_zoom_from;
    unfold bind at 1; rewrite zoom_turn.
  - specialize (Hstop (requests st)). simpl in Hstop.
    rewrite Z.add_0_r in Hstop. rewrite Hstop. unfold ret.
    simpl. now rewrite !Z.add_0_r.
  - pose proof (Hok (requests st) 0%nat ltac:(lia)) as H0. simpl in H0.
    rewrite Z.add_0_r in H0. rewrite H0.
    rewrite (IH (l0 + 1) fuel).
    + rewrite advance_advance. cbn [app].
      rewrite (shift_trace (fun j => (0, l0 + 1 + Z.of_nat j, 0, 0))
                 (fun j => (0, l0 + 1 + 1 + Z.of_nat j, 0, 0))
                 (0, l0 + 1, 0, 0) (S n)).
      * f_equal. lia.
      * apply tuple4_eq; lia.
      * intros j. apply tuple4_eq; lia.
    + intros h j Hj. rewrite <- (Hok h (S j)) by lia. f_equal; lia.
    + intros h. rewrite <- (Hstop h). f_equal; lia.
    + lia.
Qed.

(** The column loop of row [y], started at column [x0], when the next [n]
    columns answer and the one after does not. *)
Lemma export_row_columns (sch : schema) (tile zoom y : Z) :
  forall (n : nat) (x0 : Z) (fuel : nat) (r_array : list File) (st : state),
    (forall history (j : nat), (j < n)%nat ->
       ok sch history tile zoom y (x0 + Z.of_nat j) = true) ->
    (forall history, ok sch history tile zoom y (x0 + Z.of_nat n) = false) ->
    (n < fuel)%nat ->
    exists fs,
      export_row http_open str_mod conversion fuel sch tile zoom y x0 r_array st
      = Returns (r_array ++ fs)
          (adv sch (map (fun j => (tile, zoom, y, x0 + Z.of_nat j))
                        (seq 0 (S n))) fs st)
      /\ map file_name fs
         = map (fun j => Some (tile_name tile zoom y (x0 + Z.of_nat j)))
               (seq 0 n).
Proof.
  induction n as [|n IH]; intros x0 fuel r_array st Hok Hstop Hfuel;
    (destruct fuel as [|fuel]; [lia |]); simpl export_row; unfold bind at 1.
  - specialize (Hstop (requests st)). simpl in Hstop.
    rewrite Z.add_0_r in Hstop. rewrite (tile_turn_fail _ _ _ _ _ _ Hstop).
    exists []. split; [| reflexivity].
    unfold ret. simpl. now rewrite app_nil_r, Z.add_0_r.
  - pose proof (Hok (requests st) 0%nat ltac:(lia)) as H0. simpl in H0.
    rewrite Z.add_0_r in H0.
    destruct (tile_turn_ok _ _ _ _ _ _ H0) as (f & -> & Hname).
    destruct (IH (x0 + 1) fuel (r_array ++ [f])%list
                 (adv sch [(tile, zoom, y, x0)] [f] st)) as (fs & -> & Hnames).
    + intros h j Hj. rewrite <- (Hok h (S j)) by lia. f_equal; lia.
    + intros h. rewrite <- (Hstop h). f_equal; lia.
    + lia.
    + exists (f :: fs). split.
      * rewrite advance_advance, <- app_assoc. cbn [app].
        rewrite (shift_trace (fun j => (tile, zoom, y, x0 + Z.of_nat j))
                   (fun j => (tile, zoom, y, x0 + 1 + Z.of_nat j))
                   (tile, zoom, y, x0) (S n)).
        -- reflexivity.
        -- apply tuple4_eq; lia.
        -- intros j. apply tuple4_eq; lia.
      * cbn [map]. rewrite Hname, Hnames.
        apply (shift_trace
                 (fun j => Some (tile_name tile zoom y (x0 + Z.of_nat j)))
                 (fun j => Some (tile_name tile zoom y (x0 + 1 + Z.of_nat j)))).
        -- do 2 f_equal. lia.
        -- intros j. do 2 f_equal. lia.
Qed.

(** The row loop of a face that exposes [R] rows of [C] columns, started at
    row [y0] with [n] rows to go. *)
Lemma export_rows_grid (sch : schema) (tile zoom : Z) (R C : nat) :
  exposes http_open str_mod sch tile zoom R C ->
  (0 < R -> 0 < C)%nat ->
  forall (row_fuel : nat), (C < row_fuel)%nat ->
  forall (n y0 fuel : nat) (t_array : face_grid) (st : state),
    (y0 + n = R)%nat ->
    (n < fuel)%nat ->
    exists grid,
      export_rows http_open str_mod conversion row_fuel fuel sch tile zoom
        (Z.of_nat y0) t_array st
      = Returns (t_array ++ grid)
          (adv sch (flat_map (row_trace tile zoom C) (seq y0 n)
                    ++ [(tile, zoom, Z.of_nat R, 0)])
               (concat grid) st)
      /\ map (map file_name) grid
         = map (fun y => map (fun x => Some (tile_name tile zoom (Z.of_nat y)
                                                      (Z.of_nat x)))
                             (seq 0 C))
               (seq y0 n).
Proof.
  intros Hexp Hpos row_fuel Hrow.
  induction n as [|n IH]; intros y0 fuel t_array st Hy Hfuel;
    (destruct fuel as [|fuel]; [lia |]); simpl export_rows; unfold bind at 1.
  - destruct (export_row_columns sch tile zoom (Z.of_nat y0) 0 0 row_fuel [] st)
      as (fs & -> & Hnames).
    + intros h j Hj. lia.
    + intros h. apply not_true_iff_false. intros H.
      apply (Hexp h y0 0%nat) in H; lia.
    + lia.
    + destruct fs; [| discriminate]. exists []. split; [| reflexivity].
      unfold ret. simpl. rewrite app_nil_r.
      replace y0 with R by lia. reflexivity.
  - destruct (export_row_columns sch tile zoom (Z.of_nat y0) C 0 row_fuel [] st)
      as (fs & -> & Hnames).
    + intros h j Hj. apply (Hexp h y0 j); lia.
    + intros h. apply not_true_iff_false. intros H.
      apply (Hexp h y0 C) in H; lia.
    + lia.
    + assert (Hlen : length fs = C).
      { rewrite <- (length_map file_name), Hnames, length_map. apply length_seq. }
      destruct fs as [|f fs]; [simpl in Hlen; lia |].
      cbn [app].
      replace (Z.of_nat y0 + 1) with (Z.of_nat (S y0)) by lia.
      destruct (IH (S y0) fuel (t_array ++ [f :: fs])%list
                   (adv sch (map (fun j => (tile, zoom, Z.of_nat y0, 0 + Z.of_nat j))
                                 (seq 0 (S C))) (f :: fs) st))
        as (grid & -> & Hgrid); [lia | lia |].
      exists ((f :: fs) :: grid). split.
      * rewrite advance_advance, <- app_assoc. cbn [app seq flat_map concat].
        rewrite app_assoc. reflexivity.
      * cbn [map seq]. rewrite Hgrid. f_equal. exact Hnames.
Qed.

(** ** What the loops do on any provider *)

Lemma tile_turn (sch : schema) (tile zoom y x : Z) (st : state) :
  exists got,
    try_except (f <- fetch_tile http_open str_mod conversion sch tile zoom y x ;;
                ret (Some f))
               (fun _ => ret None) st
    = Returns got (adv sch [(tile, zoom, y, x)]
                       (match got with Some f => [f] | None => [] end) st)
    /\ (got = None <-> ok sch (requests st) tile zoom y x = false).
Proof.
  destruct (ok sch (requests st) tile zoom y x) eqn:E.
  - destruct (tile_turn_ok _ _ _ _ _ _ E) as (f & -> & _).
    exists (Some f). split; [reflexivity |]. split; discriminate.
  - rewrite (tile_turn_fail _ _ _ _ _ _ E).
    exists None. split; [reflexivity |]. split; reflexivity.
Qed.

Lemma get_max_zoom_from_returned (sch : schema) :
  forall (fuel : nat) (l0 : Z) (st : state),
    match get_max_zoom_from http_open str_mod fuel sch l0 st with
    | Returns l st' =>
        exists n : nat,
          l = l0 + Z.of_nat n /\
          st' = adv sch (map (fun j => (0, l0 + 1 + Z.of_nat j, 0, 0))
                             (seq 0 (S n))) [] st
    | Raises _ _ => False
    | OutOfFuel => True
    end.
Proof.
  induction fuel as [|fuel IH]; intros l0 st; simpl get_max_zoom_from;
    [exact I |].
  unfold bind at 1. rewrite zoom_turn.
  destruct (ok sch (requests st) 0 (l0 + 1) 0 0).
  - specialize (IH (l0 + 1) (adv sch [(0, l0 + 1, 0, 0)] [] st)).
    destruct (get_max_zoom_from http_open str_mod fuel sch (l0 + 1) _)
      as [l st' | |]; auto.
    destruct IH as (n & -> & ->). exists (S n). split; [lia |].
    rewrite advance_advance. cbn [app].
    rewrite (shift_trace (fun j => (0, l0 + 1 + Z.of_nat j, 0, 0))
               (fun j => (0, l0 + 1 + 1 + Z.of_nat j, 0, 0))
               (0, l0 + 1, 0, 0) (S n)).
    + reflexivity.
    + apply tuple4_eq; lia.
    + intros j. apply tuple4_eq; lia.
  - exists 0%nat. unfold ret. split; [lia |].
    simpl. now rewrite Z.add_0_r.
Qed.

Lemma export_row_returned (sch : schema) (tile zoom y : Z) :
  forall (fuel : nat) (x : Z) (r_array : list File) (st : state),
    match export_row http_open str_mod conversion fuel sch tile zoom y x
            r_array st with
    | Returns r _ => exists fs, r = r_array ++ fs
    | Raises _ _ => False
    | OutOfFuel => True
    end.
Proof.
  induction fuel as [|fuel IH]; intros x r_array st; simpl export_row;
    [exact I |].
  unfold bind at 1.
  destruct (tile_turn sch tile zoom y x st) as ([f|] & -> & _).
  - specialize (IH (x + 1) (r_array ++ [f])
                   (adv sch [(tile, zoom, y, x)] [f] st)).
    destruct (export_row _ _ _ fuel sch tile zoom y (x + 1) _ _)
      as [r st' | |]; auto.
    destruct IH as (fs & ->). exists (f :: fs). now rewrite <- app_assoc.
  - exists []. now rewrite app_nil_r.
Qed.

Lemma export_rows_returned (sch : schema) (tile zoom : Z) (row_fuel : nat) :
  forall (fuel : nat) (y : Z) (t_array : face_grid) (st : state),
    rows_nonempty t_array ->
    match export_rows http_open str_mod conversion row_fuel fuel sch tile zoom
            y t_array st with
    | Returns g _ => rows_nonempty g
    | Raises _ _ => False
    | OutOfFuel => True
    end.
Proof.
  induction fuel as [|fuel IH]; intros y t_array st Hne; simpl export_rows;
    [exact I |].
  unfold bind at 1.
  pose proof (export_row_returned sch tile zoom y row_fuel 0 [] st) as Hrow.
  destruct (export_row _ _ _ row_fuel sch tile zoom y 0 [] st)
    as [r st' | |]; auto.
  destruct r as [|f r].
  - exact Hne.
  - apply IH. apply Forall_app. split; [exact Hne |].
    constructor; [discriminate | constructor].
Qed.

Lemma export_faces_returned (sch : schema) (zoom : Z) (fuel : nat) :
  forall (tiles : list Z) (output : list face_grid) (st : state),
    match export_faces http_open str_mod conversion fuel sch zoom tiles
            output st with
    | Returns out _ =>
        exists grids,
          out = output ++ grids /\
          Forall rows_nonempty grids /\
          Forall2 (fun tile g =>
                     exists s s',
                       export_face http_open str_mod conversion fuel sch tile
                         zoom s = Returns g s')
                  tiles grids
    | Raises _ _ => False
    | OutOfFuel => True
    end.
Proof.
  induction tiles as [|tile tiles IH]; intros output st; simpl export_faces.
  - exists []. rewrite app_nil_r. repeat split; constructor.
  - unfold bind at 1.
    pose proof (export_rows_returned sch tile zoom fuel fuel 0 [] st
                  (Forall_nil _)) as Hface.
    destruct (export_face _ _ _ fuel sch tile zoom st) as [g st' | |] eqn:E;
      unfold export_face in E; rewrite E in Hface; auto.
    specialize (IH (output ++ [g]) st').
    destruct (export_faces _ _ _ fuel sch zoom tiles (output ++ [g]) st')
      as [out st'' | |]; auto.
    destruct IH as (grids & -> & Hne & Hall).
    exists (g :: grids). rewrite <- app_assoc. repeat split.
    + now constructor.
    + constructor; [| exact Hall]. exists st, st'. exact E.
Qed.

Lemma export_returned (sch : schema) (fuel : nat) (st : state) :
  match export http_open str_mod conversion fuel sch st with
  | Returns out _ =>
      exists zoom st0,
        get_max_zoom http_open str_mod fuel sch st = Returns zoom st0 /\
        Forall rows_nonempty out /\
        Forall2 (fun tile g =>
                   exists s s',
                     export_face http_open str_mod conversion fuel sch tile
                       zoom s = Returns g s')
                range6 out
  | Raises _ _ => False
  | OutOfFuel => True
  end.
Proof.
  unfold export, bind.
  pose proof (get_max_zoom_from_returned sch fuel 0 st) as Hz.
  unfold get_max_zoom.
  destruct (get_max_zoom_from http_open str_mod fuel sch 0 st)
    as [zoom st0 | |]; auto.
  pose proof (export_faces_returned sch zoom fuel range6 [] st0) as Hf.
  destruct (export_faces _ _ _ fuel sch zoom range6 [] st0)
    as [out st' | |]; auto.
  destruct Hf as (grids & -> & Hne & Hall).
  exists zoom, st0. auto.
Qed.

Lemma export_face_first_probe_fails (sch : schema) (tile zoom : Z) :
  (forall history, ok sch history tile zoom 0 0 = false) ->
  forall (fuel : nat) (s : state),
    export_face http_open str_mod conversion (S fuel) sch tile zoom s
    = Returns [] (adv sch [(tile, zoom, 0, 0)] [] s).
Proof.
  intros Hfail fuel s. unfold export_face.
  assert (G : forall row_fuel, (0 < row_fuel)%nat ->
            export_rows http_open str_mod conversion row_fuel (S fuel) sch
              tile zoom 0 [] s
            = Returns [] (adv sch [(tile, zoom, 0, 0)] [] s)).
  { intros row_fuel Hrow. simpl export_rows. unfold bind at 1.
    destruct (export_row_columns sch tile zoom 0 0 0 row_fuel [] s)
      as (fs & -> & Hnames).
    - intros h j Hj. lia.
    - intros h. apply Hfail.
    - lia.
    - destruct fs; [| discriminate]. reflexivity. }
  apply G. lia.
Qed.

(** ** Termination on a bounded provider *)

Lemma get_max_zoom_from_terminates (sch : schema) (B : nat) :
  bounded_provider http_open str_mod sch B ->
  forall (n : nat) (l0 : Z) (fuel : nat) (st : state),
    Z.of_nat B <= l0 + 1 + Z.of_nat n ->
    (n < fuel)%nat ->
    exists l st',
      get_max_zoom_from http_open str_mod fuel sch l0 st = Returns l st'.
Proof.
  intros Hb.
  induction n as [|n IH]; intros l0 fuel st Hn Hfuel;
    (destruct fuel as [|fuel]; [lia |]); simpl get_max_zoom_from;
    unfold bind at 1; rewrite zoom_turn.
  - rewrite Hb by lia. unfold ret. eauto.
  - destruct (ok sch (requests st) 0 (l0 + 1) 0 0).
    + apply IH; lia.
    + unfold ret. eauto.
Qed.

Lemma export_row_terminates (sch : schema) (B : nat) (tile zoom y : Z) :
  bounded_provider http_open str_mod sch B ->
  forall (n : nat) (x : Z) (fuel : nat) (r_array : list File) (st : state),
    Z.of_nat B <= x + Z.of_nat n ->
    (n < fuel)%nat ->
    exists r st',
      export_row http_open str_mod conversion fuel sch tile zoom y x r_array st
      = Returns r st'.
Proof.
  intros Hb.
  induction n as [|n IH]; intros x fuel r_array st Hn Hfuel;
    (destruct fuel as [|fuel]; [lia |]); simpl export_row; unfold bind at 1;
    destruct (tile_turn sch tile zoom y x st) as ([f|] & -> & Hgot).
  - assert (E : ok sch (requests st) tile zoom y x = false)
      by (apply Hb; lia).
    apply Hgot in E. discriminate.
  - unfold ret. eauto.
  - apply IH; lia.
  - unfold ret. eauto.
Qed.

Lemma export_rows_terminates (sch : schema) (B : nat) (tile zoom : Z)
  (row_fuel : nat) :
  bounded_provider http_open str_mod sch B ->
  (B < row_fuel)%nat ->
  forall (n : nat) (y : Z) (fuel : nat) (t_array : face_grid) (st : state),
    Z.of_nat B <= y + Z.of_nat n ->
    (n < fuel)%nat ->
    exists g st',
      export_rows http_open str_mod conversion row_fuel fuel sch tile zoom y
        t_array st = Returns g st'.
Proof.
  intros Hb Hrow.
  induction n as [|n IH]; intros y fuel t_array st Hn Hfuel;
    (destruct fuel as [|fuel]; [lia |]); simpl export_rows; unfold bind at 1.
  - destruct (export_row_columns sch tile zoom y 0 0 row_fuel [] st)
      as (fs & -> & Hnames).
    + intros h j Hj. lia.
    + intros h. apply Hb. lia.
    + lia.
    + destruct fs; [| discriminate]. unfold ret. simpl. eauto.
  - destruct (export_row_terminates sch B tile zoom y Hb B 0 row_fuel [] st)
      as (r & st' & ->); [lia | lia |].
    destruct r as [|f r].
    + unfold ret. eauto.
    + apply IH; lia.
Qed.

Lemma export_faces_terminates (sch : schema) (B : nat) (zoom : Z) (fuel : nat) :
  bounded_provider http_open str_mod sch B ->
  (B < fuel)%nat ->
  forall (tiles : list Z) (output : list face_grid) (st : state),
    exists out st',
      export_faces http_open str_mod conversion fuel sch zoom tiles output st
      = Returns out st'.
Proof.
  intros Hb Hfuel.
  induction tiles as [|tile tiles IH]; intros output st; simpl export_faces.
  - unfold ret. eauto.
  - unfold bind at 1, export_face.
    destruct (export_rows_terminates sch B tile zoom fuel Hb Hfuel B 0 fuel [] st)
      as (g & st' & ->); [lia | lia |].
    apply IH.
Qed.

Lemma export_terminates (sch : schema) (B : nat) :
  bounded_provider http_open str_mod sch B ->
  forall (fuel : nat) (st : state),
    (B < fuel)%nat ->
    exists out st',
      export http_open str_mod conversion fuel sch st = Returns out st'.
Proof.
  intros Hb fuel st Hfuel. unfold export, bind, get_max_zoom.
  destruct (get_max_zoom_from_terminates sch B Hb B 0 fuel st)
    as (l & st0 & ->); [lia | lia |].
  now apply (export_faces_terminates sch B).
Qed.

(** ** The zoom probe *)

Lemma zoom_trace_levels (k : nat) :
  map (fun j => (0, 0 + 1 + Z.of_nat j, 0, 0)) (seq 0 (S k)) = zoom_trace k.
Proof.
  unfold zoom_trace. apply map_ext. intros j. apply tuple4_eq; lia.
Qed.

(** C2: when the probes of levels [1 .. k] succeed and the probe of level
    [k + 1] fails, [get_max_zoom] returns [k], the largest level reachable
    by successes only, and the probes it made are those of levels
    [1, 2, ..., k + 1] in this order, each for tile [(0, level, 0, 0)]: no
    level is skipped and none is probed twice or after a higher one. *)
Theorem get_max_zoom_largest_level (sch : schema) (k : nat) :
  zoom_stops_at http_open str_mod sch k ->
  (forall (fuel : nat) (st : state),
     (k < fuel)%nat ->
     get_max_zoom http_open str_mod fuel sch st
     = Returns (Z.of_nat k) (adv sch (zoom_trace k) [] st)) /\
  zoom_trace k = map (fun l => (0, Z.of_nat l, 0, 0)) (seq 1 (S k)) /\
  (forall k' : nat,
     (forall history (l : nat), (1 <= l <= k')%nat ->
        ok sch history 0 (Z.of_nat l) 0 0 = true) ->
     (k' <= k)%nat).
Proof.
  intros [Hok Hstop]. split; [| split].
  - intros fuel st Hfuel. unfold get_max_zoom.
    rewrite (get_max_zoom_from_levels sch k 0 fuel st).
    + now rewrite zoom_trace_levels.
    + intros h j Hj. rewrite <- (Hok h (S j)) by lia. f_equal. lia.
    + intros h. rewrite <- (Hstop h). f_equal. lia.
    + exact Hfuel.
  - unfold zoom_trace. rewrite <- seq_shift, map_map. reflexivity.
  - intros k' Hk'. destruct (le_lt_dec k' k) as [|Hlt]; [assumption |].
    specialize (Hk' [] (S k) ltac:(lia)). rewrite (Hstop []) in Hk'.
    discriminate.
Qed.

(** C10: [get_max_zoom] never raises; the probes it makes before it returns
    [l] are those of levels [1 .. l + 1] of tile [(0, level, 0, 0)], so the
    first is level 1, none is level 0 and [l] is not negative; and when the
    level-1 probe fails it returns 0 after that one probe, whatever the
    schema and whatever would have become of a probe of tile
    [(0, 0, 0, 0)]. *)
Theorem get_max_zoom_skips_level_zero (sch : schema) :
  (forall fuel st e st',
     get_max_zoom http_open str_mod fuel sch st <> Raises e st') /\
  (forall fuel st l st',
     get_max_zoom http_open str_mod fuel sch st = Returns l st' ->
     exists k : nat,
       l = Z.of_nat k /\
       st' = adv sch (zoom_trace k) [] st /\
       hd_error (zoom_trace k) = Some (0, 1, 0, 0) /\
       forall a b c d, In (a, b, c, d) (zoom_trace k) ->
                       a = 0 /\ 1 <= b <= l + 1 /\ c = 0 /\ d = 0) /\
  (forall fuel st,
     ok sch (requests st) 0 1 0 0 = false ->
     get_max_zoom http_open str_mod (S fuel) sch st
     = Returns 0 (adv sch [(0, 1, 0, 0)] [] st)).
Proof.
  split; [| split].
  - intros fuel st e st' E. unfold get_max_zoom in E.
    pose proof (get_max_zoom_from_returned sch fuel 0 st) as H.
    now rewrite E in H.
  - intros fuel st l st' E. unfold get_max_zoom in E.
    pose proof (get_max_zoom_from_returned sch fuel 0 st) as H.
    rewrite E in H. destruct H as (k & -> & ->).
    exists k. rewrite zoom_trace_levels. repeat split; try lia.
    + unfold zoom_trace in H. apply in_map_iff in H as (j & Hj & _).
      congruence.
    + unfold zoom_trace in H. apply in_map_iff in H as (j & Hj & _).
      injection Hj as _ <- _ _. lia.
    + unfold zoom_trace in H. apply in_map_iff in H as (j & Hj & Hin).
      apply in_seq in Hin. injection Hj as _ <- _ _. lia.
    + unfold zoom_trace in H. apply in_map_iff in H as (j & Hj & _).
      congruence.
    + unfold zoom_trace in H. apply in_map_iff in H as (j & Hj & _).
      congruence.
  - intros fuel st Hfail. unfold get_max_zoom. simpl get_max_zoom_from.
    unfold bind at 1. rewrite zoom_turn. simpl. rewrite Hfail. reflexivity.
Qed.

(** ** The grid download *)




Lemma Forall2_nth_error_l {A B} (P : A -> B -> Prop) (l1 : list A)
  (l2 : list B) :
  Forall2 P l1 l2 ->
  forall i a, nth_error l1 i = Some a ->
              exists b, nth_error l2 i = Some b /\ P a b.
Proof.
  induction 1 as [|x y l1 l2 Hxy _ IH]; intros i a Hi.
  - destruct i; discriminate.
  - destruct i as [|i]; simpl in *.
    + injection Hi as <-. eauto.
    + eauto.
Qed.



(** All six faces at once: when the zoom search stops at [k] and every face
    [tile] exposes [R tile] rows of [C tile] columns at zoom [k], [export]
    returns the six grids, after the probes of the zoom search and then
    those of the faces in the order 0 to 5. *)
Lemma export_faces_rectangular (sch : schema) (zoom : Z) (fuel : nat)
  (R C : Z -> nat) :
  forall (tiles : list Z) (output : list face_grid) (st : state),
    (forall tile, In tile tiles ->
       exposes http_open str_mod sch tile zoom (R tile) (C tile) /\
       (0 < R tile -> 0 < C tile)%nat /\
       (R tile < fuel)%nat /\ (C tile < fuel)%nat) ->
    exists grids st',
      export_faces http_open str_mod conversion fuel sch zoom tiles output st
      = Returns (output ++ grids) st'
      /\ Forall2 (fun tile g =>
                    map (map file_name) g
                    = grid_names tile zoom (R tile) (C tile))
                 tiles grids
      /\ probes st'
         = probes st
           ++ flat_map (fun tile => face_trace tile zoom (R tile) (C tile))
                       tiles.
Proof.
  induction tiles as [|tile tiles IH]; intros output st Hall;
    simpl export_faces.
  - exists [], st. unfold ret. rewrite !app_nil_r.
    repeat split. constructor.
  - destruct (Hall tile (or_introl eq_refl)) as (Hexp & Hpos & HR & HC).
    unfold bind at 1. unfold export_face.
    destruct (export_rows_grid sch tile zoom (R tile) (C tile) Hexp Hpos fuel
                HC (R tile) 0%nat fuel [] st) as (g & E & Hnames);
      [lia | lia |].
    change (Z.of_nat 0) with 0 in E.
    fold (face_trace tile zoom (R tile) (C tile)) in E.
    destruct (IH (output ++ [g])
                 (adv sch (face_trace tile zoom (R tile) (C tile))
                      (concat g) st))
      as (grids & st' & E' & Hgrids & Hprobes).
    { intros t Ht. apply Hall. now right. }
    exists (g :: grids), st'. split; [| split].
    + rewrite E. cbn [app]. etransitivity; [exact E' |].
      now rewrite <- app_assoc.
    + constructor; assumption.
    + rewrite Hprobes. cbn [flat_map]. unfold advance. cbn [probes].
      now rewrite app_assoc.
Qed.

Lemma export_rectangular_cube (sch : schema) (k : nat) (R C : Z -> nat)
  (fuel : nat) (st : state) :
  zoom_stops_at http_open str_mod sch k ->
  (k < fuel)%nat ->
  (forall tile, In tile range6 ->
     exposes http_open str_mod sch tile (Z.of_nat k) (R tile) (C tile) /\
     (0 < R tile -> 0 < C tile)%nat /\
     (R tile < fuel)%nat /\ (C tile < fuel)%nat) ->
  exists grids st',
    export http_open str_mod conversion fuel sch st = Returns grids st'
    /\ Forall2 (fun tile g =>
                  map (map file_name) g
                  = grid_names tile (Z.of_nat k) (R tile) (C tile))
               range6 grids
    /\ probes st'
       = probes st ++ zoom_trace k
         ++ flat_map (fun tile =>
                        face_trace tile (Z.of_nat k) (R tile) (C tile))
                     range6.
Proof.
  intros [Hok Hstop] Hfuel Hall. unfold export, bind, get_max_zoom.
  rewrite (get_max_zoom_from_levels sch k 0 fuel st).
  - simpl (0 + Z.of_nat k).
    destruct (export_faces_rectangular sch (Z.of_nat k) fuel R C range6 []
                (adv sch (map (fun j => (0, 0 + 1 + Z.of_nat j, 0, 0))
                              (seq 0 (S k))) [] st) Hall)
      as (grids & st' & E & Hgrids & Hprobes).
    exists grids, st'. rewrite E. repeat split; [assumption |].
    rewrite Hprobes. unfold advance. cbn [probes].
    now rewrite zoom_trace_levels, app_assoc.
  - intros h j Hj. rewrite <- (Hok h (S j)) by lia. f_equal. lia.
  - intros h. rewrite <- (Hstop h). f_equal. lia.
  - exact Hfuel.
Qed.

(** A provider that serves nothing gives six empty grids. *)
Lemma export_nothing_served (sch : schema) :
  bounded_provider http_open str_mod sch 0 ->
  forall fuel st,
    exists st',
      export http_open str_mod conversion (S fuel) sch st
      = Returns [[]; []; []; []; []; []] st'.
Proof.
  intros Hb fuel st.
  destruct (export_terminates sch 0 Hb (S fuel) st) as (out & st' & E);
    [lia |].
  exists st'. rewrite E. f_equal.
  pose proof (export_returned sch (S fuel) st) as H. rewrite E in H.
  destruct H as (zoom & st0 & Hz & _ & Hall).
  assert (G : forall tile g,
             (exists s s',
                export_face http_open str_mod conversion (S fuel) sch tile
                  zoom s = Returns g s') -> g = []).
  { intros tile g (s & s' & Es).
    rewrite (export_face_first_probe_fails sch tile zoom) in Es.
    - now injection Es as <- _.
    - intros h. apply Hb. lia. }
  unfold range6 in Hall.
  repeat match goal with
         | H : Forall2 _ (_ :: _) _ |- _ =>
             inversion H as [|? ? ? ? ?Hg ?Hrest]; subst; clear H;
             apply G in Hg; subst
         | H : Forall2 _ [] _ |- _ => inversion H; subst; clear H
         end.
  reflexivity.
Qed.

(** C9: [export] never raises, whatever the schema and the provider; what it
    returns is a list of exactly six face grids whose rows are all
    non-empty, and in it a face whose first probe fails has the empty grid.
    It does return as soon as the provider serves nothing beyond some zoom
    level, row and column [B]; a schema that is no template, or a provider
    whose every fetch fails, is the case [B = 0] and gives six empty
    grids. *)
Theorem export_six_face_grids (sch : schema) :
  (forall fuel st e st',
     export http_open str_mod conversion fuel sch st <> Raises e st') /\
  (forall fuel st out st',
     export http_open str_mod conversion fuel sch st = Returns out st' ->
     length out = 6%nat /\
     Forall rows_nonempty out /\
     forall zoom st0 (i : nat) tile,
       get_max_zoom http_open str_mod fuel sch st = Returns zoom st0 ->
       nth_error range6 i = Some tile ->
       (forall history, ok sch history tile zoom 0 0 = false) ->
       nth_error out i = Some []) /\
  (forall B : nat,
     bounded_provider http_open str_mod sch B ->
     forall fuel st, (B < fuel)%nat ->
       exists out st',
         export http_open str_mod conversion fuel sch st = Returns out st') /\
  (bounded_provider http_open str_mod sch 0 ->
   forall fuel st,
     exists st',
       export http_open str_mod conversion (S fuel) sch st
       = Returns [[]; []; []; []; []; []] st').
Proof.
  split; [| split; [| split]].
  - intros fuel st e st' E.
    pose proof (export_returned sch fuel st) as H. now rewrite E in H.
  - intros fuel st out st' E.
    pose proof (export_returned sch fuel st) as H. rewrite E in H.
    destruct H as (zoom & st0 & Hz & Hne & Hall).
    split; [| split; [exact Hne |]].
    + apply Forall2_length in Hall. now rewrite <- Hall.
    + intros zoom' st0' i tile Hz' Hi Hfail.
      rewrite Hz in Hz'. injection Hz' as <- <-.
      destruct (Forall2_nth_error_l _ _ _ Hall i tile Hi)
        as (g & Hg & s & s' & Es).
      destruct fuel as [|fuel]; [discriminate |].
      rewrite (export_face_first_probe_fails sch tile zoom Hfail) in Es.
      injection Es as <- _. exact Hg.
  - intros B Hb fuel st Hfuel. now apply (export_terminates sch B).
  - apply export_nothing_served.
Qed.

(** ** Failed probes *)

(** C6, as the code has it: a probe whose request raises and a probe whose
    request is answered with another status than 200 are not told apart.
    Either ends the loop it is in at once, after that one request: the zoom
    search returns the current level and the row loop returns the row
    collected so far.  No request is made a second time. *)
Theorem failed_probe_ends_loop (sch : schema) (st : state) (url : string) :
  (http_open (requests st) url = OpenRaises \/
   exists code content,
     http_open (requests st) url = Response code content /\ code <> 200) ->
  (forall (fuel : nat) (l : Z),
     schema_mod str_mod sch 0 (l + 1) 0 0 = Some url ->
     get_max_zoom_from http_open str_mod (S fuel) sch l st
     = Returns l (add_request url (add_probe (0, l + 1, 0, 0) st))) /\
  (forall (fuel : nat) (tile zoom y x : Z) (r_array : list File),
     schema_mod str_mod sch tile zoom y x = Some url ->
     export_row http_open str_mod conversion (S fuel) sch tile zoom y x
       r_array st
     = Returns r_array (add_request url (add_probe (tile, zoom, y, x) st))).
Proof.
  intros Hkind.
  assert (Hfail : fetch_ok http_open (requests st) url = false).
  { unfold fetch_ok. destruct Hkind as [-> | (code & content & -> & Hcode)];
      [reflexivity | now apply Z.eqb_neq]. }
  split.
  - intros fuel l Hurl. simpl get_max_zoom_from. unfold bind at 1.
    rewrite zoom_turn. unfold probe_ok. rewrite Hurl, Hfail.
    unfold ret, advance, trace_urls, add_request, add_probe. simpl.
    rewrite Hurl. simpl. now rewrite app_nil_r.
  - intros fuel tile zoom y x r_array Hurl. simpl export_row.
    unfold bind at 1. rewrite tile_turn_fail.
    + unfold ret, advance, trace_urls, add_request, add_probe. simpl.
      rewrite Hurl. simpl. now rewrite app_nil_r.
    + unfold probe_ok. now rewrite Hurl.
Qed.

End Probing.
End ProbingSpec.

(* ===================================================================== *)
(** * The six-face downloader *)
(* ===================================================================== *)

Module SixFaceSpec.

Import KRPano PyStrFacts.

Local Open Scope list_scope.

Lemma get_out_of_range (s : string) (k : nat) :
  (String.length s <= k)%nat -> String.get k s = None.
Proof.
  revert k. induction s as [|c s IH]; intros k Hk; [reflexivity |].
  destruct k as [|k]; simpl in *; [lia |]. apply IH. lia.
Qed.

Lemma substring_length (s : string) :
  forall n m, (n + m <= String.length s)%nat ->
              String.length (substring n m s) = m.
Proof.
  induction s as [|c s IH]; intros n m H; simpl in *.
  - destruct n, m; simpl; lia.
  - destruct n as [|n].
    + destruct m as [|m]; simpl; [reflexivity |].
      rewrite IH; [reflexivity | lia].
    + apply IH. lia.
Qed.

(** The sibling URL has the length of the seed, the letter at the fifth
    position from the end and the characters of the seed everywhere else. *)
Lemma sibling_url_characters (url : string) (i : ascii) :
  (5 <= String.length url)%nat ->
  String.length (sibling_url url i) = String.length url /\
  String.get (String.length url - 5) (sibling_url url i) = Some i /\
  (forall k, k <> (String.length url - 5)%nat ->
             String.get k (sibling_url url i) = String.get k url).
Proof.
  intros Hlen. unfold sibling_url, PyStr.slice_until_last, PyStr.slice_last.
  set (n := String.length url) in *.
  assert (L1 : String.length (substring 0 (n - 5) url) = (n - 5)%nat)
    by (apply substring_length; lia).
  assert (L2 : String.length (substring (n - 4) 4 url) = 4%nat)
    by (apply substring_length; lia).
  split; [| split].
  - rewrite PyStrFacts.length_append. simpl. rewrite L1, L2. lia.
  - pose proof (append_correct2 (substring 0 (n - 5) url)
                  (String i (substring (n - 4) 4 url)) 0) as H.
    rewrite L1 in H. simpl in H. now rewrite <- H.
  - intros k Hk. destruct (lt_dec k (n - 5)) as [Hlt | Hge].
    + rewrite <- append_correct1 by lia.
      rewrite substring_correct1 by lia. f_equal. lia.
    + pose proof (append_correct2 (substring 0 (n - 5) url)
                    (String i (substring (n - 4) 4 url))
                    (S (k - (n - 4)))) as H.
      rewrite L1 in H.
      replace (S (k - (n - 4)) + (n - 5))%nat with k in H by lia.
      rewrite <- H. simpl.
      destruct (lt_dec (k - (n - 4)) 4) as [Hin | Hout].
      * rewrite substring_correct1 by lia. f_equal. lia.
      * rewrite substring_correct2 by lia.
        symmetry. apply get_out_of_range. lia.
Qed.

Section SixFaces.

Variable http_open : list string -> string -> http_outcome.
Variable conversion : Conversion.

Lemma export_simple_from_run (url : string) :
  forall (tiles : string) (output : list File) (st : state),
    match export_simple_from http_open conversion url tiles output st with
    | Returns out st' =>
        exists fs,
          out = output ++ fs /\
          Forall2 (tile_of_letter http_open conversion url) (list_ascii_of_string tiles) fs /\
          requests st'
          = requests st ++ map (sibling_url url) (list_ascii_of_string tiles) /\
          files st' = files st ++ fs /\
          probes st' = probes st /\ calls st' = calls st
    | Raises _ st' =>
        exists (n : nat) fs,
          (n < String.length tiles)%nat /\
          length fs = n /\
          requests st'
          = requests st
            ++ map (sibling_url url)
                   (firstn (S n) (list_ascii_of_string tiles)) /\
          files st' = files st ++ fs /\
          calls st' = calls st
    | OutOfFuel => False
    end.
Proof.
  induction tiles as [|i tiles IH]; intros output st;
    simpl export_simple_from.
  - exists []. unfold ret. simpl. rewrite !app_nil_r.
    repeat split. constructor.
  - unfold bind at 1. unfold http_request.
    destruct (http_open (requests st) (sibling_url url i))
      as [|code content] eqn:E.
    + exists 0%nat, []. simpl. rewrite app_nil_r. repeat split. lia.
    + unfold bind at 1. simpl fst. unfold py_assert.
      destruct (code =? 200) eqn:Ecode.
      * apply Z.eqb_eq in Ecode. subst code.
        unfold ret at 1. unfold bind at 1. unfold create_file. simpl snd.
        set (f := {| file_conversion := conversion; file_name := None;
                     file_content := content;
                     file_mime_type := "image/jpeg" |}).
        specialize (IH (output ++ [f])
                       (add_file f (add_request (sibling_url url i) st))).
        destruct (export_simple_from http_open conversion url tiles
                    (output ++ [f]) _) as [out st' | e st' |].
        -- destruct IH as (fs & -> & Hall & Hreq & Hfiles & Hp & Hc).
           exists (f :: fs). simpl in *.
           rewrite <- !app_assoc in *. simpl in *.
           repeat split; auto.
           constructor; [| exact Hall].
           repeat split. exists (requests st). exact E.
        -- destruct IH as (n & fs & Hn & Hlen & Hreq & Hfiles & Hc).
           exists (S n), (f :: fs). simpl in *.
           rewrite <- !app_assoc in *. simpl in *.
           repeat split; auto. lia.
        -- exact IH.
      * unfold raise. exists 0%nat, []. simpl. rewrite app_nil_r.
        repeat split. lia.
Qed.

(** C7: for a seed URL of at least five characters, the sibling of every
    letter is the seed with the letter written at the fifth position from
    the end (the one before a four-character extension) and nothing else
    changed; [export_simple] requests the siblings of the letters of
    [tiles] in their order and records one file for each, in the same
    order, until a fetch fails, and returns these files when none does. *)
Theorem export_simple_siblings (url tiles : string) :
  (5 <= String.length url)%nat ->
  (forall i : ascii,
     String.length (sibling_url url i) = String.length url /\
     String.get (String.length url - 5) (sibling_url url i) = Some i /\
     forall k, k <> (String.length url - 5)%nat ->
               String.get k (sibling_url url i) = String.get k url) /\
  (forall st out st',
     export_simple http_open conversion url tiles st = Returns out st' ->
     Forall2 (tile_of_letter http_open conversion url) (list_ascii_of_string tiles) out /\
     length out = String.length tiles /\
     requests st'
     = requests st ++ map (sibling_url url) (list_ascii_of_string tiles) /\
     files st' = files st ++ out) /\
  (forall st e st',
     export_simple http_open conversion url tiles st = Raises e st' ->
     exists (n : nat) fs,
       (n < String.length tiles)%nat /\ length fs = n /\
       requests st'
       = requests st
         ++ map (sibling_url url) (firstn (S n) (list_ascii_of_string tiles)) /\
       files st' = files st ++ fs) /\
  (forall st,
     (forall history i, In i (list_ascii_of_string tiles) ->
        fetch_ok http_open history (sibling_url url i) = true) ->
     exists out st',
       export_simple http_open conversion url tiles st = Returns out st').
Proof.
  intros Hlen. split; [| split; [| split]].
  - intros i. now apply sibling_url_characters.
  - intros st out st' E. unfold export_simple in E.
    pose proof (export_simple_from_run url tiles [] st) as H.
    rewrite E in H. destruct H as (fs & -> & Hall & Hreq & Hfiles & _).
    simpl. repeat split; auto.
    apply Forall2_length in Hall. rewrite <- Hall.
    clear. induction tiles; simpl; auto.
  - intros st e st' E. unfold export_simple in E.
    pose proof (export_simple_from_run url tiles [] st) as H.
    rewrite E in H. destruct H as (n & fs & Hn & Hfs & Hreq & Hfiles & _).
    eauto 6.
  - unfold export_simple. generalize (@nil File) as output.
    induction tiles as [|i tiles IH]; intros output st Hok;
      simpl export_simple_from.
    + unfold ret. eauto.
    + unfold bind at 1. unfold http_request.
      pose proof (Hok (requests st) i (or_introl eq_refl)) as Hi.
      unfold fetch_ok in Hi.
      destruct (http_open (requests st) (sibling_url url i))
        as [|code content]; [discriminate |].
      unfold bind at 1. simpl fst. unfold py_assert. rewrite Hi.
      unfold ret at 1. unfold bind at 1. unfold create_file.
      apply IH. intros h j Hj. apply Hok. now right.
Qed.

End SixFaces.
End SixFaceSpec.

(* ===================================================================== *)
(** * The coordinator *)
(* ===================================================================== *)

Module CoordinatorSpec.

Import KRPano PyStrFacts ProbingSpec SixFaceSpec.

Local Open Scope list_scope.

Section Coordinator.

Variable http_open : list string -> string -> http_outcome.
Variable str_mod : string -> Z -> Z -> Z -> Z -> option string.
Variable multistitch : list face_grid -> option File.
Variable cubemap_to_equirectangular : tileset -> pyvalue -> option File.
Variable conversion : Conversion.

(** [url_normalize] makes one request, catches whatever is raised and
    returns. *)
Lemma url_normalize_returns (url : string) (st : state) :
  exists sch,
    url_normalize http_open url st = Returns sch (add_request url st).
Proof.
  unfold url_normalize, try_except, bind, http_request.
  destruct (http_open (requests st) url) as [|code content]; simpl.
  - unfold ret. eauto.
  - unfold py_assert, or_index_error, ret, raise.
    repeat match goal with
           | |- context [if ?b then _ else _] => destruct b
           | |- context [match ?o with Some _ => _ | None => _ end] =>
               destruct o
           end; eauto.
Qed.

(** A seed that is not answered with status 200 is normalised to
    [False]. *)
Lemma url_normalize_unreachable (url : string) (st : state) :
  fetch_ok http_open (requests st) url = false ->
  url_normalize http_open url st = Returns SchemaFalse (add_request url st).
Proof.
  unfold fetch_ok, url_normalize, try_except, bind, http_request.
  destruct (http_open (requests st) url) as [|code content]; simpl.
  - reflexivity.
  - intros ->. reflexivity.
Qed.

Lemma export_row_keeps_calls (sch : schema) (tile zoom y : Z) :
  forall (fuel : nat) (x : Z) (r_array : list File) (st : state),
    keeps_calls st
      (export_row http_open str_mod conversion fuel sch tile zoom y x r_array st).
Proof.
  induction fuel as [|fuel IH]; intros x r_array st; simpl export_row;
    [exact I |].
  unfold bind at 1.
  destruct (tile_turn http_open str_mod conversion sch tile zoom y x st)
    as ([f|] & -> & _).
  - specialize (IH (x + 1) (r_array ++ [f])
                   (advance str_mod sch [(tile, zoom, y, x)] [f] st)).
    destruct (export_row _ _ _ fuel sch tile zoom y (x + 1) _ _); simpl in *;
      auto.
  - reflexivity.
Qed.

Lemma export_rows_keeps_calls (sch : schema) (tile zoom : Z) (row_fuel : nat) :
  forall (fuel : nat) (y : Z) (t_array : face_grid) (st : state),
    keeps_calls st
      (export_rows http_open str_mod conversion row_fuel fuel sch tile zoom y
         t_array st).
Proof.
  induction fuel as [|fuel IH]; intros y t_array st; simpl export_rows;
    [exact I |].
  unfold bind at 1.
  pose proof (export_row_keeps_calls sch tile zoom y row_fuel 0 [] st) as Hrow.
  destruct (export_row _ _ _ row_fuel sch tile zoom y 0 [] st)
    as [r st' | e st' |]; simpl in *; auto.
  destruct r as [|f r]; [exact Hrow |].
  specialize (IH (y + 1) (t_array ++ [f :: r]) st').
  destruct (export_rows _ _ _ row_fuel fuel sch tile zoom (y + 1) _ st');
    simpl in *; try congruence; exact I.
Qed.

Lemma export_faces_keeps_calls (sch : schema) (zoom : Z) (fuel : nat) :
  forall (tiles : list Z) (output : list face_grid) (st : state),
    keeps_calls st
      (export_faces http_open str_mod conversion fuel sch zoom tiles output st).
Proof.
  induction tiles as [|tile tiles IH]; intros output st; simpl export_faces;
    [reflexivity |].
  unfold bind at 1, export_face.
  pose proof (export_rows_keeps_calls sch tile zoom fuel fuel 0 [] st) as Hf.
  destruct (export_rows _ _ _ fuel fuel sch tile zoom 0 [] st)
    as [g st' | e st' |]; simpl in *; auto.
  specialize (IH (output ++ [g]) st').
  destruct (export_faces _ _ _ fuel sch zoom tiles (output ++ [g]) st');
    simpl in *; try congruence; exact I.
Qed.

Lemma export_keeps_calls (sch : schema) (fuel : nat) (st : state) :
  keeps_calls st (export http_open str_mod conversion fuel sch st).
Proof.
  unfold export, bind, get_max_zoom.
  pose proof (get_max_zoom_from_returned http_open str_mod sch fuel 0 st) as Hz.
  destruct (get_max_zoom_from http_open str_mod fuel sch 0 st)
    as [zoom st0 | e st0 |]; [| contradiction | exact I].
  destruct Hz as (n & _ & E0).
  assert (Hc0 : calls st0 = calls st) by (subst st0; reflexivity).
  clear E0.
  pose proof (export_faces_keeps_calls sch zoom fuel range6 [] st0) as Hf.
  unfold keeps_calls in *.
  destruct (export_faces http_open str_mod conversion fuel sch zoom range6 []
              st0); try congruence; exact I.
Qed.

Lemma cubemap_calls_app (cs ds : list stitcher_call) :
  cubemap_calls (cs ++ ds) = cubemap_calls cs ++ cubemap_calls ds.
Proof. unfold cubemap_calls. apply filter_app. Qed.

(** [make_tiles] never calls the cubemap stitcher. *)
Lemma make_tiles_cubemap_calls (fuel : nat) (url : string) (st : state) :
  match make_tiles http_open str_mod multistitch conversion fuel url st with
  | Returns _ st' => cubemap_calls (calls st') = cubemap_calls (calls st)
  | Raises _ st' => cubemap_calls (calls st') = cubemap_calls (calls st)
  | OutOfFuel => True
  end.
Proof.
  unfold make_tiles.
  destruct (first_match REGEX_FULL url) as [[cert kw]|].
  - unfold apply_export_full. destruct kw; [| reflexivity].
    unfold bind at 1, export_full. unfold bind at 1.
    destruct (url_normalize_returns url st) as (sch & ->).
    unfold bind at 1.
    pose proof (export_keeps_calls sch fuel (add_request url st)) as He.
    destruct (export http_open str_mod conversion fuel sch _)
      as [images st1 | e st1 |]; simpl in He; [| now rewrite He | exact I].
    unfold call_multistitch, bind, log_call.
    destruct (multistitch images); unfold ret, raise; simpl;
      rewrite He, cubemap_calls_app; simpl; now rewrite app_nil_r.
  - destruct (first_match REGEX_SIMPLE url) as [[cert kw]|];
      [| reflexivity].
    assert (G : forall tiles,
               match (fs <- export_simple http_open conversion url tiles ;;
                      ret (FaceFiles fs)) st with
               | Returns _ st' => cubemap_calls (calls st')
                                  = cubemap_calls (calls st)
               | Raises _ st' => cubemap_calls (calls st')
                                 = cubemap_calls (calls st)
               | OutOfFuel => True
               end).
    { intros tiles. unfold bind, export_simple.
      pose proof (export_simple_from_run http_open conversion url tiles [] st)
        as H.
      destruct (export_simple_from http_open conversion url tiles [] st)
        as [out st' | e st' |].
      - destruct H as (fs & _ & _ & _ & _ & _ & Hc). unfold ret.
        now rewrite Hc.
      - destruct H as (n & fs & _ & _ & _ & _ & Hc). now rewrite Hc.
      - exact I. }
    unfold apply_export_simple.
    destruct kw as [|[key tiles] [|]]; try reflexivity; [apply G |].
    destruct (String.eqb key "tiles"); [apply G | reflexivity].
Qed.

Lemma rotation_of_lookup :
  rotation_of conversion
  = match conv_properties conversion with
    | None => zero_rotation
    | Some d => match dict_lookup "rotation" d with
                | Some v => v
                | None => zero_rotation
                end
    end.
Proof.
  unfold rotation_of. destruct (conv_properties conversion) as [d|];
    [| reflexivity].
  assert (G : forall d, dict_get "rotation" d zero_rotation
                        = match dict_lookup "rotation" d with
                          | Some v => v
                          | None => zero_rotation
                          end).
  { induction d0 as [|[k v] d0 IH]; simpl; [reflexivity |].
    destruct (String.eqb k "rotation"); auto. }
  destruct d; [reflexivity | apply G].
Qed.

(** C8: when [make_tiles] returns a tile set, [to_equirectangular] makes
    exactly one call of [cubemap_to_equirectangular], after it, with that
    tile set and with the rotation stored under ["rotation"] in the
    conversion's properties, as it is stored; the rotation is [(0, 0, 0)]
    when the properties are [None] or have no such entry.  The result, or
    the failure, of the stitcher is the result of [to_equirectangular]. *)
Theorem to_equirectangular_one_stitch (fuel : nat) (st st1 : state)
  (tiles : tileset) :
  make_tiles http_open str_mod multistitch conversion fuel
    (conv_url conversion) st = Returns tiles st1 ->
  let rotation :=
    match conv_properties conversion with
    | None => zero_rotation
    | Some d => match dict_lookup "rotation" d with
                | Some v => v
                | None => zero_rotation
                end
    end in
  let call := CallCubemapToEquirectangular tiles rotation in
  to_equirectangular http_open str_mod multistitch cubemap_to_equirectangular
    conversion fuel st
  = match cubemap_to_equirectangular tiles rotation with
    | Some result => Returns result (add_call call st1)
    | None => Raises StitchError (add_call call st1)
    end /\
  cubemap_calls (calls (add_call call st1))
  = cubemap_calls (calls st) ++ [call].
Proof.
  intros Htiles rotation call. split.
  - unfold to_equirectangular, bind. rewrite Htiles.
    unfold call_cubemap_to_equirectangular, bind, log_call.
    rewrite rotation_of_lookup. fold rotation. fold call.
    destruct (cubemap_to_equirectangular tiles rotation); reflexivity.
  - pose proof (make_tiles_cubemap_calls fuel (conv_url conversion) st) as H.
    rewrite Htiles in H. unfold add_call; simpl.
    now rewrite cubemap_calls_app, H.
Qed.

(** When the seed is not answered with status 200, [export_full] goes on
    with the schema [False]: no probe reaches the network, and the
    multistitcher is called with six empty grids. *)
Lemma export_full_unreachable_seed (fuel : nat) (url : string) (st : state) :
  fetch_ok http_open (requests st) url = false ->
  exists st',
    export_full http_open str_mod multistitch conversion (S fuel) url st
    = match multistitch [[]; []; []; []; []; []] with
      | Some f => Returns f st'
      | None => Raises StitchError st'
      end /\
    requests st' = requests st ++ [url] /\
    calls st' = calls st ++ [CallMultistitch [[]; []; []; []; []; []]].
Proof.
  intros Hfail. unfold export_full. unfold bind at 1.
  rewrite (url_normalize_unreachable url st Hfail). unfold bind at 1.
  assert (Hb : bounded_provider http_open str_mod SchemaFalse 0)
    by (intros h a b c d _; reflexivity).
  destruct (export_nothing_served http_open str_mod conversion SchemaFalse
              Hb fuel (add_request url st)) as (st1 & E).
  rewrite E.
  assert (Hreq : requests st1 = requests (add_request url st)).
  { clear - E. unfold export, bind, get_max_zoom in E.
    simpl get_max_zoom_from in E. unfold bind at 1 in E.
    rewrite zoom_turn in E. simpl in E. unfold ret at 1 in E.
    unfold export_faces, range6, bind in E.
    rewrite !(export_face_first_probe_fails http_open str_mod conversion
                SchemaFalse _ 0 (fun _ => eq_refl)) in E.
    unfold ret in E. injection E as <-. simpl. now rewrite !app_nil_r. }
  pose proof (export_keeps_calls SchemaFalse (S fuel) (add_request url st)) as Hc.
  rewrite E in Hc. simpl in Hc.
  unfold call_multistitch, bind, log_call.
  exists (add_call (CallMultistitch [[]; []; []; []; []; []]) st1).
  destruct (multistitch [[]; []; []; []; []; []]); unfold ret, raise;
    simpl; rewrite Hreq, Hc; auto.
Qed.

End Coordinator.
End CoordinatorSpec.

(* ===================================================================== *)
(** * The schema normaliser *)
(* ===================================================================== *)

Module NormalizerSpec.

Import KRPano PyStr PyStrFacts.

Local Open Scope list_scope.

Lemma firstn_length_app {A} (pre l : list A) :
  firstn (length pre) (pre ++ l) = pre.
Proof. induction pre as [|a pre IH]; simpl; [now destruct l | now rewrite IH]. Qed.

Lemma skipn_length_app {A} (pre l : list A) :
  skipn (length pre) (pre ++ l) = l.
Proof. induction pre as [|a pre IH]; simpl; auto. Qed.

Lemma get_from_end_app {A} (pre suf : list A) (x : A) :
  get_from_end (S (length suf)) (pre ++ x :: suf) = Some x.
Proof.
  unfold get_from_end. rewrite length_app. cbn [length].
  assert (E : (S (length suf) <=? length pre + S (length suf))%nat = true)
    by (apply Nat.leb_le; lia).
  rewrite E.
  replace (length pre + S (length suf) - S (length suf))%nat
    with (length pre) by lia.
  rewrite nth_error_app2 by lia. now rewrite Nat.sub_diag.
Qed.

Lemma set_from_end_app {A} (pre suf : list A) (x v : A) :
  set_from_end (S (length suf)) v (pre ++ x :: suf) = Some (pre ++ v :: suf).
Proof.
  unfold set_from_end. rewrite length_app. cbn [length].
  assert (E : (S (length suf) <=? length pre + S (length suf))%nat = true)
    by (apply Nat.leb_le; lia).
  rewrite E.
  replace (length pre + S (length suf) - S (length suf))%nat
    with (length pre) by lia.
  rewrite firstn_length_app.
  change (S (length pre)) with (1 + length pre)%nat.
  rewrite <- skipn_skipn, skipn_length_app. reflexivity.
Qed.

Lemma last_three {A} (pre : list A) (a b c v : A) :
  get_from_end 1 (pre ++ [a; b; c]) = Some c /\
  set_from_end 1 v (pre ++ [a; b; c]) = Some (pre ++ [a; b; v]) /\
  set_from_end 2 v (pre ++ [a; b; c]) = Some (pre ++ [a; v; c]) /\
  get_from_end 3 (pre ++ [a; b; c]) = Some a /\
  set_from_end 3 v (pre ++ [a; b; c]) = Some (pre ++ [v; b; c]).
Proof.
  assert (E1 : pre ++ [a; b; c] = (pre ++ [a; b]) ++ [c])
    by now rewrite <- app_assoc.
  assert (E2 : pre ++ [a; b; c] = (pre ++ [a]) ++ [b; c])
    by now rewrite <- app_assoc.
  pose proof (get_from_end_app (pre ++ [a; b]) [] c) as G1.
  pose proof (set_from_end_app (pre ++ [a; b]) [] c v) as S1.
  pose proof (set_from_end_app (pre ++ [a]) [c] b v) as S2.
  pose proof (get_from_end_app pre [b; c] a) as G3.
  pose proof (set_from_end_app pre [b; c] a v) as S3.
  cbn [length] in *. rewrite <- E1 in G1, S1. rewrite <- E2 in S2.
  rewrite <- app_assoc in S1, S2.
  repeat split; assumption.
Qed.

Lemma contains_append (c : ascii) (s t : string) :
  contains c (s ++ t)%string = contains c s || contains c t.
Proof.
  induction s as [|d s IH]; simpl; [reflexivity |].
  now rewrite IH, orb_assoc.
Qed.

Lemma split_keeps_out (sep c : ascii) (s : string) :
  contains c s = false ->
  Forall (fun p => contains c p = false) (split sep s).
Proof.
  induction s as [|d s IH]; simpl; intros H.
  - repeat constructor.
  - apply orb_false_iff in H as [Hd Hs]. specialize (IH Hs).
    destruct (Ascii.eqb d sep).
    + constructor; [reflexivity | exact IH].
    + destruct (split sep s) as [|p ps].
      * repeat constructor. simpl. now rewrite Hd.
      * inversion IH; subst. constructor; [| assumption].
        simpl. now rewrite Hd.
Qed.

Lemma rstrip_keeps_out (chars : string) (c : ascii) (s : string) :
  contains c s = false -> contains c (rstrip chars s) = false.
Proof.
  induction s as [|d s IH]; simpl; intros H; [reflexivity |].
  apply orb_false_iff in H as [Hd Hs]. specialize (IH Hs).
  destruct (rstrip chars s) as [|e r].
  - destruct (contains d chars); simpl; [reflexivity | now rewrite Hd].
  - simpl in *. now rewrite Hd, IH.
Qed.

(** Text without a percent sign is copied by [%]. *)
Lemma format_text (s t : string) (args : list Z) :
  contains "%" s = false ->
  format_from InText (s ++ t)%string args
  = prepend_str s (format_from InText t args).
Proof.
  induction s as [|c s IH]; intros H.
  - simpl. now destruct (format_from InText t args).
  - change (contains "%" (String c s))
      with (Ascii.eqb "%" c || contains "%" s) in H.
    apply orb_false_iff in H as [Hc Hs].
    change (format_from InText (String c s ++ t)%string args)
      with (if Ascii.eqb c "%"
            then format_from InDirective (s ++ t)%string args
            else prepend c (format_from InText (s ++ t)%string args)).
    rewrite Ascii.eqb_sym, Hc, (IH Hs).
    now destruct (format_from InText t args).
Qed.

Lemma join_app_cons (pre : list string) (x : string) (rest : list string) :
  join "/" (pre ++ x :: rest) = slash_prefix pre (join "/" (x :: rest)).
Proof.
  unfold slash_prefix.
  induction pre as [|p pre IH]; [reflexivity |].
  change ((p :: pre) ++ x :: rest) with (p :: (pre ++ x :: rest)).
  cbn [fold_right]. rewrite <- IH.
  destruct (pre ++ x :: rest) eqn:E; [| reflexivity].
  now destruct pre.
Qed.

Lemma format_slash_prefix (pre : list string) (t u : string) (args : list Z) :
  Forall (fun p => contains "%" p = false) pre ->
  format_from InText t args = Formatted u ->
  format_from InText (slash_prefix pre t) args
  = Formatted (slash_prefix pre u).
Proof.
  unfold slash_prefix.
  induction 1 as [|p pre Hp _ IH]; intros Ht; cbn [fold_right]; [exact Ht |].
  rewrite (format_text p _ args Hp).
  change ("/" ++ ?x)%string with (String "/" x).
  cbn [format_from]. change (Ascii.eqb "/" "%") with false. cbn iota.
  now rewrite (IH Ht).
Qed.

Section Normalizer.

Variable http_open : list string -> string -> http_outcome.

(** For a reachable URL with no percent sign whose last part has an
    underscore, [url_normalize] returns the URL with its last three parts
    rewritten as placeholders, and substituting four integers gives the URL
    with these parts rewritten with the integers. *)
Theorem url_normalize_round_trip (url : string) (st : state)
  (pre : list string) (p3 p2 p1 : string) :
  fetch_ok http_open (requests st) url = true ->
  contains "%" url = false ->
  split "/" url = pre ++ [p3; p2; p1] ->
  contains "_" p1 = true ->
  let stem := rstrip "0123456789" p3 in
  let template :=
    join "/" (pre ++ [(stem ++ "%i")%string; "%i"%string; "%i_%i.jpg"%string]) in
  url_normalize http_open url st
  = Returns (SchemaStr template) (add_request url st) /\
  forall a b c d : Z,
    percent_format template [a; b; c; d]
    = Formatted
        (join "/" (pre ++ [(stem ++ str_of_int a)%string;
                           str_of_int b;
                           (str_of_int c ++ "_" ++ str_of_int d ++ ".jpg")%string])).
Proof.
  intros Hok Hpct Hparts Hunder stem template. split.
  - unfold url_normalize, try_except, bind, http_request.
    unfold fetch_ok in Hok.
    destruct (http_open (requests st) url) as [|code content];
      [discriminate |].
    simpl fst. rewrite Hok. unfold py_assert at 1. unfold ret at 1.
    rewrite Hparts.
    rewrite (proj1 (last_three pre p3 p2 p1 p1)).
    unfold or_index_error at 1. unfold ret at 1. rewrite Hunder.
    unfold py_assert, ret at 1.
    rewrite (proj1 (proj2 (last_three pre p3 p2 p1 "%i_%i.jpg"%string))).
    unfold or_index_error at 1. unfold ret at 1.
    rewrite (proj1 (proj2 (proj2
               (last_three pre p3 p2 "%i_%i.jpg"%string "%i"%string)))).
    unfold or_index_error at 1. unfold ret at 1.
    rewrite (proj1 (proj2 (proj2 (proj2
               (last_three pre p3 "%i"%string "%i_%i.jpg"%string p3))))).
    unfold or_index_error at 1. unfold ret at 1.
    rewrite (proj2 (proj2 (proj2 (proj2
               (last_three pre p3 "%i"%string "%i_%i.jpg"%string
                  (rstrip "0123456789" p3 ++ "%i")%string))))).
    reflexivity.
  - intros a b c d. unfold template, percent_format.
    rewrite !join_app_cons.
    assert (Hall : Forall (fun p => contains "%" p = false)
                          (pre ++ [p3; p2; p1])).
    { rewrite <- Hparts. now apply split_keeps_out. }
    apply Forall_app in Hall as [Hpre Hlast].
    inversion Hlast as [|? ? H3 _]; subst.
    apply format_slash_prefix; [exact Hpre |].
    simpl join. rewrite append_assoc.
    rewrite format_text by (now apply rstrip_keeps_out).
    simpl. now rewrite append_assoc.
Qed.

End Normalizer.
End NormalizerSpec.

(* ===================================================================== *)
(** * Worked examples *)
(* ===================================================================== *)

Module Examples.

Import KRPano ProbingSpec SixFaceSpec CoordinatorSpec NormalizerSpec.

Local Open Scope list_scope.


Lemma demo_site_zoom : zoom_stops_at demo_site python_mod demo_schema 1.
Proof.
  split.
  - intros history l Hl. assert (l = 1%nat) as -> by lia. reflexivity.
  - intros history. reflexivity.
Qed.

Lemma get_max_zoom_largest_level_witness :
  get_max_zoom demo_site python_mod 2 demo_schema initial_state
  = Returns 1 (advance python_mod demo_schema (zoom_trace 1) [] initial_state).
Proof.
  exact (proj1 (get_max_zoom_largest_level demo_site python_mod demo_schema 1
                  demo_site_zoom) 2%nat initial_state ltac:(lia)).
Defined.

Lemma get_max_zoom_skips_level_zero_witness :
  get_max_zoom unreachable_host python_mod 1 demo_schema initial_state
  = Returns 0 (advance python_mod demo_schema [(0, 1, 0, 0)] [] initial_state).
Proof.
  apply (proj2 (proj2 (get_max_zoom_skips_level_zero unreachable_host
                         python_mod demo_schema))).
  reflexivity.
Defined.

Lemma export_six_face_grids_witness :
  exists st',
    export unreachable_host python_mod demo_conversion 1 demo_schema
      initial_state
    = Returns [[]; []; []; []; []; []] st'.
Proof.
  apply (proj2 (proj2 (proj2 (export_six_face_grids unreachable_host
                                python_mod demo_conversion demo_schema)))).
  intros history a b c d _. unfold probe_ok, fetch_ok, unreachable_host.
  now destruct (schema_mod python_mod demo_schema a b c d).
Defined.

Lemma failed_probe_ends_loop_witness :
  get_max_zoom_from unreachable_host python_mod 1 demo_schema 0 initial_state
  = Returns 0 (add_request demo_url (add_probe (0, 0 + 1, 0, 0) initial_state)).
Proof.
  apply (proj1 (failed_probe_ends_loop unreachable_host python_mod
                  demo_conversion demo_schema initial_state demo_url
                  (or_introl eq_refl))).
  reflexivity.
Defined.

(** C6 as the claim has it fails: the first request meets a transport
    error that a single retry would have got past, yet the zoom search ends
    there, with level 0 and that one request. *)
Lemma transient_failure_ends_zoom_search :
  get_max_zoom flaky_host python_mod 3 demo_schema initial_state
  = Returns 0 {| probes := [(0, 1, 0, 0)]; requests := [demo_url];
                 files := []; calls := [] |}
  /\ flaky_host [] demo_url = OpenRaises
  /\ flaky_host [demo_url] demo_url = Response 200 "jpeg".
Proof. repeat split. Qed.

Lemma export_simple_siblings_witness :
  (5 <= String.length "http://x/pano_f.jpg")%nat /\
  String.get (String.length "http://x/pano_f.jpg" - 5)
    (sibling_url "http://x/pano_f.jpg" "r") = Some "r"%char /\
  exists out st',
    export_simple (static_site ["http://x/pano_f.jpg"; "http://x/pano_r.jpg"])
      demo_conversion "http://x/pano_f.jpg" "fr" initial_state
    = Returns out st'.
Proof.
  assert (H : (5 <= String.length "http://x/pano_f.jpg")%nat) by (simpl; lia).
  destruct (export_simple_siblings
              (static_site ["http://x/pano_f.jpg"; "http://x/pano_r.jpg"])
              demo_conversion "http://x/pano_f.jpg" "fr" H)
    as (Hchars & _ & _ & Hall).
  split; [exact H |]. split; [apply Hchars |].
  apply Hall. intros history i [<- | [<- | []]]; reflexivity.
Defined.

Lemma to_equirectangular_one_stitch_witness :
  exists tiles st1,
    make_tiles demo_site python_mod demo_multistitch demo_conversion 4
      (conv_url demo_conversion) initial_state = Returns tiles st1 /\
    to_equirectangular demo_site python_mod demo_multistitch
      demo_cubemap_to_equirectangular demo_conversion 4 initial_state
    = Returns (demo_stitched "result")
        (add_call (CallCubemapToEquirectangular tiles (PyTuple [10; 20; 30]))
           st1).
Proof.
  eexists. eexists.
  assert (H : make_tiles demo_site python_mod demo_multistitch demo_conversion
                4 (conv_url demo_conversion) initial_state
              = Returns _ _) by (vm_compute; reflexivity).
  split; [exact H |].
  exact (proj1 (to_equirectangular_one_stitch demo_site python_mod
                  demo_multistitch demo_cubemap_to_equirectangular
                  demo_conversion 4 initial_state _ _ H)).
Defined.

(** C4 on the code: the seed is unreachable, [url_normalize] returns
    [False], and [export_full] carries on.  The seven probes that follow
    raise before any request is made, and the multistitcher is called with
    six empty grids; with stitchers that take what they are given,
    [to_equirectangular] returns a result and nothing reports that the URL
    cannot be handled. *)
Example export_full_goes_on_without_schema :
  url_normalize unreachable_host demo_url initial_state
  = Returns SchemaFalse {| probes := []; requests := [demo_url];
                           files := []; calls := [] |}
  /\ export_full unreachable_host python_mod demo_multistitch demo_conversion
       2 demo_url initial_state
     = Returns (demo_stitched "cubemap")
         {| probes := [(0, 1, 0, 0); (0, 0, 0, 0); (1, 0, 0, 0); (2, 0, 0, 0);
                       (3, 0, 0, 0); (4, 0, 0, 0); (5, 0, 0, 0)];
            requests := [demo_url];
            files := [];
            calls := [CallMultistitch [[]; []; []; []; []; []]] |}
  /\ exists st',
       to_equirectangular unreachable_host python_mod demo_multistitch
         demo_cubemap_to_equirectangular demo_conversion 2 initial_state
       = Returns (demo_stitched "result") st'
       /\ requests st' = [demo_url]
       /\ calls st'
          = [CallMultistitch [[]; []; []; []; []; []];
             CallCubemapToEquirectangular
               (Multistitched (demo_stitched "cubemap"))
               (PyTuple [10; 20; 30])].
Proof.
  split; [| split]; try (vm_compute; reflexivity).
  eexists. split; [vm_compute; reflexivity |]. split; reflexivity.
Qed.

(** C5 on the code: a reachable URL with a percent-encoded space is
    normalised to a template in which [%20p] reads as a directive, so that
    substituting into it raises instead of giving the rewritten URL. *)
Example url_normalize_percent_sign :
  let url := "http://x/my%20pano/001/1/0_0.jpg"%string in
  let template := "http://x/my%20pano/%i/%i/%i_%i.jpg"%string in
  PyStr.split "/" url
  = ["http:"; ""; "x"; "my%20pano"; "001"; "1"; "0_0.jpg"]%string /\
  url_normalize (static_site [url]) url initial_state
  = Returns (SchemaStr template)
      {| probes := []; requests := [url]; files := []; calls := [] |} /\
  PyStr.percent_format template [5; 6; 7; 8] = PyStr.FormatError /\
  PyStr.join "/" ["http:"; ""; "x"; "my%20pano";
                  ("" ++ PyStr.str_of_int 5)%string; PyStr.str_of_int 6;
                  (PyStr.str_of_int 7 ++ "_" ++ PyStr.str_of_int 8 ++ ".jpg")%string]
  = "http://x/my%20pano/5/6/7_8.jpg"%string /\
  get_max_zoom (static_site [url]) python_mod 3 (SchemaStr template)
    initial_state
  = Returns 0 {| probes := [(0, 1, 0, 0)]; requests := []; files := [];
                 calls := [] |}.
Proof. repeat split. Qed.

(** The spec's scenario of a face of two rows of three columns at zoom 1:
    nine probes for face 0, one for each of the other faces, after the two
    of the zoom search. *)
Example export_demo_site :
  exists out st',
    export demo_site python_mod demo_conversion 4 demo_schema initial_state
    = Returns out st'
    /\ map (map (map file_name)) out
       = [grid_names 0 1 2 3; []; []; []; []; []]
    /\ probes st'
       = zoom_trace 1 ++ face_trace 0 1 2 3
         ++ [(1, 1, 0, 0); (2, 1, 0, 0); (3, 1, 0, 0); (4, 1, 0, 0);
             (5, 1, 0, 0)]
    /\ length (requests st') = 16%nat.
Proof. eexists. eexists. split; [vm_compute; reflexivity |]. repeat split. Qed.

(** On a host that answers every request with status 200 the zoom search
    has no last level: no amount of fuel lets [export] return. *)
Lemma export_catch_all_host (fuel : nat) :
  export catch_all_host python_mod demo_conversion fuel demo_schema
    initial_state = OutOfFuel.
Proof.
  unfold export, bind, get_max_zoom.
  assert (G : forall n l st,
             get_max_zoom_from catch_all_host python_mod n demo_schema l st
             = OutOfFuel).
  { induction n as [|n IH]; intros l st; simpl get_max_zoom_from;
      [reflexivity |].
    unfold bind at 1. rewrite zoom_turn.
    assert (E : probe_ok catch_all_host python_mod demo_schema
                  (requests st) 0 (l + 1) 0 0 = true) by reflexivity.
    rewrite E. apply IH. }
  now rewrite G.
Qed.

End Examples.

(* ===================================================================== *)
(** * More on the schema normaliser *)
(* ===================================================================== *)

Module NormalizerClosedForm.

Import KRPano PyStr PyStrFacts NormalizerSpec.

Local Open Scope list_scope.

(** ** Splitting and joining *)

Lemma split_nonempty (sep : ascii) (s : string) : split sep s <> [].
Proof.
  destruct s as [|c s]; simpl; [discriminate |].
  destruct (Ascii.eqb c sep); [discriminate |].
  destruct (split sep s); discriminate.
Qed.

Lemma split_without_separator (sep : ascii) (s : string) :
  contains sep s = false -> split sep s = [s].
Proof.
  induction s as [|c s IH]; simpl; intros H; [reflexivity |].
  apply orb_false_iff in H as [Hc Hs].
  rewrite Ascii.eqb_sym, Hc, (IH Hs). reflexivity.
Qed.

Lemma split_at_separator (sep : ascii) (s t : string) :
  split sep (s ++ String sep t)%string = split sep s ++ split sep t.
Proof.
  induction s as [|c s IH]; simpl.
  - now rewrite Ascii.eqb_refl.
  - rewrite IH. destruct (Ascii.eqb c sep); [reflexivity |].
    pose proof (split_nonempty sep s) as Hne.
    destruct (split sep s) as [|p ps]; [congruence | reflexivity].
Qed.

Lemma join_cons (sep p : string) (ps : list string) :
  ps <> [] -> join sep (p :: ps) = (p ++ sep ++ join sep ps)%string.
Proof. destruct ps; [congruence | reflexivity]. Qed.

Lemma join_split (s : string) : join "/" (split "/" s) = s.
Proof.
  induction s as [|c s IH]; [reflexivity |].
  cbn [split]. pose proof (split_nonempty "/" s) as Hne.
  destruct (Ascii.eqb c "/") eqn:E.
  - apply Ascii.eqb_eq in E. subst c.
    rewrite join_cons by exact Hne. now rewrite IH.
  - destruct (split "/" s) as [|p ps]; [congruence |].
    destruct ps as [|q ps].
    + simpl in *. now rewrite IH.
    + rewrite join_cons in * by discriminate.
      change (String c p ++ ?x)%string with (String c (p ++ x)).
      f_equal. exact IH.
Qed.

Lemma ends_with_last {A} (l : list A) :
  l <> [] -> exists init x, l = init ++ [x].
Proof.
  intros H. destruct (exists_last H) as (init & x & ->). eauto.
Qed.

(** ** Stripping trailing digits *)

Lemma rstrip_keeps_other (chars : string) (c : ascii) (s : string) :
  contains c chars = false ->
  rstrip chars (String c s) = String c (rstrip chars s).
Proof.
  intros Hc. cbn [rstrip]. destruct (rstrip chars s); [now rewrite Hc |].
  reflexivity.
Qed.

Lemma rstrip_before_other (chars : string) (c : ascii) (a b : string) :
  contains c chars = false ->
  rstrip chars (a ++ String c b)%string
  = (a ++ String c (rstrip chars b))%string.
Proof.
  intros Hc. induction a as [|d a IH]; simpl append.
  - now apply rstrip_keeps_other.
  - cbn [rstrip]. rewrite IH. destruct a; reflexivity.
Qed.

Lemma rstrip_all (chars s : string) :
  (forall c, contains c s = true -> contains c chars = true) ->
  rstrip chars s = ""%string.
Proof.
  induction s as [|d s IH]; intros H; [reflexivity |].
  cbn [rstrip]. rewrite IH.
  - rewrite (H d); [reflexivity |]. simpl. now rewrite Ascii.eqb_refl.
  - intros c Hc. apply H. simpl. rewrite Hc. apply orb_true_r.
Qed.

Lemma rstrip_after_other (chars : string) (a t : string) (c : ascii) :
  contains c chars = false ->
  (forall d, contains d t = true -> contains d chars = true) ->
  rstrip chars (a ++ String c t)%string = (a ++ String c "")%string.
Proof.
  intros Hc Ht. rewrite rstrip_before_other by exact Hc.
  now rewrite rstrip_all.
Qed.

Lemma slash_prefix_append (pre : list string) (p t : string) :
  (slash_prefix pre p ++ t)%string = slash_prefix pre (p ++ t)%string.
Proof.
  unfold slash_prefix. induction pre as [|q pre IH]; cbn [fold_right];
    [reflexivity |].
  now rewrite append_assoc, <- IH.
Qed.

Lemma rstrip_slash_prefix (pre : list string) (p : string) :
  rstrip "0123456789" (slash_prefix pre p)
  = slash_prefix pre (rstrip "0123456789" p).
Proof.
  unfold slash_prefix. induction pre as [|q pre IH]; cbn [fold_right];
    [reflexivity |].
  change ("/" ++ ?x)%string with (String "/" x).
  rewrite rstrip_before_other by reflexivity. now rewrite IH.
Qed.

Lemma join_last (init : list string) (p : string) :
  join "/" (init ++ [p]) = slash_prefix init p.
Proof. apply join_app_cons. Qed.

(** ** Decimal numerals *)

Lemma uint_digits (d : Decimal.uint) :
  all_digits (NilEmpty.string_of_uint d) = true.
Proof. induction d; simpl; auto. Qed.

Lemma str_of_int_digits (z : Z) :
  0 <= z -> all_digits (str_of_int z) = true.
Proof.
  intros Hz. unfold str_of_int. destruct z as [|p|p]; [reflexivity | | lia].
  simpl. unfold NilZero.string_of_uint.
  destruct (Pos.to_uint p); try reflexivity; apply (uint_digits (_ _)).
Qed.

Lemma digit_is_listed (c : ascii) :
  is_digit c = true -> contains c "0123456789" = true.
Proof.
  destruct c as [[] [] [] [] [] [] [] []]; intros H;
    try reflexivity; discriminate H.
Qed.

Lemma digits_are_listed (s : string) :
  all_digits s = true ->
  forall c, contains c s = true -> contains c "0123456789" = true.
Proof.
  induction s as [|d s IH]; simpl; intros H c Hc; [discriminate |].
  apply andb_true_iff in H as [Hd Hs].
  apply orb_true_iff in Hc as [Hc | Hc].
  - apply Ascii.eqb_eq in Hc. subst c. now apply digit_is_listed.
  - now apply IH.
Qed.

Lemma digits_without (c : ascii) (s : string) :
  is_digit c = false -> all_digits s = true -> contains c s = false.
Proof.
  intros Hc. induction s as [|d s IH]; simpl; intros H; [reflexivity |].
  apply andb_true_iff in H as [Hd Hs]. rewrite (IH Hs), orb_false_r.
  apply Ascii.eqb_neq. intros ->. congruence.
Qed.

Lemma rstrip_append_listed (chars s t : string) :
  (forall c, contains c t = true -> contains c chars = true) ->
  rstrip chars (s ++ t)%string = rstrip chars s.
Proof.
  intros Ht. induction s as [|c s IH]; simpl append.
  - now apply rstrip_all.
  - cbn [rstrip]. now rewrite IH.
Qed.

Section Normalizer.

Variable http_open : list string -> string -> http_outcome.

(** The template of a reachable URL of at least three parts with an
    underscore in the last. *)
Lemma url_normalize_template (url : string) (st : state)
  (pre : list string) (p3 p2 p1 : string) :
  fetch_ok http_open (requests st) url = true ->
  split "/" url = pre ++ [p3; p2; p1] ->
  contains "_" p1 = true ->
  url_normalize http_open url st
  = Returns (SchemaStr
               (join "/" (pre ++ [(rstrip "0123456789" p3 ++ "%i")%string;
                                  "%i"%string; "%i_%i.jpg"%string])))
      (add_request url st).
Proof.
  intros Hok Hparts Hunder.
  unfold url_normalize, try_except, bind, http_request.
  unfold fetch_ok in Hok.
  destruct (http_open (requests st) url) as [|code content];
    [discriminate |].
  simpl fst. rewrite Hok. unfold py_assert at 1. unfold ret at 1.
  rewrite Hparts.
  rewrite (proj1 (last_three pre p3 p2 p1 p1)).
  unfold or_index_error at 1. unfold ret at 1. rewrite Hunder.
  unfold py_assert, ret at 1.
  rewrite (proj1 (proj2 (last_three pre p3 p2 p1 "%i_%i.jpg"%string))).
  unfold or_index_error at 1. unfold ret at 1.
  rewrite (proj1 (proj2 (proj2
             (last_three pre p3 p2 "%i_%i.jpg"%string "%i"%string)))).
  unfold or_index_error at 1. unfold ret at 1.
  rewrite (proj1 (proj2 (proj2 (proj2
             (last_three pre p3 "%i"%string "%i_%i.jpg"%string p3))))).
  unfold or_index_error at 1. unfold ret at 1.
  rewrite (proj2 (proj2 (proj2 (proj2
             (last_three pre p3 "%i"%string "%i_%i.jpg"%string
                (rstrip "0123456789" p3 ++ "%i")%string))))).
  reflexivity.
Qed.

Lemma three_parts {A} (l : list A) :
  (3 <= length l)%nat -> exists pre a b c, l = pre ++ [a; b; c].
Proof.
  intros H. rewrite <- (rev_involutive l) in *.
  rewrite length_rev in H.
  destruct (rev l) as [|c [|b [|a r]]]; simpl in H; try lia.
  exists (rev r), a, b, c. simpl. now rewrite <- !app_assoc.
Qed.

(** X1: [url_normalize] never raises and always makes exactly one request,
    for the URL itself.  It returns a template when that request is answered
    with status 200, the URL has at least three parts between slashes and
    the last part contains an underscore, and [False] in every other
    case. *)
Theorem url_normalize_template_or_false (url : string) (st : state) :
  (exists sch,
     url_normalize http_open url st = Returns sch (add_request url st)) /\
  ((exists template,
      url_normalize http_open url st
      = Returns (SchemaStr template) (add_request url st))
   <-> (fetch_ok http_open (requests st) url = true /\
        exists pre p3 p2 p1,
          split "/" url = pre ++ [p3; p2; p1] /\ contains "_" p1 = true)) /\
  (url_normalize http_open url st = Returns SchemaFalse (add_request url st)
   <-> (fetch_ok http_open (requests st) url = false \/
        (length (split "/" url) < 3)%nat \/
        exists init p1,
          split "/" url = init ++ [p1] /\ contains "_" p1 = false)).
Proof.
  assert (Hcases :
    (fetch_ok http_open (requests st) url = true /\
     exists pre p3 p2 p1,
       split "/" url = pre ++ [p3; p2; p1] /\ contains "_" p1 = true) \/
    ((fetch_ok http_open (requests st) url = false \/
      (length (split "/" url) < 3)%nat \/
      exists init p1,
        split "/" url = init ++ [p1] /\ contains "_" p1 = false) /\
     url_normalize http_open url st
     = Returns SchemaFalse (add_request url st))).
  { destruct (fetch_ok http_open (requests st) url) eqn:Hok.
    - destruct (le_lt_dec 3 (length (split "/" url))) as [Hlen | Hlen].
      + destruct (three_parts _ Hlen) as (pre & a & b & c & Hparts).
        destruct (contains "_" c) eqn:Hunder.
        * left. split; [reflexivity |]. eauto 8.
        * right. split.
          { right. right. exists (pre ++ [a; b]), c.
            rewrite Hparts, <- app_assoc. auto. }
          unfold url_normalize, try_except, bind, http_request.
          unfold fetch_ok in Hok.
          destruct (http_open (requests st) url) as [|code content];
            [discriminate |].
          simpl fst. rewrite Hok. unfold py_assert at 1. unfold ret at 1.
          rewrite Hparts, (proj1 (last_three pre a b c c)).
          unfold or_index_error at 1. unfold ret at 1. rewrite Hunder.
          reflexivity.
      + right. split; [auto |].
        unfold url_normalize, try_except, bind, http_request.
        unfold fetch_ok in Hok.
        destruct (http_open (requests st) url) as [|code content];
          [discriminate |].
        simpl fst. rewrite Hok. unfold py_assert at 1. unfold ret at 1.
        destruct (split "/" url) as [|a [|b [|c rest]]];
          try (simpl in Hlen; lia).
        * reflexivity.
        * cbn. destruct (contains "_" a); reflexivity.
        * cbn. destruct (contains "_" b); reflexivity.
    - right. split; [auto |].
      now apply CoordinatorSpec.url_normalize_unreachable. }
  split; [| split].
  - destruct Hcases as [(Hok & pre & p3 & p2 & p1 & Hparts & Hunder) | [_ E]].
    + rewrite (url_normalize_template url st pre p3 p2 p1 Hok Hparts Hunder).
      eauto.
    + eauto.
  - split.
    + intros (template & E).
      destruct Hcases as [H | [_ E']]; [exact H |].
      rewrite E' in E. discriminate.
    + intros (Hok & pre & p3 & p2 & p1 & Hparts & Hunder).
      rewrite (url_normalize_template url st pre p3 p2 p1 Hok Hparts Hunder).
      eauto.
  - split.
    + intros E.
      destruct Hcases as [(Hok & pre & p3 & p2 & p1 & Hparts & Hunder) | [H _]];
        [| exact H].
      rewrite (url_normalize_template url st pre p3 p2 p1 Hok Hparts Hunder)
        in E.
      discriminate.
    + intros H.
      destruct Hcases as [(Hok & pre & p3 & p2 & p1 & Hparts & Hunder) | [_ E]];
        [| exact E].
      exfalso. destruct H as [H | [H | (init & q & Hq & Hno)]].
      * congruence.
      * rewrite Hparts, length_app in H. simpl in H. lia.
      * rewrite Hparts in Hq.
        replace (pre ++ [p3; p2; p1]) with ((pre ++ [p3; p2]) ++ [p1]) in Hq
          by now rewrite <- app_assoc.
        apply app_inj_tail in Hq as [_ ->]. congruence.
Qed.

Lemma url_normalize_head_mid_last (head mid last : string) (st : state) :
  let url := (head ++ "/" ++ mid ++ "/" ++ last)%string in
  fetch_ok http_open (requests st) url = true ->
  contains "/" mid = false ->
  contains "/" last = false ->
  contains "_" last = true ->
  url_normalize http_open url st
  = Returns (SchemaStr (rstrip "0123456789" head ++ "%i/%i/%i_%i.jpg")%string)
      (add_request url st).
Proof.
  intros url Hok Hmid Hlast Hunder.
  destruct (ends_with_last (split "/" head) (split_nonempty "/" head))
    as (init & p3 & Hhead).
  assert (Hparts : split "/" url = init ++ [p3; mid; last]).
  { unfold url. cbn [append].
    rewrite !split_at_separator, Hhead.
    rewrite (split_without_separator "/" mid Hmid).
    rewrite (split_without_separator "/" last Hlast).
    now rewrite <- app_assoc. }
  rewrite (url_normalize_template url st init p3 mid last Hok Hparts Hunder).
  do 2 f_equal.
  rewrite <- (join_split head), Hhead, join_last.
  rewrite rstrip_slash_prefix, slash_prefix_append, join_app_cons.
  f_equal. cbn [join]. now rewrite append_assoc.
Qed.

(** X2: for a reachable URL [head/mid/last] whose last two parts hold no
    slash and whose last part holds an underscore, the template is [head]
    without its trailing digits, followed by ["%i/%i/%i_%i.jpg"]: the last
    two parts, extension included, are dropped whatever they were.  When
    [head] holds no percent sign, substituting four integers into the
    template gives that stem followed by the four numbers. *)
Theorem url_normalize_closed_form (head mid last : string) (st : state) :
  let url := (head ++ "/" ++ mid ++ "/" ++ last)%string in
  let stem := rstrip "0123456789" head in
  fetch_ok http_open (requests st) url = true ->
  contains "/" mid = false ->
  contains "/" last = false ->
  contains "_" last = true ->
  url_normalize http_open url st
  = Returns (SchemaStr (stem ++ "%i/%i/%i_%i.jpg")%string)
      (add_request url st) /\
  (contains "%" head = false ->
   forall a b c d : Z,
     percent_format (stem ++ "%i/%i/%i_%i.jpg")%string [a; b; c; d]
     = Formatted (stem ++ str_of_int a ++ "/" ++ str_of_int b ++ "/"
                    ++ str_of_int c ++ "_" ++ str_of_int d ++ ".jpg")%string).
Proof.
  intros url stem Hok Hmid Hlast Hunder. split.
  - apply url_normalize_head_mid_last; assumption.
  - intros Hpct a b c d. unfold percent_format, stem.
    rewrite format_text by (now apply rstrip_keeps_out). reflexivity.
Qed.

(** X3: the seed round trip.  A reachable tile URL written as a stem that
    holds no percent sign and does not end in a digit, followed by
    [a/b/c_d.jpg] for natural numbers in decimal, is normalised to the stem
    followed by ["%i/%i/%i_%i.jpg"]; substituting [(a, b, c, d)] gives the
    seed back, and any other four integers give the same URL with these
    numbers in their places. *)
Theorem seed_round_trip (stem : string) (a b c d : Z) (st : state) :
  let tile_url := fun a b c d =>
    (stem ++ str_of_int a ++ "/" ++ str_of_int b ++ "/" ++ str_of_int c
       ++ "_" ++ str_of_int d ++ ".jpg")%string in
  0 <= a -> 0 <= b -> 0 <= c -> 0 <= d ->
  contains "%" stem = false ->
  rstrip "0123456789" stem = stem ->
  fetch_ok http_open (requests st) (tile_url a b c d) = true ->
  url_normalize http_open (tile_url a b c d) st
  = Returns (SchemaStr (stem ++ "%i/%i/%i_%i.jpg")%string)
      (add_request (tile_url a b c d) st) /\
  forall a' b' c' d' : Z,
    percent_format (stem ++ "%i/%i/%i_%i.jpg")%string [a'; b'; c'; d']
    = Formatted (tile_url a' b' c' d').
Proof.
  intros tile_url Ha Hb Hc Hd Hpct Hstem Hok. split.
  - pose proof (url_normalize_head_mid_last (stem ++ str_of_int a)%string
                  (str_of_int b)
                  (str_of_int c ++ "_" ++ str_of_int d ++ ".jpg")%string st)
      as H.
    cbv zeta in H. unfold tile_url in *.
    rewrite append_assoc in H. rewrite H; clear H.
    + rewrite rstrip_append_listed, Hstem; [reflexivity |].
      apply digits_are_listed. now apply str_of_int_digits.
    + exact Hok.
    + apply digits_without; [reflexivity | now apply str_of_int_digits].
    + rewrite !contains_append.
      rewrite (digits_without "/" (str_of_int c));
        [| reflexivity | now apply str_of_int_digits].
      rewrite (digits_without "/" (str_of_int d));
        [| reflexivity | now apply str_of_int_digits].
      reflexivity.
    + rewrite !contains_append. simpl. apply orb_true_r.
  - intros a' b' c' d'. unfold percent_format, tile_url.
    rewrite format_text by exact Hpct. reflexivity.
Qed.

End Normalizer.
End NormalizerClosedForm.

(* ===================================================================== *)
(** * What the grid download leaves behind *)
(* ===================================================================== *)

Module GridEffects.

Import KRPano ProbingSpec.

Local Open Scope list_scope.

Section Grid.

Variable http_open : list string -> string -> http_outcome.
Variable str_mod : string -> Z -> Z -> Z -> Z -> option string.
Variable conversion : Conversion.

Abbreviation ok := (probe_ok http_open str_mod).
Abbreviation adv := (advance str_mod).

Lemma tile_turn_file (sch : schema) (tile zoom y x : Z) (st : state) :
  exists got,
    try_except (f <- fetch_tile http_open str_mod conversion sch tile zoom y x ;;
                ret (Some f))
               (fun _ => ret None) st
    = Returns got (adv sch [(tile, zoom, y, x)]
                       (match got with Some f => [f] | None => [] end) st)
    /\ (forall f, got = Some f -> tile_named conversion tile zoom y x f)
    /\ (length (match got with Some f => [f] | None => [] end)
        <= length (trace_urls str_mod sch [(tile, zoom, y, x)]))%nat.
Proof.
  unfold try_except, fetch_tile, bind, substitute, http_request, py_assert,
    create_file, ret, raise, advance, trace_urls, add_probe, add_request,
    add_file; simpl.
  destruct (schema_mod str_mod sch tile zoom y x) as [url|]; simpl.
  - destruct (http_open (requests st) url) as [|code content]; simpl.
    + exists None. rewrite !app_nil_r.
      split; [reflexivity |]. split; [discriminate | simpl; lia].
    + destruct (code =? 200); simpl.
      * eexists (Some _). rewrite ?app_nil_r. split; [reflexivity |].
        split; [| simpl; lia]. intros f [= <-]. repeat split.
      * exists None. rewrite !app_nil_r.
        split; [reflexivity |]. split; [discriminate | simpl; lia].
  - exists None. rewrite !app_nil_r.
    split; [reflexivity |]. split; [discriminate | simpl; lia].
Qed.

Lemma export_row_effects (sch : schema) (tile zoom y : Z) :
  forall (fuel : nat) (x : Z) (r_array : list File) (st : state),
    match export_row http_open str_mod conversion fuel sch tile zoom y x
            r_array st with
    | Returns r st' =>
        exists fs trace,
          r = r_array ++ fs /\
          st' = adv sch trace fs st /\
          (length fs <= length (trace_urls str_mod sch trace))%nat /\
          forall j f, nth_error fs j = Some f ->
                      tile_named conversion tile zoom y (x + Z.of_nat j) f
    | Raises _ _ => False
    | OutOfFuel => True
    end.
Proof.
  induction fuel as [|fuel IH]; intros x r_array st; simpl export_row;
    [exact I |].
  unfold bind at 1.
  destruct (tile_turn_file sch tile zoom y x st) as ([f|] & -> & Hname & Hlen).
  - specialize (IH (x + 1) (r_array ++ [f])
                   (adv sch [(tile, zoom, y, x)] [f] st)).
    destruct (export_row _ _ _ fuel sch tile zoom y (x + 1) _ _)
      as [r st' | |]; auto.
    destruct IH as (fs & trace & -> & -> & Hcount & Hnames).
    exists (f :: fs), ([(tile, zoom, y, x)] ++ trace).
    rewrite <- app_assoc, advance_advance.
    split; [reflexivity |]. split; [reflexivity |]. split.
    + rewrite trace_urls_app, length_app. simpl in *. lia.
    + intros j g Hj. destruct j as [|j]; simpl in Hj.
      * injection Hj as <-. rewrite Z.add_0_r. now apply Hname.
      * replace (x + Z.of_nat (S j)) with (x + 1 + Z.of_nat j) by lia.
        now apply Hnames.
  - exists [], [(tile, zoom, y, x)]. rewrite app_nil_r.
    split; [reflexivity |]. split; [reflexivity |]. split; [simpl; lia |].
    intros j g Hj. destruct j; discriminate.
Qed.

Lemma export_rows_effects (sch : schema) (tile zoom : Z) (row_fuel : nat) :
  forall (fuel : nat) (y : Z) (t_array : face_grid) (st : state),
    match export_rows http_open str_mod conversion row_fuel fuel sch tile zoom
            y t_array st with
    | Returns g st' =>
        exists (grid : face_grid) trace,
          g = t_array ++ grid /\
          st' = adv sch trace (concat grid) st /\
          (length (concat grid) <= length (trace_urls str_mod sch trace))%nat /\
          forall i row j f,
            nth_error grid i = Some row -> nth_error row j = Some f ->
            tile_named conversion tile zoom (y + Z.of_nat i) (Z.of_nat j) f
    | Raises _ _ => False
    | OutOfFuel => True
    end.
Proof.
  induction fuel as [|fuel IH]; intros y t_array st; simpl export_rows;
    [exact I |].
  unfold bind at 1.
  pose proof (export_row_effects sch tile zoom y row_fuel 0 [] st) as Hrow.
  destruct (export_row _ _ _ row_fuel sch tile zoom y 0 [] st)
    as [r st1 | |]; auto.
  destruct Hrow as (fs & trace & -> & -> & Hcount & Hnames). cbn [app].
  destruct fs as [|f fs].
  - exists [], trace. rewrite app_nil_r.
    split; [reflexivity |]. split; [reflexivity |]. split; [simpl; lia |].
    intros i row j g Hi. destruct i; discriminate.
  - specialize (IH (y + 1) (t_array ++ [f :: fs])
                   (adv sch trace (f :: fs) st)).
    destruct (export_rows _ _ _ row_fuel fuel sch tile zoom (y + 1) _ _)
      as [g st' | |]; auto.
    destruct IH as (grid & trace' & -> & -> & Hcount' & Hgrid).
    exists ((f :: fs) :: grid), (trace ++ trace').
    rewrite <- app_assoc, advance_advance. split; [reflexivity |].
    split; [reflexivity |]. split.
    + cbn [concat]. rewrite trace_urls_app, !length_app. lia.
    + intros i row j g Hi Hj. destruct i as [|i]; simpl in Hi.
      * injection Hi as <-. rewrite Z.add_0_r.
        replace (Z.of_nat j) with (0 + Z.of_nat j) by lia. now apply Hnames.
      * replace (y + Z.of_nat (S i)) with (y + 1 + Z.of_nat i) by lia.
        now apply (Hgrid i row).
Qed.

Lemma export_faces_effects (sch : schema) (zoom : Z) (fuel : nat) :
  forall (tiles : list Z) (output : list face_grid) (st : state),
    match export_faces http_open str_mod conversion fuel sch zoom tiles
            output st with
    | Returns out st' =>
        exists grids trace,
          out = output ++ grids /\
          st' = adv sch trace (concat (concat grids)) st /\
          (length (concat (concat grids))
           <= length (trace_urls str_mod sch trace))%nat
    | Raises _ _ => False
    | OutOfFuel => True
    end.
Proof.
  induction tiles as [|tile tiles IH]; intros output st; simpl export_faces.
  - exists [], []. rewrite app_nil_r, advance_nil. simpl. auto.
  - unfold bind at 1, export_face.
    pose proof (export_rows_effects sch tile zoom fuel fuel 0 [] st) as Hface.
    destruct (export_rows _ _ _ fuel fuel sch tile zoom 0 [] st)
      as [g st1 | |]; auto.
    destruct Hface as (grid & trace & -> & -> & Hcount & _). cbn [app].
    specialize (IH (output ++ [grid]) (adv sch trace (concat grid) st)).
    destruct (export_faces _ _ _ fuel sch zoom tiles (output ++ [grid]) _)
      as [out st' | |]; auto.
    destruct IH as (grids & trace' & -> & -> & Hcount').
    exists (grid :: grids), (trace ++ trace').
    rewrite <- app_assoc, advance_advance. cbn [concat].
    rewrite concat_app. split; [reflexivity |]. split; [reflexivity |].
    rewrite trace_urls_app, !length_app. lia.
Qed.

Lemma export_run (sch : schema) (fuel : nat) (st : state) :
  match export http_open str_mod conversion fuel sch st with
  | Returns out st' =>
      exists trace,
        st' = adv sch trace (concat (concat out)) st /\
        (length (concat (concat out))
         <= length (trace_urls str_mod sch trace))%nat
  | Raises _ _ => False
  | OutOfFuel => True
  end.
Proof.
  unfold export, bind, get_max_zoom.
  pose proof (get_max_zoom_from_returned http_open str_mod sch fuel 0 st) as Hz.
  destruct (get_max_zoom_from http_open str_mod fuel sch 0 st)
    as [zoom st0 | |]; auto.
  destruct Hz as (n & _ & ->).
  match goal with
  | |- context [export_faces _ _ _ _ _ _ _ _ ?s] =>
      pose proof (export_faces_effects sch zoom fuel range6 [] s) as Hf;
      destruct (export_faces http_open str_mod conversion fuel sch zoom
                  range6 [] s) as [out st' | |]; auto
  end.
  destruct Hf as (grids & trace & -> & -> & Hcount).
  rewrite advance_advance. eexists. split; [reflexivity |].
  rewrite trace_urls_app, length_app. cbn [app]. lia.
Qed.

(** X4: what [export] leaves in the log.  The [File] rows it created are
    exactly the files of the grids it returns, face after face and row
    after row, and there are at most as many of them as requests; the
    requests it made are those of its probes, in their order; it made no
    stitcher call. *)
Theorem export_effects (sch : schema) (fuel : nat) (st st' : state)
  (out : list face_grid) :
  export http_open str_mod conversion fuel sch st = Returns out st' ->
  exists trace,
    probes st' = probes st ++ trace /\
    requests st' = requests st ++ trace_urls str_mod sch trace /\
    files st' = files st ++ concat (concat out) /\
    calls st' = calls st /\
    (length (concat (concat out)) <= length (trace_urls str_mod sch trace))%nat.
Proof.
  intros E. pose proof (export_run sch fuel st) as H. rewrite E in H.
  destruct H as (trace & -> & Hcount). exists trace. unfold advance.
  cbn [probes requests files calls]. auto.
Qed.

(** X5: in what [export] returns, the file at row [y] and column [x] of the
    grid of face [i] is the one named [i_zoom_y_x.jpg], for the zoom level
    that [get_max_zoom] returned; it is an [image/jpeg] file of the
    conversion.  This holds for grids of any shape, rows of different
    lengths included. *)
Theorem export_tile_names (sch : schema) (fuel : nat) (st st0 st' : state)
  (zoom : Z) (out : list face_grid) :
  get_max_zoom http_open str_mod fuel sch st = Returns zoom st0 ->
  export http_open str_mod conversion fuel sch st = Returns out st' ->
  forall (i y x : nat) (grid : face_grid) (row : list File) (f : File),
    nth_error out i = Some grid ->
    nth_error grid y = Some row ->
    nth_error row x = Some f ->
    file_name f
    = Some (tile_name (Z.of_nat i) zoom (Z.of_nat y) (Z.of_nat x)) /\
    file_mime_type f = "image/jpeg"%string /\
    file_conversion f = conversion.
Proof.
  intros Hzoom E i y x grid row f Hi Hy Hx.
  pose proof (export_returned http_open str_mod conversion sch fuel st) as H.
  rewrite E in H. destruct H as (zoom' & st0' & Hz & _ & Hall).
  rewrite Hzoom in Hz. injection Hz as <- <-.
  assert (Hface : exists s s',
             export_face http_open str_mod conversion fuel sch (Z.of_nat i)
               zoom s = Returns grid s').
  { unfold range6 in Hall.
    repeat match goal with
           | H : Forall2 _ (_ :: _) _ |- _ =>
               inversion H as [|? ? ? ? ?Hg ?Hrest]; subst; clear H
           | H : Forall2 _ [] _ |- _ => inversion H; subst; clear H
           end.
    destruct i as [|[|[|[|[|[|i]]]]]]; simpl in Hi;
      try (injection Hi as <-; assumption).
    destruct i; discriminate. }
  destruct Hface as (s & s' & Es). unfold export_face in Es.
  pose proof (export_rows_effects sch (Z.of_nat i) zoom fuel fuel 0 [] s)
    as Hrows.
  rewrite Es in Hrows. destruct Hrows as (g & trace & Hg & _ & _ & Hnames).
  cbn [app] in Hg. subst g.
  specialize (Hnames y row x f Hy Hx).
  now rewrite Z.add_0_l in Hnames.
Qed.

(** X6: with a schema that never substitutes ([False], or a template on
    which [%] raises whatever the four integers), [export] returns six empty
    grids after seven probes: one for zoom level 1 and, at zoom 0, one for
    each face.  It makes no request, creates no file and calls no stitcher,
    whatever the server would have answered. *)
Theorem export_without_template (sch : schema) (fuel : nat) (st : state) :
  (forall a b c d, schema_mod str_mod sch a b c d = None) ->
  export http_open str_mod conversion (S fuel) sch st
  = Returns [[]; []; []; []; []; []]
      {| probes := probes st ++ [(0, 1, 0, 0); (0, 0, 0, 0); (1, 0, 0, 0);
                                 (2, 0, 0, 0); (3, 0, 0, 0); (4, 0, 0, 0);
                                 (5, 0, 0, 0)];
         requests := requests st;
         files := files st;
         calls := calls st |}.
Proof.
  intros Hnone.
  assert (Hfail : forall tile zoom history,
             ok sch history tile zoom 0 0 = false).
  { intros tile zoom history. unfold probe_ok. now rewrite Hnone. }
  assert (Hurls : forall trace, trace_urls str_mod sch trace = []).
  { induction trace as [|[[[a b] c] d] trace IH]; [reflexivity |].
    unfold trace_urls in *. cbn [flat_map]. now rewrite Hnone, IH. }
  unfold export, bind, get_max_zoom. simpl get_max_zoom_from.
  unfold bind at 1. rewrite zoom_turn. rewrite (Hfail 0 (0 + 1)).
  unfold ret at 1. unfold export_faces, range6, bind.
  rewrite !(export_face_first_probe_fails http_open str_mod conversion sch _ 0
              (Hfail _ 0)).
  unfold ret. rewrite !advance_advance. unfold advance.
  rewrite Hurls. cbn. now rewrite !app_nil_r.
Qed.

(** ** The probes behind a result *)

Lemma export_row_probes (sch : schema) (tile zoom y : Z) :
  forall (fuel : nat) (x : Z) (r_array : list File) (st : state),
    match export_row http_open str_mod conversion fuel sch tile zoom y x
            r_array st with
    | Returns r st' =>
        exists fs,
          r = r_array ++ fs /\
          probes st'
          = probes st ++ map (fun j => (tile, zoom, y, x + Z.of_nat j))
                             (seq 0 (S (length fs)))
    | Raises _ _ => False
    | OutOfFuel => True
    end.
Proof.
  induction fuel as [|fuel IH]; intros x r_array st; simpl export_row;
    [exact I |].
  unfold bind at 1.
  destruct (tile_turn_file sch tile zoom y x st) as ([f|] & -> & _).
  - specialize (IH (x + 1) (r_array ++ [f])
                   (adv sch [(tile, zoom, y, x)] [f] st)).
    destruct (export_row _ _ _ fuel sch tile zoom y (x + 1) _ _)
      as [r st' | |]; auto.
    destruct IH as (fs & -> & ->). exists (f :: fs).
    rewrite <- app_assoc. split; [reflexivity |].
    unfold advance. cbn [probes length]. rewrite <- app_assoc. f_equal.
    cbn [app]. apply shift_trace.
    + apply tuple4_eq; lia.
    + intros j. apply tuple4_eq; lia.
  - exists []. rewrite app_nil_r. split; [reflexivity |].
    unfold advance. cbn. now rewrite Z.add_0_r.
Qed.

Lemma export_rows_probes (sch : schema) (tile zoom : Z) (row_fuel : nat) :
  forall (fuel y : nat) (t_array : face_grid) (st : state),
    match export_rows http_open str_mod conversion row_fuel fuel sch tile zoom
            (Z.of_nat y) t_array st with
    | Returns g st' =>
        exists grid : face_grid,
          g = t_array ++ grid /\
          probes st' = probes st ++ rows_trace tile zoom y grid
    | Raises _ _ => False
    | OutOfFuel => True
    end.
Proof.
  induction fuel as [|fuel IH]; intros y t_array st; simpl export_rows;
    [exact I |].
  unfold bind at 1.
  pose proof (export_row_probes sch tile zoom (Z.of_nat y) row_fuel 0 [] st)
    as Hrow.
  destruct (export_row _ _ _ row_fuel sch tile zoom (Z.of_nat y) 0 [] st)
    as [r st1 | |]; auto.
  destruct Hrow as (fs & -> & Hp). cbn [app] in *.
  destruct fs as [|f fs].
  - exists []. rewrite app_nil_r. split; [reflexivity |].
    rewrite Hp. reflexivity.
  - specialize (IH (S y) (t_array ++ [f :: fs]) st1).
    replace (Z.of_nat y + 1) with (Z.of_nat (S y)) by lia.
    destruct (export_rows _ _ _ row_fuel fuel sch tile zoom (Z.of_nat (S y))
                _ _) as [g st' | |]; auto.
    destruct IH as (grid & -> & ->). exists ((f :: fs) :: grid).
    rewrite <- app_assoc. split; [reflexivity |].
    rewrite Hp, <- app_assoc. reflexivity.
Qed.

Lemma export_faces_probes (sch : schema) (zoom : Z) (fuel : nat) :
  forall (tiles : list Z) (output : list face_grid) (st : state),
    match export_faces http_open str_mod conversion fuel sch zoom tiles
            output st with
    | Returns out st' =>
        exists grids,
          out = output ++ grids /\ length grids = length tiles /\
          probes st' = probes st ++ faces_trace zoom tiles grids
    | Raises _ _ => False
    | OutOfFuel => True
    end.
Proof.
  induction tiles as [|tile tiles IH]; intros output st; simpl export_faces.
  - exists []. now rewrite !app_nil_r.
  - unfold bind at 1, export_face.
    pose proof (export_rows_probes sch tile zoom fuel fuel 0 [] st) as Hface.
    cbn [Z.of_nat] in Hface.
    destruct (export_rows _ _ _ fuel fuel sch tile zoom 0 [] st)
      as [g st1 | |]; auto.
    destruct Hface as (grid & -> & Hp). cbn [app].
    specialize (IH (output ++ [grid]) st1).
    destruct (export_faces _ _ _ fuel sch zoom tiles (output ++ [grid]) st1)
      as [out st' | |]; auto.
    destruct IH as (grids & -> & Hlen & ->). exists (grid :: grids).
    rewrite <- app_assoc. split; [reflexivity |].
    split; [simpl; now rewrite Hlen |].
    rewrite Hp, <- app_assoc. reflexivity.
Qed.

Lemma rows_trace_length (tile zoom : Z) (grid : face_grid) :
  forall y : nat,
    length (rows_trace tile zoom y grid)
    = (length (concat grid) + length grid + 1)%nat.
Proof.
  induction grid as [|row grid IH]; intros y; [reflexivity |].
  cbn [rows_trace concat length]. unfold row_trace.
  rewrite !length_app, length_map, length_seq, IH. lia.
Qed.

Lemma faces_trace_length (zoom : Z) :
  forall (tiles : list Z) (grids : list face_grid),
    length grids = length tiles ->
    length (faces_trace zoom tiles grids)
    = (length (concat (concat grids)) + length (concat grids)
       + length tiles)%nat.
Proof.
  induction tiles as [|tile tiles IH]; intros [|grid grids] Hlen;
    try discriminate; [reflexivity |].
  cbn [faces_trace concat length]. injection Hlen as Hlen.
  rewrite concat_app, !length_app, rows_trace_length, (IH grids Hlen). lia.
Qed.

(** X15: the result of [export] tells which probes were made, whatever the
    provider serves.  After the probes of zoom levels [1 .. k + 1] for the
    level [k] that [get_max_zoom] returns, [export] probes, face after
    face and row after row, the columns of each returned row and the one
    after its last file, and then the first column of the row after the
    last; every probe is made at zoom [k].  Their number is [k + 1] plus
    one for each file, one for each row and one for each of the six
    faces. *)
Theorem export_probes_of_result (sch : schema) (fuel : nat) (st st' : state)
  (out : list face_grid) :
  export http_open str_mod conversion fuel sch st = Returns out st' ->
  exists (k : nat) (st0 : state),
    get_max_zoom http_open str_mod fuel sch st = Returns (Z.of_nat k) st0 /\
    probes st'
    = probes st ++ zoom_trace k ++ faces_trace (Z.of_nat k) range6 out /\
    length (probes st')
    = (length (probes st) + (k + 1) + length (concat (concat out))
       + length (concat out) + 6)%nat.
Proof.
  intros E. unfold export, bind in E. unfold get_max_zoom in *.
  pose proof (get_max_zoom_from_returned http_open str_mod sch fuel 0 st) as Hz.
  destruct (get_max_zoom_from http_open str_mod fuel sch 0 st)
    as [zoom st0 | |] eqn:Ez; try discriminate.
  destruct Hz as (k & Hk & Hst0). rewrite Z.add_0_l in Hk. subst zoom.
  exists k, st0. split; [reflexivity |].
  pose proof (export_faces_probes sch (Z.of_nat k) fuel range6 [] st0) as Hf.
  rewrite E in Hf. destruct Hf as (grids & Hout & Hlen & Hp).
  cbn [app] in Hout. subst grids.
  assert (Hp0 : probes st0 = probes st ++ zoom_trace k).
  { rewrite Hst0, zoom_trace_levels. reflexivity. }
  assert (Hall : probes st'
                 = probes st ++ zoom_trace k
                   ++ faces_trace (Z.of_nat k) range6 out).
  { rewrite Hp, Hp0, <- app_assoc. reflexivity. }
  split; [exact Hall |].
  rewrite Hall, !length_app, (faces_trace_length _ _ _ Hlen).
  unfold zoom_trace. rewrite length_map, length_seq. simpl length. lia.
Qed.

End Grid.
End GridEffects.

(* ===================================================================== *)
(** * The grid of one face in the output of [export] *)
(* ===================================================================== *)

Module FaceGridSpec.

Import KRPano ProbingSpec GridEffects.

Local Open Scope list_scope.

(** ** The probes of the faces, face by face *)







Section FaceGrid.

Variable http_open : list string -> string -> http_outcome.
Variable str_mod : string -> Z -> Z -> Z -> Z -> option string.
Variable conversion : Conversion.




End FaceGrid.
End FaceGridSpec.

(* ===================================================================== *)
(** * Routes and failures of the coordinator *)
(* ===================================================================== *)

Module RoutingSpec.

Import Regex KRPano PyStrFacts RegexFacts ClassifierSpec ProbingSpec
  SixFaceSpec CoordinatorSpec GridEffects.

Local Open Scope list_scope.

(** ** The two tables *)

Lemma full_table (url : string) :
  (full_pyramid_shape url ->
   first_match REGEX_FULL url = Some (CERTAINTY_PROBABLE, [])) /\
  (~ full_pyramid_shape url -> first_match REGEX_FULL url = None).
Proof.
  pose proof (full_pyramid_found url) as H.
  assert (C : first_match REGEX_FULL url = None
              \/ first_match REGEX_FULL url = Some (CERTAINTY_PROBABLE, [])).
  { unfold REGEX_FULL, first_match.
    match goal with |- context [search ?p url] => destruct (search p url) end;
      auto. }
  split; intros Hs.
  - destruct C as [C | C]; [| exact C]. apply H in Hs. congruence.
  - destruct C as [C | C]; [exact C |]. exfalso. apply Hs, H. congruence.
Qed.

Lemma simple_table (url : string) :
  (face_letter_shape url ->
   first_match REGEX_SIMPLE url = Some (CERTAINTY_PROBABLE, [])) /\
  (~ face_letter_shape url -> leading_digit_shape url ->
   first_match REGEX_SIMPLE url
   = Some (CERTAINTY_POSSIBLE, [("tiles", "012345")]%string)) /\
  (~ face_letter_shape url -> ~ leading_digit_shape url ->
   first_match REGEX_SIMPLE url = None).
Proof.
  pose proof (face_letter_found url) as Hf.
  pose proof (leading_digit_found url) as Hd.
  unfold REGEX_SIMPLE, first_match.
  match goal with
  | |- context [search ?p url] => destruct (search p url) eqn:E1
  end.
  - split; [reflexivity |].
    split; intros Hn; exfalso; apply Hn, Hf; reflexivity.
  - match goal with
    | |- context [search ?p url] => destruct (search p url) eqn:E2
    end.
    + split; [intros Hs; apply Hf in Hs; discriminate |].
      split; [reflexivity |].
      intros _ Hn. exfalso. apply Hn, Hd. reflexivity.
    + split; [intros Hs; apply Hf in Hs; discriminate |].
      split; [intros _ Hs; apply Hd in Hs; discriminate |].
      reflexivity.
Qed.

Lemma found_dec (b : bool) (P : Prop) : (b = true <-> P) -> P \/ ~ P.
Proof.
  intros H. destruct b.
  - left. now apply H.
  - right. intros Hp. apply H in Hp. discriminate.
Qed.

Lemma full_pyramid_shape_dec (url : string) :
  full_pyramid_shape url \/ ~ full_pyramid_shape url.
Proof.
  destruct (first_match REGEX_FULL url) eqn:E.
  - left. apply full_pyramid_found. congruence.
  - right. intros Hs. apply full_pyramid_found in Hs. congruence.
Qed.

Lemma face_letter_shape_dec (url : string) :
  face_letter_shape url \/ ~ face_letter_shape url.
Proof. exact (found_dec _ _ (face_letter_found url)). Qed.

Lemma leading_digit_shape_dec (url : string) :
  leading_digit_shape url \/ ~ leading_digit_shape url.
Proof. exact (found_dec _ _ (leading_digit_found url)). Qed.

Lemma shape_lengths (url : string) :
  (face_letter_shape url -> (6 <= String.length url)%nat) /\
  (leading_digit_shape url -> (5 <= String.length url)%nat).
Proof.
  split.
  - intros (pre & letter & any & post & _ & _ & ->).
    rewrite !length_append. simpl. rewrite ?length_append. simpl. lia.
  - intros (digit & any & post & _ & _ & ->). simpl. lia.
Qed.

(** ** Short seeds *)

Lemma substring_whole (s : string) (m : nat) :
  (String.length s <= m)%nat -> substring 0 m s = s.
Proof.
  revert m. induction s as [|c s IH]; intros m H.
  - now destruct m.
  - destruct m as [|m]; simpl in *; [lia |]. rewrite IH; [reflexivity | lia].
Qed.

Lemma substring_nothing (s : string) : substring 0 0 s = ""%string.
Proof. now destruct s. Qed.

(** X7: [url[:-5] + i + url[-4:]] on a seed of at most four characters
    replaces nothing: the letter is put in front of the whole seed.  No such
    seed comes from [make_tiles]: a URL found by one of the simple patterns
    has at least five characters. *)
Theorem sibling_url_short_seed (url : string) :
  ((String.length url <= 4)%nat ->
   forall i, sibling_url url i = String i url) /\
  (first_match REGEX_SIMPLE url <> None -> (5 <= String.length url)%nat).
Proof.
  split.
  - intros Hlen i. unfold sibling_url, PyStr.slice_until_last, PyStr.slice_last.
    replace (String.length url - 5)%nat with 0%nat by lia.
    replace (String.length url - 4)%nat with 0%nat by lia.
    rewrite substring_nothing, substring_whole by lia. reflexivity.
  - intros Hfound.
    destruct (shape_lengths url) as [Hf Hd].
    destruct (simple_table url) as (_ & _ & Hnone).
    destruct (le_lt_dec 5 (String.length url)) as [|Hshort]; [assumption |].
    exfalso. apply Hfound, Hnone; intros Hs.
    + apply Hf in Hs. lia.
    + apply Hd in Hs. lia.
Qed.

Section Routes.

Variable http_open : list string -> string -> http_outcome.
Variable str_mod : string -> Z -> Z -> Z -> Z -> option string.
Variable multistitch : list face_grid -> option File.
Variable cubemap_to_equirectangular : tileset -> pyvalue -> option File.
Variable conversion : Conversion.

(** ** The six-face download, step by step *)

Lemma export_simple_from_effects (url : string) :
  forall (tiles : string) (output : list File) (st : state),
    match export_simple_from http_open conversion url tiles output st with
    | Returns out st' =>
        exists fs,
          out = output ++ fs /\
          length fs = String.length tiles /\
          st' = {| probes := probes st;
                   requests := requests st
                               ++ map (sibling_url url)
                                      (list_ascii_of_string tiles);
                   files := files st ++ fs;
                   calls := calls st |}
    | Raises e st' =>
        exists (done : string) (i : ascii) (rest : string) (fs : list File),
          tiles = (done ++ String i rest)%string /\
          Forall2 (tile_of_letter http_open conversion url)
                  (list_ascii_of_string done) fs /\
          st' = {| probes := probes st;
                   requests := requests st
                               ++ map (sibling_url url)
                                      (list_ascii_of_string done ++ [i]);
                   files := files st ++ fs;
                   calls := calls st |} /\
          let history :=
            requests st ++ map (sibling_url url) (list_ascii_of_string done) in
          ((e = FetchError /\
            http_open history (sibling_url url i) = OpenRaises) \/
           (e = AssertionError /\
            exists code content,
              http_open history (sibling_url url i) = Response code content
              /\ code <> 200))
    | OutOfFuel => False
    end.
Proof.
  induction tiles as [|i tiles IH]; intros output st;
    simpl export_simple_from.
  - exists []. unfold ret. destruct st; simpl. now rewrite !app_nil_r.
  - unfold bind at 1. unfold http_request.
    destruct (http_open (requests st) (sibling_url url i))
      as [|code content] eqn:E.
    + exists ""%string, i, tiles, []. simpl. rewrite !app_nil_r.
      split; [reflexivity |]. split; [constructor |].
      split; [reflexivity |]. left. split; [reflexivity | exact E].
    + unfold bind at 1. simpl fst. unfold py_assert.
      destruct (code =? 200) eqn:Ecode.
      * apply Z.eqb_eq in Ecode. subst code.
        unfold ret at 1. unfold bind at 1. unfold create_file. simpl snd.
        set (f := {| file_conversion := conversion; file_name := None;
                     file_content := content;
                     file_mime_type := "image/jpeg" |}).
        specialize (IH (output ++ [f])
                       (add_file f (add_request (sibling_url url i) st))).
        destruct (export_simple_from http_open conversion url tiles
                    (output ++ [f]) _) as [out st' | e st' |].
        -- destruct IH as (fs & -> & Hlen & ->).
           exists (f :: fs). simpl. rewrite <- !app_assoc. simpl.
           repeat split. now rewrite Hlen.
        -- destruct IH as (done & j & rest & fs & -> & Hall & -> & Hkind).
           exists (String i done), j, rest, (f :: fs). simpl.
           rewrite <- !app_assoc. simpl.
           split; [reflexivity |]. split.
           { constructor; [| exact Hall].
             repeat split. exists (requests st). exact E. }
           split; [reflexivity |].
           simpl in Hkind. rewrite <- !app_assoc in Hkind. exact Hkind.
        -- exact IH.
      * unfold raise. exists ""%string, i, tiles, []. simpl.
        rewrite !app_nil_r. split; [reflexivity |].
        split; [constructor |]. split; [reflexivity |].
        right. split; [reflexivity |]. exists code, content.
        split; [exact E | now apply Z.eqb_neq].
Qed.

(** X8: when [export_simple] raises, it does so at the first letter whose
    sibling is not answered with status 200: [FetchError] if the request
    itself fails, [AssertionError] for another status.  The siblings of the
    letters before it and of that letter have been requested, in order, and
    no later one; the files of the letters before it stay in the table. *)
Theorem export_simple_first_failure (url tiles : string) (st st' : state)
  (e : exn) :
  export_simple http_open conversion url tiles st = Raises e st' ->
  exists (done : string) (i : ascii) (rest : string) (fs : list File),
    tiles = (done ++ String i rest)%string /\
    Forall2 (tile_of_letter http_open conversion url)
            (list_ascii_of_string done) fs /\
    requests st'
    = requests st
      ++ map (sibling_url url) (list_ascii_of_string done ++ [i]) /\
    files st' = files st ++ fs /\
    probes st' = probes st /\ calls st' = calls st /\
    let history :=
      requests st ++ map (sibling_url url) (list_ascii_of_string done) in
    ((e = FetchError /\
      http_open history (sibling_url url i) = OpenRaises) \/
     (e = AssertionError /\
      exists code content,
        http_open history (sibling_url url i) = Response code content
        /\ code <> 200)).
Proof.
  intros E. unfold export_simple in E.
  pose proof (export_simple_from_effects url tiles [] st) as H.
  rewrite E in H.
  destruct H as (done & i & rest & fs & -> & Hall & -> & Hkind).
  exists done, i, rest, fs. simpl. auto 10.
Qed.

(** ** The full-pyramid download *)

Lemma export_full_run (fuel : nat) (url : string) (st : state) :
  exists sch,
    url_normalize http_open url st = Returns sch (add_request url st) /\
    match export http_open str_mod conversion fuel sch (add_request url st) with
    | Returns images st1 =>
        export_full http_open str_mod multistitch conversion fuel url st
        = match multistitch images with
          | Some f => Returns f (add_call (CallMultistitch images) st1)
          | None => Raises StitchError (add_call (CallMultistitch images) st1)
          end
    | Raises _ _ => False
    | OutOfFuel =>
        export_full http_open str_mod multistitch conversion fuel url st
        = OutOfFuel
    end.
Proof.
  destruct (url_normalize_returns http_open url st) as (sch & E).
  exists sch. split; [exact E |].
  pose proof (export_returned http_open str_mod conversion sch fuel
                (add_request url st)) as Hr.
  destruct (export http_open str_mod conversion fuel sch (add_request url st))
    as [images st1 | |] eqn:Ex; [| contradiction |];
    unfold export_full; unfold bind at 1; rewrite E; unfold bind at 1;
    rewrite Ex; [| reflexivity].
  unfold call_multistitch, bind, log_call.
  destruct (multistitch images); reflexivity.
Qed.

Lemma export_full_log (fuel : nat) (url : string) (st st1 : state)
  (sch : schema) (images : list face_grid) :
  export http_open str_mod conversion fuel sch (add_request url st)
  = Returns images st1 ->
  length images = 6%nat /\ Forall rows_nonempty images /\
  exists more,
    requests (add_call (CallMultistitch images) st1)
    = requests st ++ url :: more /\
    files (add_call (CallMultistitch images) st1)
    = files st ++ concat (concat images) /\
    calls (add_call (CallMultistitch images) st1)
    = calls st ++ [CallMultistitch images] /\
    (length (concat (concat images)) <= length more)%nat.
Proof.
  intros E.
  pose proof (export_returned http_open str_mod conversion sch fuel
                (add_request url st)) as Hr.
  pose proof (export_run http_open str_mod conversion sch fuel
                (add_request url st)) as He.
  rewrite E in Hr, He.
  destruct Hr as (zoom & st0 & _ & Hrows & Hall).
  destruct He as (trace & -> & Hcount).
  apply Forall2_length in Hall.
  split; [now rewrite <- Hall |]. split; [exact Hrows |].
  exists (trace_urls str_mod sch trace). unfold add_call, advance, add_request.
  cbn [probes requests files calls]. rewrite <- app_assoc.
  repeat split; auto.
Qed.

(** X9: [export_full] can raise nothing but the failure of the
    multistitcher: whatever happens to the seed request and to the probes
    is caught on the way.  When it returns or raises, its first request was
    the seed URL and it has called [multistitch] exactly once, last, with
    six grids of non-empty rows that hold exactly the files it created; the
    answer of [multistitch] is its own.  It finishes whenever the fuel of
    the loops exceeds a bound beyond which the schema of the seed finds no
    tile. *)
Theorem export_full_outcome (fuel : nat) (url : string) (st : state) :
  match export_full http_open str_mod multistitch conversion fuel url st with
  | Returns f st' =>
      exists images more,
        multistitch images = Some f /\
        length images = 6%nat /\ Forall rows_nonempty images /\
        requests st' = requests st ++ url :: more /\
        files st' = files st ++ concat (concat images) /\
        calls st' = calls st ++ [CallMultistitch images] /\
        (length (concat (concat images)) <= length more)%nat
  | Raises e st' =>
      e = StitchError /\
      exists images more,
        multistitch images = None /\
        length images = 6%nat /\ Forall rows_nonempty images /\
        requests st' = requests st ++ url :: more /\
        files st' = files st ++ concat (concat images) /\
        calls st' = calls st ++ [CallMultistitch images] /\
        (length (concat (concat images)) <= length more)%nat
  | OutOfFuel => True
  end /\
  forall B : nat,
    (forall sch st1,
       url_normalize http_open url st = Returns sch st1 ->
       bounded_provider http_open str_mod sch B) ->
    (B < fuel)%nat ->
    export_full http_open str_mod multistitch conversion fuel url st
    <> OutOfFuel.
Proof.
  destruct (export_full_run fuel url st) as (sch & Hsch & Hrun).
  split.
  - destruct (export http_open str_mod conversion fuel sch (add_request url st))
      as [images st1 | |] eqn:E; [| contradiction | now rewrite Hrun].
    destruct (export_full_log fuel url st st1 sch images E)
      as (Hlen & Hrows & more & Hreq & Hfiles & Hcalls & Hcount).
    rewrite Hrun.
    destruct (multistitch images) eqn:Em;
      [| split; [reflexivity |]]; exists images, more; auto 10.
  - intros B Hb Hfuel.
    destruct (export_terminates http_open str_mod conversion sch B
                (Hb sch _ Hsch) fuel (add_request url st) Hfuel)
      as (images & st1 & E).
    rewrite E in Hrun. rewrite Hrun.
    destruct (multistitch images); discriminate.
Qed.

(** ** Routes of [make_tiles] *)

Lemma make_tiles_route (fuel : nat) (url : string) (st : state) :
  (full_pyramid_shape url ->
   make_tiles http_open str_mod multistitch conversion fuel url st
   = (f <- export_full http_open str_mod multistitch conversion fuel url ;;
      ret (Multistitched f)) st) /\
  (~ full_pyramid_shape url -> face_letter_shape url ->
   make_tiles http_open str_mod multistitch conversion fuel url st
   = (fs <- export_simple http_open conversion url "frblud" ;;
      ret (FaceFiles fs)) st) /\
  (~ full_pyramid_shape url -> ~ face_letter_shape url ->
   leading_digit_shape url ->
   make_tiles http_open str_mod multistitch conversion fuel url st
   = (fs <- export_simple http_open conversion url "012345" ;;
      ret (FaceFiles fs)) st) /\
  (~ full_pyramid_shape url -> ~ face_letter_shape url ->
   ~ leading_digit_shape url ->
   make_tiles http_open str_mod multistitch conversion fuel url st
   = Raises (ValueError (url ++ " does not seem to be a valid krpano URL."))
       st).
Proof.
  destruct (full_table url) as [Hfull Hnofull].
  destruct (simple_table url) as (Hface & Hdigit & Hnone).
  unfold make_tiles. repeat split.
  - intros H. now rewrite (Hfull H).
  - intros H1 H2. now rewrite (Hnofull H1), (Hface H2).
  - intros H1 H2 H3. now rewrite (Hnofull H1), (Hdigit H2 H3).
  - intros H1 H2 H3. now rewrite (Hnofull H1), (Hnone H2 H3).
Qed.

(** X10: [make_tiles] routes on the shape of the URL, in this order: a
    full-pyramid URL goes to [export_full]; otherwise one with a
    face-letter suffix goes to [export_simple] with the letters [frblud];
    otherwise one that starts with a digit, any character and [jpg] goes
    to [export_simple] with the letters [012345]; any other URL raises
    [ValueError] with the URL in the message, before anything is
    requested. *)
Theorem make_tiles_routes (fuel : nat) (url : string) (st : state) :
  (full_pyramid_shape url ->
   make_tiles http_open str_mod multistitch conversion fuel url st
   = (f <- export_full http_open str_mod multistitch conversion fuel url ;;
      ret (Multistitched f)) st) /\
  (~ full_pyramid_shape url -> face_letter_shape url ->
   make_tiles http_open str_mod multistitch conversion fuel url st
   = (fs <- export_simple http_open conversion url "frblud" ;;
      ret (FaceFiles fs)) st) /\
  (~ full_pyramid_shape url -> ~ face_letter_shape url ->
   leading_digit_shape url ->
   make_tiles http_open str_mod multistitch conversion fuel url st
   = (fs <- export_simple http_open conversion url "012345" ;;
      ret (FaceFiles fs)) st) /\
  (~ full_pyramid_shape url -> ~ face_letter_shape url ->
   ~ leading_digit_shape url ->
   make_tiles http_open str_mod multistitch conversion fuel url st
   = Raises (ValueError (url ++ " does not seem to be a valid krpano URL."))
       st).
Proof.
  destruct (full_table url) as [Hfull Hnofull].
  destruct (simple_table url) as (Hface & Hdigit & Hnone).
  unfold make_tiles. split; [| split; [| split]].
  - intros H. now rewrite (Hfull H).
  - intros H1 H2. now rewrite (Hnofull H1), (Hface H2).
  - intros H1 H2 H3. now rewrite (Hnofull H1), (Hdigit H2 H3).
  - intros H1 H2 H3. now rewrite (Hnofull H1), (Hnone H2 H3).
Qed.

Lemma six_faces_run (url tiles : string) (st : state) :
  match (fs <- export_simple http_open conversion url tiles ;;
         ret (FaceFiles fs)) st with
  | Returns t st' =>
      exists fs,
        t = FaceFiles fs /\ length fs = String.length tiles /\
        files st' = files st ++ fs /\
        length (requests st') = (length (requests st) + String.length tiles)%nat /\
        probes st' = probes st /\ calls st' = calls st
  | Raises e st' =>
      (e = FetchError \/ e = AssertionError) /\
      (length (files st') < length (files st) + String.length tiles)%nat /\
      length (requests st') = S (length (files st')
                                 - length (files st) + length (requests st)) /\
      probes st' = probes st /\ calls st' = calls st
  | OutOfFuel => False
  end.
Proof.
  unfold bind, export_simple.
  pose proof (export_simple_from_effects url tiles [] st) as H.
  destruct (export_simple_from http_open conversion url tiles [] st)
    as [out st' | e st' |]; [| | exact H].
  - destruct H as (fs & -> & Hlen & ->). unfold ret. exists fs. simpl.
    repeat split; auto.
    rewrite length_app, length_map. f_equal.
    clear. induction tiles; simpl; auto.
  - destruct H as (done & i & rest & fs & -> & Hall & -> & Hkind).
    simpl in Hkind. cbn [probes requests files calls].
    apply Forall2_length in Hall.
    assert (Hdone : length (list_ascii_of_string done) = String.length done).
    { clear. induction done; simpl; auto. }
    split; [destruct Hkind as [[-> _] | [-> _]]; auto |].
    rewrite !length_app, length_map, length_app, length_append. simpl.
    repeat split; lia.
Qed.

(** X11: the six-face route.  For a URL that is not of the full-pyramid
    shape and is found by one of the simple patterns, [make_tiles] needs no
    fuel, makes no probe and calls no stitcher.  It returns six files, the
    ones it created, after six requests; or it raises [FetchError] or
    [AssertionError] at the first sibling that is not answered with status
    200, having created fewer than six files, one for each request before
    the last. *)
Theorem make_tiles_six_faces (fuel : nat) (url : string) (st : state) :
  ~ full_pyramid_shape url ->
  face_letter_shape url \/ leading_digit_shape url ->
  match make_tiles http_open str_mod multistitch conversion fuel url st with
  | Returns t st' =>
      exists fs,
        t = FaceFiles fs /\ length fs = 6%nat /\
        files st' = files st ++ fs /\
        length (requests st') = (length (requests st) + 6)%nat /\
        probes st' = probes st /\ calls st' = calls st
  | Raises e st' =>
      (e = FetchError \/ e = AssertionError) /\
      (length (files st') < length (files st) + 6)%nat /\
      length (requests st') = S (length (files st')
                                 - length (files st) + length (requests st)) /\
      probes st' = probes st /\ calls st' = calls st
  | OutOfFuel => False
  end.
Proof.
  intros Hnofull Hsimple.
  destruct (make_tiles_route fuel url st) as (_ & Hface & Hdigit & _).
  assert (E : exists tiles,
             String.length tiles = 6%nat /\
             make_tiles http_open str_mod multistitch conversion fuel url st
             = (fs <- export_simple http_open conversion url tiles ;;
                ret (FaceFiles fs)) st).
  { destruct (face_letter_shape_dec url) as [Hf | Hf].
    - exists "frblud"%string. split; [reflexivity | now apply Hface].
    - destruct Hsimple as [Hs | Hs]; [contradiction |].
      exists "012345"%string. split; [reflexivity | now apply Hdigit]. }
  destruct E as (tiles & Hlen & ->).
  pose proof (six_faces_run url tiles st) as H. rewrite Hlen in H. exact H.
Qed.

(** ** What [to_equirectangular] can raise *)

Lemma test_url_unsupported (url : string) :
  test_url url = CERTAINTY_UNSUPPORTED
  <-> first_match REGEX_FULL url = None /\ first_match REGEX_SIMPLE url = None.
Proof.
  unfold test_url, REGEX_FULL, REGEX_SIMPLE, first_match.
  repeat match goal with
         | |- context [search ?p url] => destruct (search p url)
         end;
    split; try (intros [? ?]); intros; try discriminate; auto.
Qed.

Lemma make_tiles_run (fuel : nat) (url : string) (st : state) :
  match make_tiles http_open str_mod multistitch conversion fuel url st with
  | Returns _ st1 => exists cs, calls st1 = calls st ++ cs
  | Raises e st1 =>
      match e with
      | ValueError msg =>
          msg = (url ++ " does not seem to be a valid krpano URL.")%string /\
          st1 = st /\
          first_match REGEX_FULL url = None /\
          first_match REGEX_SIMPLE url = None
      | FetchError | AssertionError =>
          first_match REGEX_FULL url = None /\ calls st1 = calls st
      | StitchError =>
          exists images,
            multistitch images = None /\
            calls st1 = calls st ++ [CallMultistitch images]
      | TypeError | IndexError => False
      end
  | OutOfFuel => True
  end.
Proof.
  assert (Hfull : match (f <- export_full http_open str_mod multistitch
                                conversion fuel url ;;
                         ret (Multistitched f)) st with
                  | Returns _ st1 => exists cs, calls st1 = calls st ++ cs
                  | Raises e st1 =>
                      e = StitchError /\
                      exists images,
                        multistitch images = None /\
                        calls st1 = calls st ++ [CallMultistitch images]
                  | OutOfFuel => True
                  end).
  { unfold bind.
    destruct (export_full_run fuel url st) as (sch & _ & Hrun).
    destruct (export http_open str_mod conversion fuel sch (add_request url st))
      as [images st1 | |] eqn:E; [| contradiction | now rewrite Hrun].
    destruct (export_full_log fuel url st st1 sch images E)
      as (_ & _ & more & _ & _ & Hcalls & _).
    rewrite Hrun. destruct (multistitch images) eqn:Em.
    - unfold ret. eauto.
    - split; [reflexivity |]. eauto. }
  assert (Hsimple : forall tiles,
            first_match REGEX_FULL url = None ->
            match (fs <- export_simple http_open conversion url tiles ;;
                   ret (FaceFiles fs)) st with
            | Returns _ st1 => exists cs, calls st1 = calls st ++ cs
            | Raises e st1 =>
                (e = FetchError \/ e = AssertionError) /\
                first_match REGEX_FULL url = None /\ calls st1 = calls st
            | OutOfFuel => True
            end).
  { intros tiles Hnone. pose proof (six_faces_run url tiles st) as H.
    destruct ((fs <- export_simple http_open conversion url tiles ;;
               ret (FaceFiles fs)) st) as [t st1 | e st1 |]; [| | exact I].
    - destruct H as (fs & _ & _ & _ & _ & _ & Hc). exists [].
      now rewrite app_nil_r.
    - destruct H as (Hkind & _ & _ & _ & Hc). auto. }
  unfold make_tiles.
  destruct (first_match REGEX_FULL url) as [[cert kw]|] eqn:Ef.
  - assert (kw = []) as ->.
    { revert Ef. unfold REGEX_FULL, first_match.
      match goal with
      | |- context [search ?p url] => destruct (search p url)
      end; congruence. }
    unfold apply_export_full.
    destruct ((f <- export_full http_open str_mod multistitch conversion fuel
                      url ;; ret (Multistitched f)) st)
      as [t st1 | e st1 |]; auto.
    destruct Hfull as (-> & Himages). exact Himages.
  - destruct (first_match REGEX_SIMPLE url) as [[cert kw]|] eqn:Es.
    + assert (Hkw : kw = [] \/ kw = [("tiles", "012345")]%string).
      { revert Es. unfold REGEX_SIMPLE, first_match.
        repeat match goal with
               | |- context [search ?p url] => destruct (search p url)
               end; intros [= <- <-]; auto. }
      assert (G : forall tiles,
                 match (fs <- export_simple http_open conversion url tiles ;;
                        ret (FaceFiles fs)) st with
                 | Returns _ st1 => exists cs, calls st1 = calls st ++ cs
                 | Raises e st1 =>
                     match e with
                     | ValueError msg =>
                         msg = (url ++ " does not seem to be a valid krpano URL.")%string /\
                         st1 = st /\ @None (certainty * kwargs) = None /\
                         Some (cert, kw) = None
                     | FetchError | AssertionError =>
                         @None (certainty * kwargs) = None /\
                         calls st1 = calls st
                     | StitchError =>
                         exists images,
                           multistitch images = None /\
                           calls st1 = calls st ++ [CallMultistitch images]
                     | TypeError | IndexError => False
                     end
                 | OutOfFuel => True
                 end).
      { intros tiles. specialize (Hsimple tiles eq_refl).
        destruct ((fs <- export_simple http_open conversion url tiles ;;
                   ret (FaceFiles fs)) st) as [t st1 | e st1 |]; auto.
        destruct Hsimple as ([-> | ->] & _ & Hc); auto. }
      destruct Hkw as [-> | ->]; apply G.
    + cbn. auto.
Qed.

(** X12: what [to_equirectangular] can raise.  When the classifier
    [test_url] finds the URL of the conversion unsupported,
    [to_equirectangular] raises [ValueError] with the URL in the message
    and has done nothing: no request, no file, no stitcher call.  It raises
    [ValueError] in no other case; [FetchError] and [AssertionError] come
    only from the six-face download of a URL that is not a full-pyramid
    one, before any stitcher call; [StitchError] comes from the stitcher
    that was called last; the [TypeError] and [IndexError] raised on the
    way never escape. *)
Theorem to_equirectangular_exceptions (fuel : nat) (st : state) :
  let url := conv_url conversion in
  let message := (url ++ " does not seem to be a valid krpano URL.")%string in
  (test_url url = CERTAINTY_UNSUPPORTED ->
   to_equirectangular http_open str_mod multistitch
     cubemap_to_equirectangular conversion fuel st
   = Raises (ValueError message) st) /\
  (forall e st',
     to_equirectangular http_open str_mod multistitch
       cubemap_to_equirectangular conversion fuel st = Raises e st' ->
     match e with
     | ValueError msg =>
         msg = message /\ st' = st /\ test_url url = CERTAINTY_UNSUPPORTED
     | FetchError | AssertionError =>
         ~ full_pyramid_shape url /\ calls st' = calls st
     | StitchError =>
         exists cs c,
           calls st' = calls st ++ cs ++ [c] /\
           match c with
           | CallMultistitch images => multistitch images = None
           | CallCubemapToEquirectangular tiles rotation =>
               cubemap_to_equirectangular tiles rotation = None
           end
     | TypeError | IndexError => False
     end).
Proof.
  intros url message. split.
  - intros Hun. apply test_url_unsupported in Hun as [Hf Hs].
    unfold to_equirectangular, bind, make_tiles. fold url.
    now rewrite Hf, Hs.
  - intros e st' E. unfold to_equirectangular in E. unfold bind at 1 in E.
    fold url in E.
    pose proof (make_tiles_run fuel url st) as Hrun.
    destruct (make_tiles http_open str_mod multistitch conversion fuel url st)
      as [t st1 | e1 st1 |]; [| injection E as <- <- | discriminate].
    + destruct Hrun as (cs & Hcs).
      unfold call_cubemap_to_equirectangular, bind, log_call in E.
      destruct (cubemap_to_equirectangular t (rotation_of conversion))
        eqn:Ec; [discriminate |].
      unfold raise in E. injection E as <- <-.
      exists cs, (CallCubemapToEquirectangular t (rotation_of conversion)).
      split; [| exact Ec]. unfold add_call. cbn [calls].
      now rewrite Hcs, app_assoc.
    + destruct e1; auto.
      * destruct Hrun as [Hf Hc]. split; [| exact Hc].
        intros Hs. apply full_table in Hs. congruence.
      * destruct Hrun as (-> & -> & Hf & Hs). repeat split.
        apply test_url_unsupported. auto.
      * destruct Hrun as [Hf Hc]. split; [| exact Hc].
        intros Hs. apply full_table in Hs. congruence.
      * destruct Hrun as (images & Hm & Hc).
        exists [], (CallMultistitch images). auto.
Qed.

(** ** The pipeline *)

Lemma make_tiles_returned (fuel : nat) (url : string) (st st1 : state)
  (t : tileset) :
  make_tiles http_open str_mod multistitch conversion fuel url st
  = Returns t st1 ->
  (full_pyramid_shape url /\
   exists images f,
     t = Multistitched f /\ multistitch images = Some f /\
     length images = 6%nat /\
     calls st1 = calls st ++ [CallMultistitch images] /\
     files st1 = files st ++ concat (concat images)) \/
  (~ full_pyramid_shape url /\
   exists fs,
     t = FaceFiles fs /\ length fs = 6%nat /\
     calls st1 = calls st /\ files st1 = files st ++ fs).
Proof.
  intros E.
  destruct (make_tiles_route fuel url st) as (Hfull & Hface & Hdigit & Hnone).
  assert (Hsix : forall tiles,
             String.length tiles = 6%nat ->
             (fs <- export_simple http_open conversion url tiles ;;
              ret (FaceFiles fs)) st = Returns t st1 ->
             exists fs,
               t = FaceFiles fs /\ length fs = 6%nat /\
               calls st1 = calls st /\ files st1 = files st ++ fs).
  { intros tiles Hlen Es. pose proof (six_faces_run url tiles st) as H.
    rewrite Es, Hlen in H.
    destruct H as (fs & -> & Hfs & Hfiles & _ & _ & Hc). eauto. }
  destruct (full_pyramid_shape_dec url) as [Hs | Hs].
  - left. split; [exact Hs |]. rewrite (Hfull Hs) in E. unfold bind in E.
    destruct (export_full_run fuel url st) as (sch & _ & Hrun).
    destruct (export http_open str_mod conversion fuel sch (add_request url st))
      as [images st0 | |] eqn:Ex; [| contradiction | ].
    + destruct (export_full_log fuel url st st0 sch images Ex)
        as (Hlen & _ & more & _ & Hfiles & Hcalls & _).
      rewrite Hrun in E. destruct (multistitch images) as [f|] eqn:Em;
        [| discriminate].
      unfold ret in E. injection E as <- <-. exists images, f. auto.
    + rewrite Hrun in E. discriminate.
  - right. split; [exact Hs |].
    destruct (face_letter_shape_dec url) as [Hf | Hf].
    + rewrite (Hface Hs Hf) in E. now apply (Hsix "frblud"%string).
    + destruct (leading_digit_shape_dec url) as [Hd | Hd].
      * rewrite (Hdigit Hs Hf Hd) in E. now apply (Hsix "012345"%string).
      * rewrite (Hnone Hs Hf Hd) in E. discriminate.
Qed.

(** X14: the pipeline.  When [to_equirectangular] returns, the stitcher
    calls it added are, for a full-pyramid URL, one [multistitch] of six
    grids followed by one [cubemap_to_equirectangular] of the multistitched
    file; for any other URL, a single [cubemap_to_equirectangular] of the
    six downloaded files.  The rotation is the one of the conversion, the
    result is the answer of the cubemap stitcher, and the files created are
    those that were handed to the first stitcher. *)
Theorem to_equirectangular_pipeline (fuel : nat) (st st' : state)
  (result : File) :
  to_equirectangular http_open str_mod multistitch
    cubemap_to_equirectangular conversion fuel st = Returns result st' ->
  let url := conv_url conversion in
  let rotation := rotation_of conversion in
  (full_pyramid_shape url /\
   exists images f,
     length images = 6%nat /\
     multistitch images = Some f /\
     cubemap_to_equirectangular (Multistitched f) rotation = Some result /\
     calls st'
     = calls st ++ [CallMultistitch images;
                    CallCubemapToEquirectangular (Multistitched f) rotation] /\
     files st' = files st ++ concat (concat images)) \/
  (~ full_pyramid_shape url /\
   exists fs,
     length fs = 6%nat /\
     cubemap_to_equirectangular (FaceFiles fs) rotation = Some result /\
     calls st'
     = calls st ++ [CallCubemapToEquirectangular (FaceFiles fs) rotation] /\
     files st' = files st ++ fs).
Proof.
  intros E url rotation. unfold to_equirectangular in E.
  unfold bind at 1 in E. fold url in E.
  destruct (make_tiles http_open str_mod multistitch conversion fuel url st)
    as [t st1 | |] eqn:Em; try discriminate.
  unfold call_cubemap_to_equirectangular, bind, log_call in E.
  fold rotation in E.
  destruct (cubemap_to_equirectangular t rotation) as [r|] eqn:Ec;
    [| discriminate].
  unfold ret in E. injection E as <- <-.
  destruct (make_tiles_returned fuel url st st1 t Em)
    as [(Hs & images & f & -> & Hm & Hlen & Hc & Hf)
       | (Hs & fs & -> & Hlen & Hc & Hf)].
  - left. split; [exact Hs |]. exists images, f.
    unfold add_call. cbn [calls files]. rewrite Hc, <- app_assoc. auto.
  - right. split; [exact Hs |]. exists fs.
    unfold add_call. cbn [calls files]. rewrite Hc. auto.
Qed.

End Routes.
End RoutingSpec.

(* ===================================================================== *)
(** * The YouTube classifier *)
(* ===================================================================== *)

Module YouTubeSpec.

Import Regex PyStrFacts RegexFacts KRPano ClassifierSpec YouTube.

Lemma youtube_found (url : string) :
  first_match REGEX url <> None <-> youtube_shape url.
Proof.
  unfold REGEX, first_match.
  match goal with
  | |- context [search ?p url] => destruct (search p url) eqn:E
  end.
  - split; [intros _ | congruence].
    apply search_anchored in E as (m & post & -> & H).
    simpl body in H. split_cat H.
    split_syms.
    match goal with
    | Ha : lang (Alt _ _) ?w, Hd : cclass_mem CDot ?a = true |- _ =>
        apply dot_matches in Hd; exists w, a, post;
        split; [| split; [exact Hd |]]
    end.
    + match goal with
      | Ha : lang (Alt _ _) _ |- _ => inversion Ha as [| | | ? ? ? Hw | ? ? ? Hw | |]; subst
      end.
      * left. now apply (lang_Lits "www.") in Hw.
      * right. now inversion Hw.
    + rewrite !append_assoc. reflexivity.
  - split; [congruence |].
    intros (www & any & rest & Hwww & Hany & ->). exfalso.
    apply not_true_iff_false in E. apply E. apply search_anchored.
    exists ("https://" ++ www ++ "youtube" ++ String any "com"), rest.
    split.
    + destruct Hwww as [-> | ->]; reflexivity.
    + simpl body.
      apply lang_cat; [apply lang_Lits; reflexivity |].
      apply lang_cat.
      * destruct Hwww as [-> | ->];
          [apply lang_alt_l, lang_Lits; reflexivity
          | apply lang_alt_r; constructor].
      * apply lang_cat; [apply lang_Lits; reflexivity |].
        change (String any "com") with (String any "" ++ "com").
        apply lang_cat; [| apply lang_Lits; reflexivity].
        constructor. now apply dot_matches.
Qed.

(** X13: the YouTube classifier answers PROBABLE exactly for the URLs that
    start with [https://], an optional [www.], [youtube], any one character
    but a newline, and [com], whatever follows; every other URL is
    UNSUPPORTED, and no URL is POSSIBLE. *)
Theorem youtube_test_url (url : string) :
  (youtube_shape url <-> test_url url = CERTAINTY_PROBABLE) /\
  (~ youtube_shape url <-> test_url url = CERTAINTY_UNSUPPORTED) /\
  test_url url <> CERTAINTY_POSSIBLE.
Proof.
  pose proof (youtube_found url) as H. unfold test_url.
  assert (C : first_match REGEX url = None
              \/ first_match REGEX url = Some CERTAINTY_PROBABLE).
  { unfold REGEX, first_match.
    match goal with
    | |- context [search ?p url] => destruct (search p url)
    end; auto. }
  destruct C as [C | C]; rewrite C in *.
  - assert (Hn : ~ youtube_shape url) by (intros Hs; now apply H in Hs).
    repeat split; try discriminate; auto.
    intros Hs. contradiction.
  - assert (Hs : youtube_shape url) by (apply H; discriminate).
    repeat split; try discriminate; auto.
    intros Hn. contradiction.
Qed.

End YouTubeSpec.

(* ===================================================================== *)
(** * Further worked examples *)
(* ===================================================================== *)

Module MoreExamples.

Import Regex KRPano PyStr PyStrFacts ClassifierSpec NormalizerSpec
  NormalizerClosedForm GridEffects FaceGridSpec RoutingSpec YouTubeSpec.

Local Open Scope list_scope.

Lemma url_normalize_closed_form_witness :
  url_normalize demo_site demo_url initial_state
  = Returns demo_schema (add_request demo_url initial_state) /\
  forall a b c d : Z,
    percent_format "http://x/pano%i/%i/%i_%i.jpg" [a; b; c; d]
    = Formatted ("http://x/pano" ++ str_of_int a ++ "/" ++ str_of_int b
                   ++ "/" ++ str_of_int c ++ "_" ++ str_of_int d
                   ++ ".jpg")%string.
Proof.
  destruct (url_normalize_closed_form demo_site "http://x/pano0" "1"
              "0_0.jpg" initial_state eq_refl eq_refl eq_refl eq_refl)
    as [H1 H2].
  split; [exact H1 | exact (H2 eq_refl)].
Defined.

Lemma seed_round_trip_witness :
  url_normalize demo_site demo_url initial_state
  = Returns demo_schema (add_request demo_url initial_state) /\
  percent_format "http://x/pano%i/%i/%i_%i.jpg" [0; 1; 0; 0]
  = Formatted demo_url /\
  percent_format "http://x/pano%i/%i/%i_%i.jpg" [5; 3; 12; 7]
  = Formatted "http://x/pano5/3/12_7.jpg".
Proof.
  destruct (seed_round_trip demo_site "http://x/pano" 0 1 0 0 initial_state
              ltac:(lia) ltac:(lia) ltac:(lia) ltac:(lia)
              eq_refl eq_refl eq_refl)
    as [H1 H2].
  split; [exact H1 |]. split; [exact (H2 0 1 0 0) | exact (H2 5 3 12 7)].
Defined.

Lemma export_effects_witness :
  exists out st',
    export demo_site python_mod demo_conversion 4 demo_schema initial_state
    = Returns out st' /\
    exists trace,
      probes st' = probes initial_state ++ trace /\
      requests st'
      = requests initial_state ++ trace_urls python_mod demo_schema trace /\
      files st' = files initial_state ++ concat (concat out) /\
      calls st' = calls initial_state /\
      (length (concat (concat out))
       <= length (trace_urls python_mod demo_schema trace))%nat.
Proof.
  eexists. eexists.
  assert (H : export demo_site python_mod demo_conversion 4 demo_schema
                initial_state = Returns _ _) by (vm_compute; reflexivity).
  split; [exact H |].
  exact (export_effects demo_site python_mod demo_conversion demo_schema 4
           initial_state _ _ H).
Defined.

Lemma export_tile_names_witness :
  exists out st' grid row f,
    export demo_site python_mod demo_conversion 4 demo_schema initial_state
    = Returns out st' /\
    nth_error out 0 = Some grid /\ nth_error grid 1 = Some row /\
    nth_error row 2 = Some f /\
    file_name f = Some "0_1_1_2.jpg"%string /\
    file_mime_type f = "image/jpeg"%string /\
    file_conversion f = demo_conversion.
Proof.
  do 5 eexists.
  assert (Hz : get_max_zoom demo_site python_mod 4 demo_schema initial_state
               = Returns 1 _) by (vm_compute; reflexivity).
  assert (H : export demo_site python_mod demo_conversion 4 demo_schema
                initial_state = Returns _ _) by (vm_compute; reflexivity).
  split; [exact H |].
  split; [reflexivity |]. split; [reflexivity |]. split; [reflexivity |].
  exact (export_tile_names demo_site python_mod demo_conversion demo_schema 4
           initial_state _ _ 1 _ Hz H 0%nat 1%nat 2%nat _ _ _
           eq_refl eq_refl eq_refl).
Defined.

Lemma export_probes_of_result_witness :
  exists out st',
    export demo_site python_mod demo_conversion 4 demo_schema initial_state
    = Returns out st' /\
    probes st' = zoom_trace 1 ++ faces_trace 1 range6 out /\
    length (probes st') = 16%nat.
Proof.
  eexists. eexists.
  assert (H : export demo_site python_mod demo_conversion 4 demo_schema
                initial_state = Returns _ _) by (vm_compute; reflexivity).
  split; [exact H |].
  destruct (export_probes_of_result demo_site python_mod demo_conversion
              demo_schema 4 initial_state _ _ H)
    as (k & st0 & Hz & Hp & Hn).
  assert (Hk : k = 1%nat).
  { assert (Hz' : get_max_zoom demo_site python_mod 4 demo_schema
                    initial_state = Returns 1 _) by (vm_compute; reflexivity).
    rewrite Hz' in Hz. injection Hz as Hz _. lia. }
  subst k. split; [exact Hp | exact Hn].
Defined.

Lemma export_without_template_witness :
  export demo_site python_mod demo_conversion 1 SchemaFalse initial_state
  = Returns [[]; []; []; []; []; []]
      {| probes := [(0, 1, 0, 0); (0, 0, 0, 0); (1, 0, 0, 0); (2, 0, 0, 0);
                    (3, 0, 0, 0); (4, 0, 0, 0); (5, 0, 0, 0)];
         requests := []; files := []; calls := [] |}.
Proof.
  exact (export_without_template demo_site python_mod demo_conversion
           SchemaFalse 0 initial_state (fun _ _ _ _ => eq_refl)).
Defined.

Lemma sibling_url_short_seed_witness :
  sibling_url ".jpg" "f" = "f.jpg"%string /\
  (5 <= String.length "0.jpg")%nat.
Proof.
  split.
  - exact (proj1 (sibling_url_short_seed ".jpg") ltac:(simpl; lia) "f"%char).
  - apply (proj2 (sibling_url_short_seed "0.jpg")). vm_compute. discriminate.
Defined.

Lemma export_simple_first_failure_witness :
  exists st',
    export_simple (static_site ["http://x/pano_f.jpg"; "http://x/pano_r.jpg"]%string)
      demo_conversion "http://x/pano_f.jpg" "frblud" initial_state
    = Raises AssertionError st' /\
    exists (done : string) (i : ascii) (rest : string) (fs : list File),
      "frblud"%string = (done ++ String i rest)%string /\
      length fs = String.length done /\
      requests st'
      = map (sibling_url "http://x/pano_f.jpg")
            (list_ascii_of_string done ++ [i]) /\
      files st' = fs.
Proof.
  eexists.
  assert (H : export_simple
                (static_site ["http://x/pano_f.jpg"; "http://x/pano_r.jpg"]%string)
                demo_conversion "http://x/pano_f.jpg" "frblud" initial_state
              = Raises AssertionError _) by (vm_compute; reflexivity).
  split; [exact H |].
  destruct (export_simple_first_failure _ _ _ _ _ _ _ H)
    as (done & i & rest & fs & Htiles & Hall & Hreq & Hfiles & _).
  exists done, i, rest, fs.
  split; [exact Htiles |]. split; [| split; [exact Hreq | exact Hfiles]].
  apply Forall2_length in Hall. rewrite <- Hall.
  clear. induction done; simpl; auto.
Defined.

Lemma export_full_outcome_witness :
  export_full unreachable_host python_mod demo_multistitch demo_conversion 1
    demo_url initial_state <> OutOfFuel.
Proof.
  apply (proj2 (export_full_outcome unreachable_host python_mod
                  demo_multistitch demo_conversion 1 demo_url initial_state)
           0%nat); [| lia].
  intros sch st1 _ history a b c d _.
  unfold probe_ok, fetch_ok, unreachable_host.
  now destruct (schema_mod python_mod sch a b c d).
Defined.

Lemma make_tiles_routes_witness :
  make_tiles six_faces python_mod demo_multistitch demo_conversion 0
    "0.jpg" initial_state
  = (fs <- export_simple six_faces demo_conversion "0.jpg" "012345" ;;
     ret (FaceFiles fs)) initial_state.
Proof.
  apply (proj1 (proj2 (proj2 (make_tiles_routes six_faces python_mod
                                demo_multistitch demo_conversion 0 "0.jpg"
                                initial_state)))).
  - apply full_pyramid_absent. vm_compute. reflexivity.
  - apply face_letter_absent. vm_compute. reflexivity.
  - exists "0"%char, "."%char, ""%string. repeat split. discriminate.
Defined.

Lemma make_tiles_six_faces_witness :
  exists fs st',
    make_tiles six_faces python_mod demo_multistitch demo_conversion 0
      "http://x/pano_f.jpg" initial_state
    = Returns (FaceFiles fs) st' /\
    length fs = 6%nat /\ files st' = fs /\
    length (requests st') = 6%nat /\ probes st' = [] /\ calls st' = [].
Proof.
  assert (Hfull : ~ full_pyramid_shape "http://x/pano_f.jpg")
    by (apply full_pyramid_absent; vm_compute; reflexivity).
  assert (Hface : face_letter_shape "http://x/pano_f.jpg" \/
                  leading_digit_shape "http://x/pano_f.jpg").
  { left. exists "http://x/pano"%string, "f"%char, "."%char, ""%string.
    repeat split. discriminate. }
  pose proof (make_tiles_six_faces six_faces python_mod demo_multistitch
                demo_conversion 0 "http://x/pano_f.jpg" initial_state
                Hfull Hface) as H.
  destruct (make_tiles six_faces python_mod demo_multistitch demo_conversion
              0 "http://x/pano_f.jpg" initial_state) as [t st' | e st' |] eqn:E.
  - destruct H as (fs & -> & Hlen & Hfiles & Hreq & Hp & Hc).
    exists fs, st'. repeat split; assumption.
  - exfalso. vm_compute in E. discriminate.
  - contradiction.
Defined.

Lemma to_equirectangular_exceptions_witness :
  let conversion := {| conv_url := "https://example.org/a.png";
                       conv_properties := None |} in
  to_equirectangular demo_site python_mod demo_multistitch
    demo_cubemap_to_equirectangular conversion 4 initial_state
  = Raises (ValueError
              "https://example.org/a.png does not seem to be a valid krpano URL.")
      initial_state.
Proof.
  intros conversion.
  apply (proj1 (to_equirectangular_exceptions demo_site python_mod
                  demo_multistitch demo_cubemap_to_equirectangular conversion
                  4 initial_state)).
  vm_compute. reflexivity.
Defined.

Lemma youtube_test_url_witness :
  YouTube.test_url "https://www.youtube.com/watch?v=x" = CERTAINTY_PROBABLE /\
  YouTube.test_url "http://www.youtube.com/watch?v=x" = CERTAINTY_UNSUPPORTED.
Proof.
  split.
  - apply (proj1 (proj1 (youtube_test_url "https://www.youtube.com/watch?v=x"))).
    exists "www."%string, "."%char, "/watch?v=x"%string.
    split; [now left |]. split; [discriminate | reflexivity].
  - apply (proj1 (proj1 (proj2 (youtube_test_url
                                  "http://www.youtube.com/watch?v=x")))).
    intros Hs. apply youtube_found in Hs. apply Hs. vm_compute. reflexivity.
Defined.

Lemma to_equirectangular_pipeline_witness :
  exists st' images f,
    to_equirectangular demo_site python_mod demo_multistitch
      demo_cubemap_to_equirectangular demo_conversion 4 initial_state
    = Returns (demo_stitched "result") st' /\
    length images = 6%nat /\
    calls st'
    = [CallMultistitch images;
       CallCubemapToEquirectangular (Multistitched f) (PyTuple [10; 20; 30])] /\
    files st' = concat (concat images).
Proof.
  assert (H : to_equirectangular demo_site python_mod demo_multistitch
                demo_cubemap_to_equirectangular demo_conversion 4
                initial_state
              = Returns (demo_stitched "result") _)
    by (vm_compute; reflexivity).
  destruct (to_equirectangular_pipeline demo_site python_mod demo_multistitch
              demo_cubemap_to_equirectangular demo_conversion 4 initial_state
              _ _ H)
    as [(_ & images & f & Hlen & _ & _ & Hc & Hf) | (Hn & _)].
  - eexists. exists images, f. split; [exact H |].
    split; [exact Hlen |]. split; [exact Hc | exact Hf].
  - exfalso. apply Hn. apply full_pyramid_found. vm_compute. discriminate.
Defined.

(** ** The demo site serves nothing beyond its six tiles *)










End MoreExamples.
